(** * showtimes: the scraper of src/index.js, embedded and verified

    The development follows the layout of the source file:
    - [JS]: the fragment of JavaScript strings, regular expressions and
      values that the scraper relies on;
    - [Dom]: what the Cheerio selectors used by the scraper see of a page;
    - [Showtimes]: the methods of [Showtimes.prototype], one definition per
      method, with the instance fields ([this.page], [this.theaters], ...)
      threaded explicitly;
    - the properties, claim by claim. *)

From Stdlib Require Import String Ascii List NArith ZArith Bool Lia.
Import ListNotations.

Set Implicit Arguments.

(* ================================================================== *)
(** ** JavaScript strings and values *)
(* ================================================================== *)
Module JS.

(** A JavaScript string is a sequence of UTF-16 code units. *)
Definition code_unit := N.
Definition jsstring := list code_unit.

(** A string literal of the source (all of them are ASCII, except the
    breadcrumb arrow [rsaquo]). *)
Definition lit (s : string) : jsstring := map N_of_ascii (list_ascii_of_string s).

Definition str_eq_dec : forall a b : jsstring, {a = b} + {a <> b} :=
  list_eq_dec N.eq_dec.

Definition str_eqb (a b : jsstring) : bool :=
  if str_eq_dec a b then true else false.

Definition is_empty (s : jsstring) : bool :=
  match s with [] => true | _ :: _ => false end.

(** [thing.replace(/[^\x00-\x7F]/g, '')] keeps the units of [\x00-\x7F]. *)
Definition is_ascii (c : code_unit) : bool := (c <=? 127)%N.

(** ECMAScript WhiteSpace and LineTerminator, the units removed by
    [String.prototype.trim] and matched by [\s]. *)
Definition is_line_terminator (c : code_unit) : bool :=
  ((c =? 10) || (c =? 13) || (c =? 8232) || (c =? 8233))%N.

Definition is_white (c : code_unit) : bool :=
  is_line_terminator c ||
  ((c =? 9) || (c =? 11) || (c =? 12) || (c =? 32) || (c =? 160) ||
   (c =? 5760) || ((8192 <=? c) && (c <=? 8202)) || (c =? 8239) ||
   (c =? 8287) || (c =? 12288) || (c =? 65279))%N.

Fixpoint trim_start (s : jsstring) : jsstring :=
  match s with
  | [] => []
  | c :: s' => if is_white c then trim_start s' else s
  end.

Definition trim_end (s : jsstring) : jsstring := rev (trim_start (rev s)).

(** [s.trim()] *)
Definition trim (s : jsstring) : jsstring := trim_end (trim_start s).

(** Does the literal [p] occur at the head of [s]? *)
Fixpoint starts_with (p s : jsstring) : bool :=
  match p, s with
  | [], _ => true
  | _ :: _, [] => false
  | a :: p', b :: s' => (a =? b)%N && starts_with p' s'
  end.

(** [s.match(/p/)] for a literal pattern [p], as a test. *)
Fixpoint includes (p s : jsstring) : bool :=
  match s with
  | [] => starts_with p []
  | _ :: s' => starts_with p s || includes p s'
  end.

(** Canonicalisation of a unit under the [i] flag (no [u] flag): a unit
    outside ASCII never canonicalises to an ASCII unit, so comparing with
    the ASCII letters of a pattern only needs the ASCII upper-casing. *)
Definition canonicalize (c : code_unit) : code_unit :=
  if ((97 <=? c) && (c <=? 122))%N then (c - 32)%N else c.

Fixpoint starts_with_ci (p s : jsstring) : bool :=
  match p, s with
  | [], _ => true
  | _ :: _, [] => false
  | a :: p', b :: s' => (canonicalize a =? canonicalize b)%N && starts_with_ci p' s'
  end.

(** [s.match(/p/i)] for a literal pattern [p], as a test. *)
Fixpoint includes_ci (p s : jsstring) : bool :=
  match s with
  | [] => starts_with_ci p []
  | _ :: s' => starts_with_ci p s || includes_ci p s'
  end.

(** [s.replace(/p/, '')]: the leftmost occurrence of [p] is dropped. *)
Fixpoint remove_first (p s : jsstring) : jsstring :=
  match s with
  | [] => []
  | c :: s' => if starts_with p s then skipn (length p) s else c :: remove_first p s'
  end.

(** [s.replace(p, r)] for a non-empty string [p] and a replacement [r]
    without [$]: the leftmost occurrence of [p] becomes [r]. *)
Fixpoint replace_first (p r s : jsstring) : jsstring :=
  match s with
  | [] => []
  | c :: s' => if starts_with p s then r ++ skipn (length p) s else c :: replace_first p r s'
  end.

(** [s.split(sep)] for a non-empty literal [sep]: the occurrences of
    [sep] are found from left to right and do not overlap.  [skip] counts
    the units of a matched separator still to be passed over, [cur] is
    the piece being read, reversed. *)
Fixpoint split_go (sep : jsstring) (skip : nat) (cur s : jsstring) : list jsstring :=
  match s with
  | [] => [rev cur]
  | c :: s' =>
      match skip with
      | S k => split_go sep k cur s'
      | O =>
          if starts_with sep s
          then rev cur :: split_go sep (length sep - 1) [] s'
          else split_go sep 0 (c :: cur) s'
      end
  end.

Definition split (sep s : jsstring) : list jsstring := split_go sep 0 [] s.

(** The values the scraper stores in its records: [undefined], [false],
    a string, or an array of strings. *)
Inductive jsval :=
| JUndefined
| JFalse
| JStr (s : jsstring)
| JArr (l : list jsstring).

(** ToBoolean, as used by [if (x)] and [a && b]. *)
Definition truthy (v : jsval) : bool :=
  match v with
  | JUndefined | JFalse => false
  | JStr s => negb (is_empty s)
  | JArr _ => true
  end.

(** Exceptions.  The scraper throws nothing itself: every exception is
    raised by the language or by a library ([url.parse] throws a
    TypeError on a value that is not a string and, on a string it cannot
    parse, a TypeError or a URIError). *)
Inductive exn :=
| TypeError (why : string)
| URIError (why : string).

Inductive outcome (A : Type) :=
| Ok (a : A)
| Throw (e : exn).
Arguments Throw {A} e.

Definition bind {A B} (m : outcome A) (k : A -> outcome B) : outcome B :=
  match m with
  | Ok a => k a
  | Throw e => Throw e
  end.

(** [arr.forEach]/[$.each] with a callback that may throw: elements are
    visited in order and the first exception stops the loop. *)
Fixpoint map_outcome {A B} (f : A -> outcome B) (l : list A) : outcome (list B) :=
  match l with
  | [] => Ok []
  | a :: r => bind (f a) (fun b => bind (map_outcome f r) (fun bs => Ok (b :: bs)))
  end.

(** A plain object [{}] used as a map from strings: its own properties,
    listed in the order of their creation (which is not the order of
    enumeration when keys are array indices). *)
Definition object := list (jsstring * jsval).

(** The property [k] is created, or overwritten where it stands. *)
Fixpoint obj_put (k : jsstring) (v : jsval) (o : object) : object :=
  match o with
  | [] => [(k, v)]
  | (k', v') :: r => if str_eqb k k' then (k', v) :: r else (k', v') :: obj_put k v r
  end.

(** [o[k] = v].  The key "__proto__" names the accessor that a plain
    object inherits from [Object.prototype]: assigning to it calls the
    setter and creates no property. *)
Definition obj_set (k : jsstring) (v : jsval) (o : object) : object :=
  if str_eqb k (lit "__proto__") then o else obj_put k v o.

End JS.
Import JS.

Declare Scope js_scope.
Delimit Scope js_scope with js.
Notation "x <- m ;; k" := (bind m (fun x => k))
  (at level 61, m at next level, right associativity) : js_scope.
Local Open Scope js_scope.

(* ================================================================== *)
(** ** The page, as the selectors of the scraper see it *)
(* ================================================================== *)
Module Dom.

(** An [a] element: its text and its [href] ([None]: no such attribute). *)
Record Anchor := { a_text : jsstring; a_href : option jsstring }.

(** [sel.attr('href')] reads the first element of the selection. *)
Definition attr_href (sel : list Anchor) : option jsstring :=
  match sel with
  | [] => None
  | a :: _ => a_href a
  end.

(** The content of an [.info] element in document order: text, [br]
    elements, comments and links.  [IBr] is a [br] element without
    attributes, which [html()] writes as [<br>]; [IBrWith] is a [br]
    element that carries attributes, written as [<br ...>]. *)
Inductive Inline :=
| IText (s : jsstring)
| IBr
| IBrWith
| IComment (data : jsstring)
| IAnchor (a : Anchor).

Definition inline_text (i : Inline) : jsstring :=
  match i with
  | IText s => s
  | IBr | IBrWith | IComment _ => []
  | IAnchor a => a_text a
  end.

(** [el.text()] *)
Definition element_text (el : list Inline) : jsstring := concat (map inline_text el).

(** [el.html(el.html().replace('<br>', ' - '))].  The replacement is
    made in the serialisation, on the first occurrence of the four
    characters [<br>]: the serialisation escapes every [<] of a text and
    of an attribute value, so the occurrence is a [br] element without
    attributes, which becomes text, or lies in the data of a comment,
    which stays a comment. *)
Fixpoint replace_first_br (el : list Inline) : list Inline :=
  match el with
  | [] => []
  | IBr :: r => IText (lit " - ") :: r
  | IComment data :: r =>
      if includes (lit "<br>") data
      then IComment (replace_first (lit "<br>") (lit " - ") data) :: r
      else IComment data :: replace_first_br r
  | i :: r => i :: replace_first_br r
  end.

(** A child node of the [#SynopsisSecond0] panel: text, or an element
    with its text. *)
Inductive Node :=
| NText (s : jsstring)
| NElem (text : jsstring).

Definition node_text (n : Node) : jsstring :=
  match n with NText s => s | NElem s => s end.

Definition is_element (n : Node) : bool :=
  match n with NElem _ => true | NText _ => false end.

(** The last element child of a panel is removed. *)
Fixpoint remove_last_element (ns : list Node) : list Node :=
  match ns with
  | [] => []
  | n :: r =>
      if is_element n && negb (existsb is_element r) then r
      else n :: remove_last_element r
  end.

(** What [span[itemprop="description"]] and [#SynopsisSecond0] match in
    a movie, in document order: the text of a description span, and the
    panels, each of which lies inside a description span or outside. *)
Inductive Block :=
| BText (s : jsstring)
| BPanel (inside : bool) (children : list Node).

(** [movie.find('span[itemprop="description"]').text()]: the text of the
    spans, with that of the panels they hold. *)
Definition description_text (blocks : list Block) : jsstring :=
  concat (map (fun b => match b with
                        | BText s => s
                        | BPanel true children => concat (map node_text children)
                        | BPanel false _ => []
                        end) blocks).

(** [movie.find('#SynopsisSecond0').text()] *)
Definition panel_text (blocks : list Block) : jsstring :=
  concat (map (fun b => match b with
                        | BText _ => []
                        | BPanel _ children => concat (map node_text children)
                        end) blocks).

Definition has_child_element (b : Block) : bool :=
  match b with
  | BText _ => false
  | BPanel _ children => existsb is_element children
  end.

(** [movie.find('#SynopsisSecond0').children().last().remove()]:
    [children()] are the element children of the panels, in document
    order; the last of them leaves the document. *)
Fixpoint remove_last_child (blocks : list Block) : list Block :=
  match blocks with
  | [] => []
  | b :: r =>
      if existsb has_child_element r then b :: remove_last_child r
      else match b with
           | BText _ => b :: r
           | BPanel inside children => BPanel inside (remove_last_element children) :: r
           end
  end.

(** What [_parseShowtimes] reads of its [thing]. *)
Record Times := {
  fl_links : list Anchor;     (* thing.find('.times a.fl') *)
  times_text : jsstring       (* thing.find('.times').text() *)
}.

(** A selection of [.movie] elements and a selection of [.theater]
    elements; each field is the result of one selector of the source.
    Movies nest theaters on a movie-first page, theaters nest movies on
    a theater-first page.  The fields are independent of one another:
    what one selector matches does not lie inside what another matches.
    The one nesting that is modelled is that of [m_description]: a
    synopsis panel may lie inside a description span (no description
    span lies inside a panel, and no panel inside another). *)
Inductive Movie := mkMovie {
  m_name : jsstring;              (* movie.find('.name').text() *)
  m_itemprop_name : jsstring;     (* movie.find('h2[itemprop=name]').text() *)
  m_name_links : list Anchor;     (* movie.find('.name a') *)
  m_header_links : list Anchor;   (* movie.find('.header .desc h2[itemprop=name] a') *)
  m_infos : list (list Inline);   (* movie.find('.info'), element by element *)
  m_description : list Block;     (* span[itemprop="description"] and #SynopsisSecond0 *)
  m_times : Times;
  m_theaters : list Theater;      (* movie.find('.showtimes .theater') *)
  m_show_more : nat               (* movie.find('.showtimes p.show_more').length *)
}
with Theater := mkTheater {
  t_name_links : list Anchor;       (* theater.find('.name a') *)
  t_desc_name_links : list Anchor;  (* theater.find('.desc h2.name a') *)
  t_desc_info : jsstring;           (* theater.find('.desc .info').text() *)
  t_name : jsstring;                (* theater.find('.name').text() *)
  t_address : jsstring;             (* theater.find('.address').text() *)
  t_desc_name : jsstring;           (* theater.find('.desc h2.name').text() *)
  t_times : Times;
  t_movies : list Movie             (* theater.find('.showtimes .movie') *)
}.

(** A selection of several elements answers a selector with the matches
    of each element, in document order: [$('.theater')] as one selection
    (getTheater) and [$('.movie')] as one selection (getMovie). *)
Definition all_times (l : list Times) : Times :=
  {| fl_links := flat_map fl_links l; times_text := concat (map times_text l) |}.

Definition all_movies (l : list Movie) : Movie :=
  {| m_name := concat (map m_name l);
     m_itemprop_name := concat (map m_itemprop_name l);
     m_name_links := flat_map m_name_links l;
     m_header_links := flat_map m_header_links l;
     m_infos := flat_map m_infos l;
     m_description := flat_map m_description l;
     m_times := all_times (map m_times l);
     m_theaters := flat_map m_theaters l;
     m_show_more := list_sum (map m_show_more l) |}.

Definition all_theaters (l : list Theater) : Theater :=
  {| t_name_links := flat_map t_name_links l;
     t_desc_name_links := flat_map t_desc_name_links l;
     t_desc_info := concat (map t_desc_info l);
     t_name := concat (map t_name l);
     t_address := concat (map t_address l);
     t_desc_name := concat (map t_desc_name l);
     t_times := all_times (map t_times l);
     t_movies := flat_map t_movies l |}.

(** The document [$] returned by [cheerio.load]. *)
Record Page := {
  p_theaters : list Theater;      (* $('.theater') *)
  p_movies : list Movie;          (* $('.movie') *)
  p_results : jsstring;           (* $('#results').text() *)
  p_title_bar : jsstring;         (* $('#title_bar').text() *)
  p_breadcrumb : jsstring;        (* $('#left_nav .section div b').first().text() *)
  p_left_nav_links : list Anchor; (* $('#left_nav .section a') *)
  p_navbar_links : list Anchor    (* $('#navbar td a') *)
}.

(** [$('#navbar td a:contains("Next")')] *)
Definition next_links (p : Page) : list Anchor :=
  filter (fun a => includes (lit "Next") (a_text a)) (p_navbar_links p).

(** [text.match(/^Showtimes for (.+)$/)]: group 1, or [None] for null.
    Without the [m] flag [^] and [$] are the ends of the text, and [.]
    matches no line terminator. *)
Definition match_title (text : jsstring) : option jsstring :=
  let prefix := lit "Showtimes for " in
  if starts_with prefix text then
    let rest := skipn (length prefix) text in
    if is_empty rest || existsb is_line_terminator rest then None else Some rest
  else None.

Definition rsaquo : code_unit := 8250%N.

(** [text.match(/^›\s*(.+)$/)]: group 1, or [None] for null.  [\s*] is
    greedy; when everything after the arrow is white space it gives its
    last unit back to [(.+)]. *)
Definition match_day (text : jsstring) : option jsstring :=
  match text with
  | [] => None
  | c :: rest =>
      if (c =? rsaquo)%N then
        match trim_start rest with
        | [] =>
            match rev rest with
            | [] => None
            | l :: _ => if is_line_terminator l then None else Some [l]
            end
        | body => if existsb is_line_terminator body then None else Some body
        end
      else None
  end.

End Dom.
Import Dom.

(* ================================================================== *)
(** ** The scraper *)
(* ================================================================== *)
Module Showtimes.

(** *** Records built by the scraper *)

(** [{ showtimes: [...], showtime_tickets: {...} }]; the second property
    exists only when ticket links were found. *)
Record ShowtimesResponse := {
  showtimes : list jsstring;
  showtime_tickets : option object
}.

(** The theater of a movie-first page (the [alternate] branch of
    [_parseTheater]). *)
Record TheaterAlt := {
  ta_id : jsval;
  ta_name : jsstring;
  ta_address : jsstring;
  ta_showtimes : list jsstring;
  ta_showtime_tickets : option object
}.

(** [director], [cast] and [description] are set together; the first two
    may hold [undefined]. *)
Record Detail := {
  director : option jsstring;
  cast : option (list jsstring);
  description : jsstring
}.

(** The object returned by [_parseMovie] and completed by [getMovies] and
    [getMovie].  An optional property is [None] while it does not exist. *)
Record MovieData := {
  mv_id : jsval;
  mv_name : jsstring;
  mv_runtime : jsval;
  mv_rating : jsval;
  mv_genre : jsval;
  mv_imdb : jsval;
  mv_trailer : jsval;
  mv_showtimes : option (list jsstring);
  mv_showtime_tickets : option object;
  mv_detail : option Detail;
  mv_theaters : option (list TheaterAlt);
  mv_more_theaters : bool
}.

(** The theater of a theater-first page. *)
Record TheaterFull := {
  th_id : jsval;
  th_name : jsstring;
  th_address : jsstring;
  th_phoneNumber : jsstring;
  th_movies : list MovieData
}.

Inductive TheaterData :=
| AltTheater (t : TheaterAlt)
| FullTheater (t : TheaterFull).

(** [theaterData.name] *)
Definition theater_name (t : TheaterData) : jsstring :=
  match t with
  | AltTheater a => ta_name a
  | FullTheater f => th_name f
  end.

(** *** The instance and what it exchanges with the network *)

(** The fields of a [Showtimes] object.  [page] is [None] while it is
    [undefined]; [theaters] and [movies] are only read after
    [getTheaters]/[getMovies] assigned them. *)
Record Instance := {
  location : jsstring;
  date : Z;
  lang : jsstring;
  pageLimit : Z;
  page : option Z;
  theaters : list TheaterData;
  movies : list MovieData
}.

Record Options := {
  opt_date : option Z;
  opt_lang : option jsstring;
  opt_pageLimit : option Z
}.

Definition no_options : Options :=
  {| opt_date := None; opt_lang := None; opt_pageLimit := None |}.

(** [new Showtimes(location, options)] *)
Definition new_Showtimes (loc : jsstring) (options : Options) : Instance :=
  {| location := loc;
     date := match opt_date options with Some d => d | None => 0%Z end;
     lang := match opt_lang options with Some l => l | None => lit "en" end;
     pageLimit := match opt_pageLimit options with Some l => l | None => 999%Z end;
     page := None;
     theaters := [];
     movies := [] |}.

Definition set_page (api : Instance) (p : option Z) : Instance :=
  {| location := location api; date := date api; lang := lang api;
     pageLimit := pageLimit api; page := p;
     theaters := theaters api; movies := movies api |}.

Definition set_theaters (api : Instance) (ts : list TheaterData) : Instance :=
  {| location := location api; date := date api; lang := lang api;
     pageLimit := pageLimit api; page := page api;
     theaters := ts; movies := movies api |}.

Definition set_movies (api : Instance) (ms : list MovieData) : Instance :=
  {| location := location api; date := date api; lang := lang api;
     pageLimit := pageLimit api; page := page api;
     theaters := theaters api; movies := ms |}.

(** The [params] argument of [_request]. *)
Inductive Params :=
| P_q (query : option jsstring)           (* {q: query} *)
| P_tid (theaterId : jsstring)            (* {tid: theaterId} *)
| P_sort_q (query : option jsstring)      (* {sort: 1, q: query} *)
| P_mid (movieId : jsstring).             (* {mid: movieId} *)

(** The query string of one fetch.  [q_start] is [None] for NaN. *)
Record Query := {
  q_hl : jsstring;
  q_near : jsstring;
  q_date : Z;
  q_start : option Z;
  q_params : Params
}.

Inductive Error := MkError (message : jsstring).

(** What [request] hands to its callback: an error, or a response with
    its status code and its body (and a null error). *)
Inductive Response :=
| NetworkError (error : Error)
| Replied (statusCode : Z) (body : jsstring).

(** The libraries the scraper calls. *)
Record Library := {
  (** [url.parse(u).query] for a string [u]: the query string of [u], or
      null; [url.parse] throws on a string that it cannot parse *)
  url_parse_query : jsstring -> outcome (option jsstring);
  (** [querystring.parse(s)[key]] for a non-empty string [s] *)
  qs_parse_string : jsstring -> jsstring -> jsval;
  (** [cheerio.load(markup)] *)
  cheerio_load : jsstring -> Page;
  (** [request(options, callback)]: one HTTP GET *)
  request : Query -> Response
}.

(** What [qs.parse] is applied to in the source: a string, null, or the
    Url object returned by [url.parse]. *)
Inductive qs_arg :=
| QsString (s : jsstring)
| QsNull
| QsUrl (href : jsstring).

(** The first argument of the completion callback. *)
Inductive Arg1 :=
| ANull
| AString (s : jsstring)
| AError (e : Error).

Inductive Data :=
| DTheaters (l : list TheaterData)
| DTheater (t : TheaterData)
| DMovies (l : list MovieData)
| DMovie (m : MovieData).

(** [{ location: ..., date: ..., data: ... }] *)
Record Result := {
  r_location : jsstring;
  r_date : jsstring;
  r_data : Data
}.

(** How a top-level call ends: [cb(first)] or [cb(first, second)], an
    exception that nothing catches, or not yet (the model ran out of
    fuel). *)
Inductive Event :=
| Callback (first : Arg1) (second : option Result)
| Uncaught (e : exn)
| Pending.

(** A run of a public method: the fetches issued, in order, how it ended
    and the instance it leaves behind. *)
Record Run := {
  fetched : list Query;
  ended : Event;
  after : Instance
}.

(** *** The methods of [Showtimes.prototype] *)

Section Methods.

Variable lib : Library.

(** [qs.parse(x)[key]].  The library returns an empty object unless [x]
    is a non-empty string. *)
Definition qs_parse (x : qs_arg) (key : jsstring) : jsval :=
  match x with
  | QsString s => if is_empty s then JUndefined else qs_parse_string lib s key
  | QsNull => JUndefined
  | QsUrl _ => JUndefined
  end.

(** [url.parse(u).query], as an argument of [qs.parse]. *)
Definition url_query (u : jsstring) : outcome qs_arg :=
  query <- url_parse_query lib u ;;
  Ok (match query with
      | Some q => QsString q
      | None => QsNull
      end).

(** [url.parse(x).query] for the result [x] of [attr('href')]:
    [url.parse] throws unless [x] is a string. *)
Definition url_parse_arg (x : option jsstring) : outcome qs_arg :=
  match x with
  | Some u => url_query u
  | None => Throw (TypeError "Parameter 'url' must be a string, not undefined")
  end.

(** [_removeNonAsciiCharacters], on a string and on an array. *)
Definition _removeNonAsciiCharacters (thing : jsstring) : jsstring :=
  filter is_ascii thing.

Definition _removeNonAsciiCharacters_each (thing : list jsstring) : list jsstring :=
  map _removeNonAsciiCharacters thing.

(** [showtime.match(/(am|pm)/)]: the leftmost match, or [None]. *)
Fixpoint match_meridiem (showtime : jsstring) : option jsstring :=
  match showtime with
  | [] => None
  | _ :: rest =>
      if starts_with (lit "am") showtime then Some (lit "am")
      else if starts_with (lit "pm") showtime then Some (lit "pm")
      else match_meridiem rest
  end.

(** The closure [getTime] of [_parseShowtimes]; the variable [meridiem]
    it captures ([None] for false) is passed in and returned. *)
Definition getTime (meridiem : option jsstring) (raw_time : jsstring)
  : jsstring * option jsstring :=
  let showtime := trim (_removeNonAsciiCharacters raw_time) in
  match match_meridiem showtime with
  | Some m => (showtime, Some m)
  | None =>
      match meridiem with
      | Some m => (showtime ++ m, meridiem)
      | None => (showtime, meridiem)
      end
  end.

(** [_.map(list, getTime)] *)
Fixpoint map_getTime (meridiem : option jsstring) (raw : list jsstring) : list jsstring :=
  match raw with
  | [] => []
  | raw_time :: rest =>
      let (showtime, meridiem') := getTime meridiem raw_time in
      showtime :: map_getTime meridiem' rest
  end.

(** [_.map(list, function (item) {...})], which also fills
    [response.showtime_tickets]. *)
Fixpoint map_getTime_tickets (meridiem : option jsstring) (tickets : object)
    (items : list (jsstring * jsval)) : list jsstring * object :=
  match items with
  | [] => ([], tickets)
  | (item_time, item_url) :: rest =>
      let (time, meridiem') := getTime meridiem item_time in
      let (times, tickets') :=
        map_getTime_tickets meridiem' (obj_set time item_url tickets) rest in
      (time :: times, tickets')
  end.

(** [target.map(function (i, el) {...}).get()] *)
Definition ticket_item (el : Anchor) : outcome (jsstring * jsval) :=
  query <- url_parse_arg (a_href el) ;;
  Ok (a_text el, qs_parse query (lit "q")).

Definition _parseShowtimes (thing : Times) : outcome ShowtimesResponse :=
  match fl_links thing with
  | [] =>
      let times := split (lit " ") (times_text thing) in
      Ok {| showtimes := rev (map_getTime None (rev times));
            showtime_tickets := None |}
  | target =>
      items <- map_outcome ticket_item target ;;
      let (times, tickets) := map_getTime_tickets None [] (rev items) in
      Ok {| showtimes := rev times; showtime_tickets := Some tickets |}
  end.

(** [movie.find('.info a')]: the links of the [.info] elements. *)
Definition info_links (movie : Movie) : list Anchor :=
  flat_map (flat_map (fun i => match i with IAnchor a => [a] | _ => [] end))
           (m_infos movie).

(** ['https://google.com' + sel.attr('href')] *)
Definition google_url (sel : list Anchor) : jsstring :=
  lit "https://google.com" ++
  match attr_href sel with
  | Some h => h
  | None => lit "undefined"
  end.

Definition _parseTrailer (movie : Movie) : outcome jsval :=
  match filter (fun a => includes (lit "Trailer") (a_text a)) (info_links movie) with
  | [] => Ok JFalse
  | sel => query <- url_query (google_url sel) ;; Ok (qs_parse query (lit "q"))
  end.

Definition _parseImdb (movie : Movie) : outcome jsval :=
  match filter (fun a => includes (lit "IMDb") (a_text a)) (info_links movie) with
  | [] => Ok JFalse
  | sel => query <- url_query (google_url sel) ;; Ok (qs_parse query (lit "q"))
  end.

(** Lines 354-389 of [_parseMovie]: runtime, rating and genre out of the
    tokens of the info line.  [split] never returns an empty array. *)
Definition is_link_label (token : jsstring) : bool :=
  includes_ci (lit "IMDB") token || includes_ci (lit "Trailer") token.

Definition genre_of (v : jsval) : jsval :=
  match v with
  | JStr s => if is_empty s then v else JStr (_removeNonAsciiCharacters s)
  | JArr l => JArr (_removeNonAsciiCharacters_each l)
  | _ => v
  end.

Definition parse_info (info : list jsstring) : jsval * jsval * jsval :=
  let info0 := nth 0 info [] in
  if includes (lit "hr ") info0 || includes (lit "min") info0 then
    let runtime := JStr (_removeNonAsciiCharacters (trim info0)) in
    let info1 := nth 1 info [] in
    if includes (lit "Rated") info1 then
      let rating :=
        JStr (_removeNonAsciiCharacters (trim (remove_first (lit "Rated") info1))) in
      match nth_error info 2 with
      | Some info2 =>
          if is_link_label info2 then (runtime, rating, JFalse)
          else (runtime, rating, genre_of (JArr (split (lit "/") (trim info2))))
      | None => (runtime, rating, JFalse)
      end
    else
      if is_link_label info1 then (runtime, JFalse, JFalse)
      else (runtime, JFalse, genre_of (JArr (split (lit "/") (trim info1))))
  else (JFalse, JFalse, genre_of (JStr (trim info0))).

(** [if (!info[1]) info[1] = ''], done once a runtime was found. *)
Definition fill_info1 (info : list jsstring) : list jsstring :=
  let info0 := nth 0 info [] in
  if includes (lit "hr ") info0 || includes (lit "min") info0 then
    match info with
    | [t0] => [t0; []]
    | _ => info
    end
  else info.

(** [for (var x in info) {...}]: director and cast. *)
Fixpoint scan_detail (info : list jsstring) (director : option jsstring)
    (cast : option (list jsstring)) : option jsstring * option (list jsstring) :=
  match info with
  | [] => (director, cast)
  | token :: rest =>
      if includes (lit "Director:") token then
        scan_detail rest (Some (trim (remove_first (lit "Director:") token))) cast
      else if includes (lit "Cast:") token then
        scan_detail rest director
          (Some (split (lit ", ") (trim (remove_first (lit "Cast:") token))))
      else scan_detail rest director cast
  end.

Fixpoint update_last {A} (f : A -> A) (l : list A) : list A :=
  match l with
  | [] => []
  | [x] => [f x]
  | x :: r => x :: update_last f r
  end.

Definition set_infos (movie : Movie) (infos : list (list Inline)) : Movie :=
  mkMovie (m_name movie) (m_itemprop_name movie) (m_name_links movie)
          (m_header_links movie) infos (m_description movie)
          (m_times movie) (m_theaters movie) (m_show_more movie).

Definition set_description (movie : Movie) (blocks : list Block) : Movie :=
  mkMovie (m_name movie) (m_itemprop_name movie) (m_name_links movie)
          (m_header_links movie) (m_infos movie) blocks
          (m_times movie) (m_theaters movie) (m_show_more movie).

(** Lines 323-336 of [_parseMovie]: the id, when none was given. *)
Definition resolve_movie_id (doc : Page) (movie : Movie) (alternate : bool)
  : outcome jsval :=
  let cloakedUrl :=
    if alternate then attr_href (m_header_links movie)
    else attr_href (m_name_links movie) in
  let cloakedUrl :=
    match cloakedUrl with
    | None => attr_href (p_left_nav_links doc)
    | Some _ => cloakedUrl
    end in
  query <- url_parse_arg cloakedUrl ;; Ok (qs_parse query (lit "mid")).

(** Lines 340-352: the tokens of the info line.  In the movie-first
    layout the last [.info] element is rewritten first; [html()] of an
    empty selection is null. *)
Definition read_info (movie : Movie) (alternate : bool)
  : outcome (list jsstring) * Movie :=
  if alternate then
    match rev (m_infos movie) with
    | [] => (Throw (TypeError "Cannot read property 'replace' of null"), movie)
    | _ :: _ =>
        let movie' := set_infos movie (update_last replace_first_br (m_infos movie)) in
        (Ok (split (lit " - ") (element_text (last (m_infos movie') []))), movie')
    end
  else (Ok (split (lit " - ") (concat (map element_text (m_infos movie)))), movie).

(** Lines 392-408: director, cast and description.  The description
    spans are read, then the last child of the synopsis panel is removed,
    then the panel is read. *)
Definition read_detail (movie : Movie) (info : list jsstring) : Detail * Movie :=
  let (director, cast) := scan_detail info None None in
  let description := description_text (m_description movie) in
  let movie' := set_description movie (remove_last_child (m_description movie)) in
  let description := description ++ panel_text (m_description movie') in
  ({| director := director; cast := cast; description := trim description |}, movie').

(** [_parseMovie($, movie, alternate, movieId)].  The result is [None]
    for false.  The method rewrites the fragment it reads, so the
    fragment is returned as well. *)
Definition _parseMovie (doc : Page) (movie : Movie) (alternate : bool)
    (movieId : option jsstring) : outcome (option MovieData) * Movie :=
  let name := if alternate then m_itemprop_name movie else m_name movie in
  if is_empty name then (Ok None, movie) else
  let id :=
    match movieId with
    | Some given => Ok (JStr given)
    | None => resolve_movie_id doc movie alternate
    end in
  match id with
  | Throw e => (Throw e, movie)
  | Ok movieId =>
      match read_info movie alternate with
      | (Throw e, movie) => (Throw e, movie)
      | (Ok info, movie) =>
          let '(runtime, rating, genre) := parse_info info in
          let info := fill_info1 info in
          let '(detail, movie) :=
            if alternate && truthy movieId then
              let (detail, movie') := read_detail movie info in (Some detail, movie')
            else (None, movie) in
          let showtimes :=
            if alternate then Ok {| showtimes := []; showtime_tickets := None |}
            else _parseShowtimes (m_times movie) in
          match showtimes with
          | Throw e => (Throw e, movie)
          | Ok showtimes =>
              match _parseImdb movie with
              | Throw e => (Throw e, movie)
              | Ok imdb =>
                  match _parseTrailer movie with
                  | Throw e => (Throw e, movie)
                  | Ok trailer =>
                      (Ok (Some {| mv_id := movieId;
                                   mv_name := name;
                                   mv_runtime := runtime;
                                   mv_rating := rating;
                                   mv_genre := genre;
                                   mv_imdb := imdb;
                                   mv_trailer := trailer;
                                   mv_showtimes := Some (Showtimes.showtimes showtimes);
                                   mv_showtime_tickets := showtime_tickets showtimes;
                                   mv_detail := detail;
                                   mv_theaters := None;
                                   mv_more_theaters := false |}), movie)
                  end
              end
          end
      end
  end.

(** Lines 245-264 of [_parseTheater]: the id, when none was given.
    [url.parse] is applied to a link that is not the empty string, and
    [qs.parse] receives the Url object itself. *)
Definition resolve_theater_id (doc : Page) (theater : Theater) (alternate : bool)
  : outcome jsval :=
  let cloakedUrl :=
    if alternate then attr_href (t_name_links theater)
    else attr_href (t_desc_name_links theater) in
  let cloakedUrl :=
    match cloakedUrl with
    | None => attr_href (p_left_nav_links doc)
    | Some _ => cloakedUrl
    end in
  match cloakedUrl with
  | Some u =>
      if is_empty u then Ok JFalse
      else
        bind (url_parse_query lib u)
             (fun _ => Ok (match qs_parse (QsUrl u) (lit "tid") with
                           | JUndefined => JFalse
                           | tid => tid
                           end))
  | None => Ok JFalse
  end.

Definition given_or {A} (given : option jsstring) (resolve : A -> outcome jsval) (a : A)
  : outcome jsval :=
  match given with
  | Some id => Ok (JStr id)
  | None => resolve a
  end.

(** [info[i] ? info[i].trim() : ''] *)
Definition trim_token (i : nat) (info : list jsstring) : jsstring :=
  match nth_error info i with
  | Some token => if is_empty token then [] else trim token
  | None => []
  end.

(** The [alternate] branch of [_parseTheater] (lines 268-280). *)
Definition _parseTheater_alternate (doc : Page) (theater : Theater)
    (theaterId : option jsstring) : outcome TheaterAlt :=
  theaterId <- given_or theaterId (fun t => resolve_theater_id doc t true) theater ;;
  showtimes <- _parseShowtimes (t_times theater) ;;
  Ok {| ta_id := theaterId;
        ta_name := t_name theater;
        ta_address := t_address theater;
        ta_showtimes := Showtimes.showtimes showtimes;
        ta_showtime_tickets := showtime_tickets showtimes |}.

(** [theater.find('.showtimes .movie').each(...)]: the movies that
    [_parseMovie] did not refuse. *)
Fixpoint each_movie (doc : Page) (l : list Movie) : outcome (list MovieData) :=
  match l with
  | [] => Ok []
  | movie :: rest =>
      movie <- fst (_parseMovie doc movie false None) ;;
      movies <- each_movie doc rest ;;
      Ok (match movie with
          | Some movie => movie :: movies
          | None => movies
          end)
  end.

Definition _parseTheater (doc : Page) (theater : Theater) (alternate : bool)
    (theaterId : option jsstring) : outcome TheaterData :=
  if alternate then
    t <- _parseTheater_alternate doc theater theaterId ;; Ok (AltTheater t)
  else
    theaterId <- given_or theaterId (fun t => resolve_theater_id doc t false) theater ;;
    let info := split (lit " - ") (t_desc_info theater) in
    movies <- each_movie doc (t_movies theater) ;;
    Ok (FullTheater {| th_id := theaterId;
                       th_name := t_desc_name theater;
                       th_address := trim_token 0 info;
                       th_phoneNumber := trim_token 1 info;
                       th_movies := movies |}).

(** [iconv.decode(response, 'latin5')] on a binary string: ISO-8859-9 is
    Latin-1 but for six letters. *)
Definition latin5 (c : code_unit) : code_unit :=
  let b := N.land c 255 in
  (if b =? 208 then 286 else if b =? 221 then 304 else if b =? 222 then 350
   else if b =? 240 then 287 else if b =? 253 then 305 else if b =? 254 then 351
   else b)%N.

Definition iconv_decode_latin5 (response : jsstring) : jsstring := map latin5 response.

Definition unknown_error : jsstring :=
  lit "Unknown error occured while querying theater data from Google Movies.".

(** The [query] object of [_request]: the four fields of the instance,
    then the parameters of the caller. *)
Definition build_query (api : Instance) (params : Params) : Query :=
  {| q_hl := lang api;
     q_near := location api;
     q_date := date api;
     q_start := match page api with
                | Some p => Some ((p - 1) * 10)%Z
                | None => None
                end;
     q_params := params |}.

(** [_request(params, cb, handler)]: the query sent, and either the call
    of [cb] made by [_request] itself or the body passed to [handler]. *)
Definition _request (api : Instance) (params : Params) : Query * (Event + jsstring) :=
  let query := build_query api params in
  match request lib query with
  | NetworkError error => (query, inl (Callback (AError error) None))
  | Replied statusCode body =>
      if (statusCode =? 200)%Z then (query, inr body)
      else (query, inl (Callback (AString unknown_error) None))
  end.

(** [location] and [day] of a handler; [null[1]] throws. *)
Definition page_header (doc : Page) : outcome (jsstring * jsstring) :=
  match match_title (p_title_bar doc) with
  | None => Throw (TypeError "Cannot read property '1' of null")
  | Some loc =>
      match match_day (p_breadcrumb doc) with
      | None => Throw (TypeError "Cannot read property '1' of null")
      | Some day => Ok (loc, day)
      end
  end.

(** [$('.theater').each(...)] of [getTheaters], pushing on [api.theaters]. *)
Fixpoint each_theater (doc : Page) (api : Instance) (l : list Theater)
  : outcome unit * Instance :=
  match l with
  | [] => (Ok tt, api)
  | theater :: rest =>
      match _parseTheater doc theater false None with
      | Throw e => (Throw e, api)
      | Ok theaterData =>
          if (length (theater_name theaterData) =? 0)%nat then each_theater doc api rest
          else each_theater doc (set_theaters api (theaters api ++ [theaterData])) rest
      end
  end.

(** [movie.find('.showtimes .theater').each(...)] of [getMovies] and
    [getMovie]. *)
Definition nested_theaters (doc : Page) (movie : Movie) : outcome (list TheaterAlt) :=
  map_outcome (fun theater => _parseTheater_alternate doc theater None) (m_theaters movie).

Definition with_theaters (movieData : MovieData) (ts : list TheaterAlt)
    (more_theaters : bool) : MovieData :=
  {| mv_id := mv_id movieData;
     mv_name := mv_name movieData;
     mv_runtime := mv_runtime movieData;
     mv_rating := mv_rating movieData;
     mv_genre := mv_genre movieData;
     mv_imdb := mv_imdb movieData;
     mv_trailer := mv_trailer movieData;
     mv_showtimes := None;
     mv_showtime_tickets := mv_showtime_tickets movieData;
     mv_detail := mv_detail movieData;
     mv_theaters := Some ts;
     mv_more_theaters := more_theaters |}.

(** [$('.movie').each(...)] of [getMovies], pushing on [api.movies]. *)
Fixpoint each_page_movie (doc : Page) (api : Instance) (l : list Movie)
  : outcome unit * Instance :=
  match l with
  | [] => (Ok tt, api)
  | movie :: rest =>
      match _parseMovie doc movie true None with
      | (Throw e, _) => (Throw e, api)
      | (Ok None, _) => each_page_movie doc api rest
      | (Ok (Some movieData), movie) =>
          match nested_theaters doc movie with
          | Throw e => (Throw e, api)
          | Ok ts =>
              let movieData :=
                with_theaters movieData ts (negb (m_show_more movie =? 0)%nat) in
              each_page_movie doc (set_movies api (movies api ++ [movieData])) rest
          end
      end
  end.

Definition stop (q : Query) (e : Event) (api : Instance) : Run :=
  {| fetched := [q]; ended := e; after := api |}.

Definition then_run (q : Query) (r : Run) : Run :=
  {| fetched := q :: fetched r; ended := ended r; after := after r |}.

(** How the handler of a listing ends: with the end of the call, or with
    a call of the method for the next page. *)
Inductive Step :=
| Done (e : Event) (api : Instance)
| Again (api : Instance).

(** [api.page === api.pageLimit] *)
Definition at_limit (api : Instance) : bool :=
  match page api with
  | Some p => (p =? pageLimit api)%Z
  | None => false
  end.

(** [++api.page] *)
Definition next_page (api : Instance) : Instance :=
  set_page api (option_map Z.succ (page api)).

(** Lines 39-49 of [getTheaters]: the page and the accumulator are reset,
    then taken from the hidden arguments when there are any. *)
Definition enter_getTheaters (api : Instance) (hidden : option (Z * list TheaterData))
  : Instance :=
  let api := set_theaters (set_page api (Some 1%Z)) [] in
  match hidden with
  | Some (p, ts) => set_theaters (set_page api (Some p)) ts
  | None => api
  end.

(** Lines 51-87 of [getTheaters]: one fetch and its handler. *)
Definition getTheaters_page (api : Instance) (query : option jsstring) : Query * Step :=
  match _request api (P_q query) with
  | (q, inl e) => (q, Done e api)
  | (q, inr response) =>
      let response :=
        if str_eqb (lang api) (lit "tr") then iconv_decode_latin5 response
        else response in
      let doc := cheerio_load lib response in
      if (length (p_theaters doc) =? 0)%nat then
        (q, Done (Callback (AString (p_results doc)) None) api)
      else
        match page_header doc with
        | Throw e => (q, Done (Uncaught e) api)
        | Ok (loc, day) =>
            match each_theater doc api (p_theaters doc) with
            | (Throw e, api) => (q, Done (Uncaught e) api)
            | (Ok _, api) =>
                if (length (next_links doc) =? 0)%nat || at_limit api then
                  (q, Done (Callback ANull
                              (Some {| r_location := loc; r_date := day;
                                       r_data := DTheaters (theaters api) |})) api)
                else (q, Again (next_page api))
            end
        end
  end.

(** [getTheaters(query, cb)], and [getTheaters(query, cb, page, theaters)]
    when [hidden] is given.  [query] is [None] for null.  Each fetch of a
    further page takes one unit of [fuel]. *)
Fixpoint getTheaters (fuel : nat) (api : Instance) (query : option jsstring)
    (hidden : option (Z * list TheaterData)) : Run :=
  match getTheaters_page (enter_getTheaters api hidden) query with
  | (q, Done e api) => stop q e api
  | (q, Again api) =>
      match fuel, page api with
      | S fuel', Some p =>
          then_run q (getTheaters fuel' api query (Some (p, theaters api)))
      | _, _ => stop q Pending api
      end
  end.

(** [getMovies], in the same way. *)
Definition enter_getMovies (api : Instance) (hidden : option (Z * list MovieData))
  : Instance :=
  let api := set_movies (set_page api (Some 1%Z)) [] in
  match hidden with
  | Some (p, ms) => set_movies (set_page api (Some p)) ms
  | None => api
  end.

Definition getMovies_page (api : Instance) (query : option jsstring) : Query * Step :=
  match _request api (P_sort_q query) with
  | (q, inl e) => (q, Done e api)
  | (q, inr response) =>
      let response :=
        if str_eqb (lang api) (lit "tr") then iconv_decode_latin5 response
        else response in
      let doc := cheerio_load lib response in
      if (length (p_movies doc) =? 0)%nat then
        (q, Done (Callback (AString (p_results doc)) None) api)
      else
        match page_header doc with
        | Throw e => (q, Done (Uncaught e) api)
        | Ok (loc, day) =>
            match each_page_movie doc api (p_movies doc) with
            | (Throw e, api) => (q, Done (Uncaught e) api)
            | (Ok _, api) =>
                if (length (next_links doc) =? 0)%nat || at_limit api then
                  (q, Done (Callback ANull
                              (Some {| r_location := loc; r_date := day;
                                       r_data := DMovies (movies api) |})) api)
                else (q, Again (next_page api))
            end
        end
  end.

Fixpoint getMovies (fuel : nat) (api : Instance) (query : option jsstring)
    (hidden : option (Z * list MovieData)) : Run :=
  match getMovies_page (enter_getMovies api hidden) query with
  | (q, Done e api) => stop q e api
  | (q, Again api) =>
      match fuel, page api with
      | S fuel', Some p =>
          then_run q (getMovies fuel' api query (Some (p, movies api)))
      | _, _ => stop q Pending api
      end
  end.

(** [getTheater(theaterId, cb)].  The test [!$('.showtimes')] is applied
    to a Cheerio object, which is never falsy: its branch is dead. *)
Definition getTheater (api : Instance) (theaterId : jsstring) : Run :=
  match _request api (P_tid theaterId) with
  | (q, inl e) => stop q e api
  | (q, inr response) =>
      let doc := cheerio_load lib response in
      match page_header doc with
      | Throw e => stop q (Uncaught e) api
      | Ok (loc, day) =>
          let theater := all_theaters (p_theaters doc) in
          match _parseTheater doc theater false (Some theaterId) with
          | Throw e => stop q (Uncaught e) api
          | Ok theaterData =>
              stop q (Callback ANull
                        (Some {| r_location := loc; r_date := day;
                                 r_data := DTheater theaterData |})) api
          end
      end
  end.

(** [getMovie(movieId, cb)].  In strict mode [movieData.theaters = []]
    throws when [movieData] is false. *)
Definition getMovie (api : Instance) (movieId : jsstring) : Run :=
  match _request api (P_mid movieId) with
  | (q, inl e) => stop q e api
  | (q, inr response) =>
      let doc := cheerio_load lib response in
      let movie := all_movies (p_movies doc) in
      match _parseMovie doc movie true (Some movieId) with
      | (Throw e, _) => stop q (Uncaught e) api
      | (Ok None, _) =>
          stop q (Uncaught (TypeError "Cannot create property 'theaters' on boolean 'false'")) api
      | (Ok (Some movieData), movie) =>
          match nested_theaters doc movie with
          | Throw e => stop q (Uncaught e) api
          | Ok ts =>
              let movieData := with_theaters movieData ts false in
              match page_header doc with
              | Throw e => stop q (Uncaught e) api
              | Ok (loc, day) =>
                  stop q (Callback ANull
                            (Some {| r_location := loc; r_date := day;
                                     r_data := DMovie movieData |})) api
              end
          end
      end
  end.

End Methods.

End Showtimes.

Import Showtimes.

(* ================================================================== *)
(** ** Notions used to state the properties *)
(* ================================================================== *)

(** The tokens read by [_parseShowtimes]: the pieces of the text of
    [.times], or the texts of the ticket links when there are any. *)
Definition time_tokens (thing : Times) : list jsstring :=
  match fl_links thing with
  | [] => split (lit " ") (times_text thing)
  | target => map a_text target
  end.

(** A string without its non-ASCII units: the units up to U+007F are
    kept, in their order. *)
Definition ascii_only (s : jsstring) : jsstring :=
  filter (fun c => (c <=? 127)%N) s.

(** A token, stripped of non-ASCII units and trimmed. *)
Definition cleaned (token : jsstring) : jsstring := trim (ascii_only token).

(** The position of the first occurrence of [p] in [s]. *)
Fixpoint index_of (p s : jsstring) : option nat :=
  match s with
  | [] => if starts_with p [] then Some 0 else None
  | _ :: rest => if starts_with p s then Some 0 else option_map S (index_of p rest)
  end.

(** The meridiem that a time states: "am" or "pm", whichever occurs
    first in it. *)
Definition stated (time : jsstring) : option jsstring :=
  match index_of (lit "am") time, index_of (lit "pm") time with
  | Some i, Some j => if (i <? j)%nat then Some (lit "am") else Some (lit "pm")
  | Some _, None => Some (lit "am")
  | None, Some _ => Some (lit "pm")
  | None, None => None
  end.

(** The meridiem stated by the first of [later] that states one. *)
Fixpoint nearest_meridiem (later : list jsstring) : option jsstring :=
  match later with
  | [] => None
  | token :: rest =>
      match stated (cleaned token) with
      | Some m => Some m
      | None => nearest_meridiem rest
      end
  end.

Definition resolved (token : jsstring) (later : list jsstring) : jsstring :=
  match stated (cleaned token), nearest_meridiem later with
  | None, Some m => cleaned token ++ m
  | _, _ => cleaned token
  end.

(** [url.parse] throws on the result [x] of [attr('href')]: it is
    undefined, or a string that the library cannot parse. *)
Definition refuses (lib : Library) (x : option jsstring) : Prop :=
  match x with
  | Some u => exists e, url_parse_query lib u = Throw e
  | None => True
  end.

(** [url.parse] returns on [x]: a string that the library parses. *)
Definition accepts (lib : Library) (x : option jsstring) : Prop :=
  match x with
  | Some u => exists query, url_parse_query lib u = Ok query
  | None => False
  end.

Fixpoint back_inference (tokens : list jsstring) : list jsstring :=
  match tokens with
  | [] => []
  | token :: later => resolved token later :: back_inference later
  end.

(** The value of [meridiem] once [getTime] has been mapped over [raw]. *)
Definition carried (meridiem : option jsstring) (raw : list jsstring) : option jsstring :=
  fold_left (fun m raw_time => snd (getTime m raw_time)) raw meridiem.

(** The tokens of the info line, as [_parseMovie] reads them in each
    layout. *)
Definition info_tokens (movie : Movie) (alternate : bool) : list jsstring :=
  if alternate then
    split (lit " - ")
      (element_text (last (update_last replace_first_br (m_infos movie)) []))
  else split (lit " - ") (concat (map element_text (m_infos movie))).

Definition has_duration (token : jsstring) : bool :=
  includes (lit "hr ") token || includes (lit "min") token.

(** What a genre candidate becomes; [None] when the token is missing. *)
Definition genre_candidate (token : option jsstring) : jsval :=
  match token with
  | None => JFalse
  | Some token =>
      if is_link_label token then JFalse
      else JArr (map ascii_only (split (lit "/") (trim token)))
  end.

(** The classification as the specification words it: token 1 is the
    rating when it carries the prefix "Rated ", and the genre candidate
    otherwise. *)
Definition claimed_parse_info (info : list jsstring) : jsval * jsval * jsval :=
  let token0 := nth 0 info [] in
  if has_duration token0 then
    let runtime := JStr (ascii_only (trim token0)) in
    let token1 := nth 1 info [] in
    if starts_with (lit "Rated ") token1 then
      (runtime, JStr (ascii_only (trim (skipn 6 token1))),
       genre_candidate (nth_error info 2))
    else (runtime, JFalse, genre_candidate (Some token1))
  else (JFalse, JFalse, JStr (ascii_only (trim token0))).

Definition not_rated_info : list jsstring :=
  split (lit " - ") (lit "1 hr 45 min - Not Rated - Drama").


(** The genre as the specification words it: false, or a non-empty list
    of trimmed strings. *)
Definition claimed_genre (genre : jsval) : Prop :=
  genre = JFalse \/
  exists l, genre = JArr l /\ l <> [] /\ Forall (fun s => trim s = s) l.

(** A movie of a theater-first page with the given name and info line. *)
Definition listed_movie (name line : string) : Movie :=
  {| m_name := lit name;
     m_itemprop_name := [];
     m_name_links := [{| a_text := lit name; a_href := Some (lit "/movies?mid=1") |}];
     m_header_links := [];
     m_infos := [[IText (lit line)]];
     m_description := [];
     m_times := {| fl_links := []; times_text := lit "7:00pm" |};
     m_theaters := [];
     m_show_more := 0 |}.

(** A library that answers nothing: no query string in any URL, an empty
    document for any markup, an empty page for any fetch. *)
Definition blank_page : Page :=
  {| p_theaters := []; p_movies := []; p_results := []; p_title_bar := [];
     p_breadcrumb := []; p_left_nav_links := []; p_navbar_links := [] |}.

Definition blank_library : Library :=
  {| url_parse_query := fun _ => Ok None;
     qs_parse_string := fun _ _ => JUndefined;
     cheerio_load := fun _ => blank_page;
     request := fun _ => Replied 200 [] |}.


(* ================================================================== *)
(** ** Sample libraries and pages *)
(* ================================================================== *)

(** A plain reading of URLs: the query string is what follows the first
    "?", its parameters are separated by "&" and "=". *)
Fixpoint after_question (u : jsstring) : option jsstring :=
  match u with
  | [] => None
  | c :: r => if (c =? 63)%N then Some r else after_question r
  end.

Definition lookup_param (s key : jsstring) : jsval :=
  match find (starts_with (key ++ lit "=")) (split (lit "&") s) with
  | Some param => JStr (skipn (length key + 1) param)
  | None => JUndefined
  end.

(** A site made of numbered pages: the fetch with start offset [10 * n]
    answers the markup [[n]], which loads as the [n]-th page. *)
Definition site (pages : list Page) : Library :=
  {| url_parse_query := fun u => Ok (after_question u);
     qs_parse_string := lookup_param;
     cheerio_load := fun markup =>
                       match markup with
                       | [n] => nth (N.to_nat n) pages blank_page
                       | _ => blank_page
                       end;
     request := fun q =>
                  match q_start q with
                  | Some start => Replied 200 [Z.to_N (start / 10)]
                  | None => Replied 200 [0%N]
                  end |}.

Definition next_link : Anchor :=
  {| a_text := lit "Next"; a_href := Some (lit "/movies?start=10") |}.

(** A page for Paris, today, with the given fragments. *)
Definition paris (ts : list Theater) (ms : list Movie) (next : bool) : Page :=
  {| p_theaters := ts;
     p_movies := ms;
     p_results := lit "No showtimes were found.";
     p_title_bar := lit "Showtimes for Paris";
     p_breadcrumb := rsaquo :: lit " Today";
     p_left_nav_links := [];
     p_navbar_links := if next then [next_link] else [] |}.

(** A theater of a theater-first page, with a link that carries its id. *)
Definition listed_theater (name : string) (ms : list Movie) : Theater :=
  {| t_name_links := [];
     t_desc_name_links :=
       [{| a_text := lit name; a_href := Some (lit "/movies?near=paris&tid=ABC123") |}];
     t_desc_info := lit "1 Main St - (555) 010-0000";
     t_name := lit name;
     t_address := [];
     t_desc_name := lit name;
     t_times := {| fl_links := []; times_text := [] |};
     t_movies := ms |}.

(** A movie of a movie-first page, with its info element and what its
    description holds. *)
Definition featured (name : string) (info : list Inline) (blocks : list Block) : Movie :=
  {| m_name := lit name;
     m_itemprop_name := lit name;
     m_name_links := [];
     m_header_links := [{| a_text := lit name; a_href := Some (lit "/movies?mid=M1") |}];
     m_infos := [info];
     m_description := blocks;
     m_times := {| fl_links := []; times_text := [] |};
     m_theaters := [];
     m_show_more := 0 |}.

(** The same, with a description span followed by the synopsis panel. *)
Definition featured_movie (name : string) (info : list Inline) (synopsis : list Node)
  : Movie :=
  featured name info [BText (lit "A house flies"); BPanel false synopsis].

Definition paris_api : Instance := new_Showtimes (lit "Paris") no_options.


(** A library whose every fetch answers [body] and whose documents show
    the markup they were loaded from in their title bar. *)
Definition echo_page (markup : jsstring) : Page :=
  {| p_theaters := [listed_theater "Rex" []];
     p_movies := [featured_movie "Up" [IText (lit "1 hr 45 min")] []];
     p_results := [];
     p_title_bar := lit "Showtimes for " ++ markup;
     p_breadcrumb := rsaquo :: lit " Today";
     p_left_nav_links := [];
     p_navbar_links := [] |}.

Definition echo (body : jsstring) : Library :=
  {| url_parse_query := fun u => Ok (after_question u);
     qs_parse_string := lookup_param;
     cheerio_load := echo_page;
     request := fun _ => Replied 200 body |}.

(** "Aydın" in ISO-8859-9, read as a binary string, and decoded. *)
Definition aydin_bytes : jsstring := lit "Ayd" ++ [253%N] ++ lit "n".
Definition aydin : jsstring := lit "Ayd" ++ [305%N] ++ lit "n".

Definition turkish_api : Instance :=
  new_Showtimes (lit "Aydin")
    {| opt_date := None; opt_lang := Some (lit "tr"); opt_pageLimit := None |}.

(** The location of a result delivered as [cb(null, result)]. *)
Definition delivered_location (e : Event) : option jsstring :=
  match e with
  | Callback ANull (Some r) => Some (r_location r)
  | _ => None
  end.

(** The start offset of [_request]: [(this.page - 1) * 10]. *)
Definition start_of (api : Instance) : option Z :=
  match page api with
  | Some p => Some ((p - 1) * 10)%Z
  | None => None
  end.

(** Two pages of theaters, the first with a "Next" link. *)
Definition two_pages : list Page :=
  [paris [listed_theater "Rex" []] [] true;
   paris [listed_theater "Lux" []] [] false].

(** A page whose only movie has no name. *)
Definition nameless_page : Page :=
  paris [] [featured_movie "" [IText (lit "1 hr 45 min")] []] false.

Definition set_property_of_false : exn :=
  TypeError "Cannot create property 'theaters' on boolean 'false'".

(** The query of the fetch of page [p]. *)
Definition page_query (api : Instance) (params : Params) (p : Z) : Query :=
  build_query (set_page api (Some p)) params.

(** The markup that [getTheaters] and [getMovies] load for a body. *)
Definition decoded (api : Instance) (body : jsstring) : jsstring :=
  if str_eqb (lang api) (lit "tr") then iconv_decode_latin5 body else body.

(** The callback was called the way results are delivered: [cb(null, ...)]. *)
Definition called_as_success (e : Event) : Prop :=
  exists second, e = Callback ANull second.

(** A page without any theater or movie. *)
Definition empty_page : Page := paris [] [] false.

(** What a fetch that failed hands to the callback: the error itself,
    or the unknown-error string for a status other than 200 without an
    error; [None] for a fetch that succeeded. *)
Definition fetch_failure (r : Response) : option Arg1 :=
  match r with
  | NetworkError error => Some (AError error)
  | Replied statusCode _ =>
      if (statusCode =? 200)%Z then None else Some (AString unknown_error)
  end.

(** A network that refuses every connection. *)
Definition refused : Error := MkError (lit "connect ECONNREFUSED").

Definition offline : Library :=
  {| url_parse_query := fun u => Ok (after_question u);
     qs_parse_string := lookup_param;
     cheerio_load := fun _ => blank_page;
     request := fun _ => NetworkError refused |}.

(** *** Pagination *)

(** The page shows a "Next" link. *)
Definition shows_next (pg : Page) : bool :=
  negb (length (next_links pg) =? 0)%nat.

(** The fetch of page [p] succeeds and its body loads as [pg]. *)
Definition serves (lib : Library) (api : Instance) (params : Params) (p : Z) (pg : Page)
  : Prop :=
  exists body,
    request lib (page_query api params p) = Replied 200 body /\
    cheerio_load lib (decoded api body) = pg.

(** [pages] are the pages 1, 2, ... of the site. *)
Definition served_in_order (lib : Library) (api : Instance) (params : Params)
    (pages : list Page) : Prop :=
  forall i pg, nth_error pages i = Some pg -> serves lib api params (Z.of_nat i + 1) pg.


(** A page of theaters that the handler of [getTheaters] reads to its
    end: some theater, a title and a breadcrumb of the expected form, and
    no fragment on which the extraction throws. *)
Definition theater_page (lib : Library) (pg : Page) : Prop :=
  p_theaters pg <> [] /\
  (exists header, page_header pg = Ok header) /\
  exists l, map_outcome (fun t => _parseTheater lib pg t false None) (p_theaters pg) = Ok l.



(** The records a page contributes: its fragments with a name. *)
Definition named_theaters (pg : Page) : nat :=
  length (filter (fun t => negb (is_empty (t_desc_name t))) (p_theaters pg)).



(** The page numbers 1, ..., k. *)
Definition page_numbers (k : nat) : list Z := map (fun i => Z.of_nat i + 1)%Z (seq 0 k).





Definition limited_api (limit : Z) : Instance :=
  new_Showtimes (lit "Paris")
    {| opt_date := None; opt_lang := None; opt_pageLimit := Some limit |}.

(** *** Extracting twice *)


Definition is_br (i : Inline) : bool :=
  match i with IBr => true | _ => false end.

(** The [br] elements of an [.info] element that its HTML shows as
    [<br>]. *)
Definition line_breaks (el : list Inline) : nat := length (filter is_br el).

(** No comment of the element holds the characters [<br>]. *)
Definition comments_clean (el : list Inline) : bool :=
  forallb (fun i => match i with
                    | IComment data => negb (includes (lit "<br>") data)
                    | _ => true
                    end) el.












(** *** Notions for the further properties *)

(** [tokens.join(sep)] *)
Fixpoint join (sep : jsstring) (tokens : list jsstring) : jsstring :=
  match tokens with
  | [] => []
  | [token] => token
  | token :: rest => token ++ sep ++ join sep rest
  end.

(** A string, a value, made of units of [\x00-\x7F] only. *)
Definition ascii_string (s : jsstring) : Prop := Forall (fun c => is_ascii c = true) s.

Definition ascii_value (v : jsval) : Prop :=
  match v with
  | JStr s => ascii_string s
  | JArr l => Forall ascii_string l
  | _ => True
  end.

(** The time states "am" or "pm". *)
Definition states_meridiem (time : jsstring) : bool :=
  match match_meridiem time with
  | Some _ => true
  | None => false
  end.

(** [o[k]], [None] for undefined. *)
Definition obj_get (k : jsstring) (o : object) : option jsval :=
  option_map snd (find (fun kv => str_eqb k (fst kv)) o).

(** No line terminator in the string. *)
Definition one_line (s : jsstring) : Prop := existsb is_line_terminator s = false.

(** A movie of a theater-first page whose info line and times carry
    left-to-right marks (U+200E). *)
Definition marked_movie : Movie :=
  {| m_name := lit "Up";
     m_itemprop_name := [];
     m_name_links := [{| a_text := lit "Up"; a_href := Some (lit "/movies?mid=1") |}];
     m_header_links := [];
     m_infos := [[IText ([8206%N] ++ lit "1 hr 45 min" ++ [8206%N] ++ lit " - Drama")]];
     m_description := [];
     m_times := {| fl_links := []; times_text := lit "7:00pm" ++ [8206%N] |};
     m_theaters := [];
     m_show_more := 0 |}.

(** [o[k] = v] for each pair, in order. *)
Definition set_all (pairs : list (jsstring * jsval)) (o : object) : object :=
  fold_left (fun o p => obj_set (fst p) (snd p) o) pairs o.

(** Two ticket links that come out as the same time. *)
Definition twice_sold : Times :=
  {| fl_links := [{| a_text := lit "7:00"; a_href := Some (lit "/url?q=first") |};
                  {| a_text := lit "7:00pm"; a_href := Some (lit "/url?q=second") |}];
     times_text := lit "7:00 7:00pm" |}.

(** A ticket link whose text is "__proto__". *)
Definition proto_sold : Times :=
  {| fl_links := [{| a_text := lit "__proto__"; a_href := Some (lit "/url?q=first") |}];
     times_text := lit "__proto__" |}.

(** A library whose [url.parse] refuses every string that holds "[". *)
Definition strict_library : Library :=
  {| url_parse_query := fun u => if includes (lit "[") u
                                 then Throw (TypeError "Invalid URL")
                                 else Ok (after_question u);
     qs_parse_string := lookup_param;
     cheerio_load := fun _ => blank_page;
     request := fun _ => Replied 200 [] |}.


Definition theater_link (doc : Page) (theater : Theater) (alternate : bool)
  : option jsstring :=
  match attr_href (if alternate then t_name_links theater
                   else t_desc_name_links theater) with
  | Some u => Some u
  | None => attr_href (p_left_nav_links doc)
  end.


(** A theater of a theater-first page whose link is "http://[". *)
Definition barred_theater : Theater :=
  {| t_name_links := [];
     t_desc_name_links := [{| a_text := lit "Rex"; a_href := Some (lit "http://[") |}];
     t_desc_info := lit "1 Main St";
     t_name := lit "Rex";
     t_address := [];
     t_desc_name := lit "Rex";
     t_times := {| fl_links := []; times_text := [] |};
     t_movies := [] |}.



(** A theater of a theater-first page whose info line has no phone
    number. *)
Definition corner_theater : Theater :=
  {| t_name_links := [];
     t_desc_name_links := [];
     t_desc_info := lit " 1 Main St ";
     t_name := lit "Corner";
     t_address := [];
     t_desc_name := lit "Corner";
     t_times := {| fl_links := []; times_text := [] |};
     t_movies := [] |}.

(** A site whose every fetch answers the same page, which shows "Next". *)
Definition endless : Library :=
  {| url_parse_query := fun u => Ok (after_question u);
     qs_parse_string := lookup_param;
     cheerio_load := fun _ => paris [listed_theater "Rex" []] [] true;
     request := fun _ => Replied 200 [] |}.

(** A step of a listing, with another accumulator on the instance. *)
Definition carry_movies (ms : list MovieData) (s : Step) : Step :=
  match s with
  | Done e api => Done e (set_movies api ms)
  | Again api => Again (set_movies api ms)
  end.

Definition carry_theaters (ts : list TheaterData) (s : Step) : Step :=
  match s with
  | Done e api => Done e (set_theaters api ts)
  | Again api => Again (set_theaters api ts)
  end.


(** A site that serves its pages and answers 500 after the last. *)
Definition closing (pages : list Page) : Library :=
  {| url_parse_query := fun u => Ok (after_question u);
     qs_parse_string := lookup_param;
     cheerio_load := cheerio_load (site pages);
     request := fun q =>
                  match q_start q with
                  | Some start =>
                      if (Z.to_nat (start / 10) <? length pages)%nat
                      then Replied 200 [Z.to_N (start / 10)]
                      else Replied 500 []
                  | None => Replied 200 [0%N]
                  end |}.

Definition first_page : Page := paris [listed_theater "Rex" []] [] true.

(** *** What a listing delivers *)

(** An entry of the list of [getTheaters]: a theater of the theater-first
    layout that has a name, and whose movies all have one. *)
Definition theater_entry (t : TheaterData) : Prop :=
  match t with
  | FullTheater f => th_name f <> [] /\ Forall (fun m => mv_name m <> []) (th_movies f)
  | AltTheater _ => False
  end.

(** An entry of the list of [getMovies]: a movie that has a name, whose
    own showtimes are deleted and which carries a list of theaters. *)
Definition movie_entry (m : MovieData) : Prop :=
  mv_name m <> [] /\
  mv_showtimes m = None /\
  mv_showtime_tickets m = None /\
  exists ts, mv_theaters m = Some ts.

(** [cb(null, result)] with a list of entries, or anything that is not
    [cb(null, ...)]. *)
Definition delivers_theaters (e : Event) : Prop :=
  match e with
  | Callback ANull second =>
      exists r l, second = Some r /\ r_data r = DTheaters l /\ Forall theater_entry l
  | _ => True
  end.

Definition delivers_movies (e : Event) : Prop :=
  match e with
  | Callback ANull second =>
      exists r l, second = Some r /\ r_data r = DMovies l /\ Forall movie_entry l
  | _ => True
  end.
(* ================================================================== *)
(** ** Strings: facts used by several properties *)
(* ================================================================== *)

Lemma split_go_not_nil (sep : jsstring) (s : jsstring) :
  forall skip cur, split_go sep skip cur s <> [].
Proof.
  induction s as [|c s IH]; intros skip cur; simpl.
  - discriminate.
  - destruct skip as [|k]; [|apply IH].
    destruct (starts_with sep (c :: s)); [discriminate | apply IH].
Qed.

Lemma split_not_nil (sep s : jsstring) : split sep s <> [].
Proof. apply split_go_not_nil. Qed.


Lemma remove_first_prefix (p s : jsstring) :
  starts_with p s = true -> remove_first p s = skipn (length p) s.
Proof.
  destruct s as [|c s]; simpl.
  - destruct p; [reflexivity | discriminate].
  - intros H. change (match p with [] => true | a :: p' => (a =? c)%N && starts_with p' s end)
      with (starts_with p (c :: s)). now rewrite H.
Qed.

Lemma starts_with_app (p s : jsstring) :
  starts_with p s = true -> s = p ++ skipn (length p) s.
Proof.
  revert s. induction p as [|a p IH]; intros s H; simpl in *; [reflexivity|].
  destruct s as [|b s]; [discriminate|].
  apply andb_true_iff in H as [Hab Hp]. apply N.eqb_eq in Hab. subst b.
  simpl. f_equal. now apply IH.
Qed.

Lemma starts_with_prefix_app (p q s : jsstring) :
  starts_with (p ++ q) s = true -> starts_with p s = true.
Proof.
  revert s. induction p as [|a p IH]; intros s H; simpl in *; [reflexivity|].
  destruct s as [|b s]; [discriminate|].
  apply andb_true_iff in H as [Hab Hp]. rewrite Hab; simpl. now apply IH.
Qed.

Lemma includes_prefix (p s : jsstring) :
  starts_with p s = true -> includes p s = true.
Proof.
  destruct s as [|c s]; simpl; intros H.
  - destruct p; [reflexivity | discriminate].
  - change (match p with [] => true | a :: p' => (a =? c)%N && starts_with p' s end)
      with (starts_with p (c :: s)). now rewrite H.
Qed.

Lemma genre_of_text (s : jsstring) :
  genre_of (JStr s) = JStr (_removeNonAsciiCharacters s).
Proof. destruct s; reflexivity. Qed.

(* ================================================================== *)
(** ** Showtimes: the meridiem of a time is inferred from later times *)
(* ================================================================== *)
Section Meridiem.

Variable lib : Library.

(** The leftmost match of [/(am|pm)/] is the one of "am" and "pm" that
    occurs first. *)
Lemma match_meridiem_stated (time : jsstring) : match_meridiem time = stated time.
Proof.
  unfold stated. induction time as [|c time IH]; [reflexivity|].
  cbn [match_meridiem index_of].
  destruct (starts_with (lit "am") (c :: time)) eqn:Ham.
  - destruct (starts_with (lit "pm") (c :: time)) eqn:Hpm.
    + change (lit "am") with (97%N :: lit "m") in Ham.
      change (lit "pm") with (112%N :: lit "m") in Hpm.
      cbn [starts_with] in Ham, Hpm.
      apply andb_true_iff in Ham as [Ham _]. apply andb_true_iff in Hpm as [Hpm _].
      apply N.eqb_eq in Ham, Hpm. congruence.
    + now destruct (index_of (lit "pm") time).
  - destruct (starts_with (lit "pm") (c :: time)) eqn:Hpm.
    + now destruct (index_of (lit "am") time).
    + rewrite IH.
      destruct (index_of (lit "am") time), (index_of (lit "pm") time); reflexivity.
Qed.

Lemma getTime_stated (m : option jsstring) (raw_time : jsstring) :
  getTime m raw_time
  = match stated (cleaned raw_time) with
    | Some m' => (cleaned raw_time, Some m')
    | None =>
        match m with
        | Some m' => (cleaned raw_time ++ m', m)
        | None => (cleaned raw_time, m)
        end
    end.
Proof.
  unfold getTime.
  change (trim (_removeNonAsciiCharacters raw_time)) with (cleaned raw_time).
  now rewrite match_meridiem_stated.
Qed.

Lemma map_getTime_app (a b : list jsstring) :
  forall m, map_getTime m (a ++ b) = map_getTime m a ++ map_getTime (carried m a) b.
Proof.
  induction a as [|x a IH]; intros m; simpl; [reflexivity|].
  unfold carried in *; simpl.
  destruct (getTime m x) as [t m'] eqn:E; simpl.
  now rewrite IH.
Qed.

Lemma carried_rev (tokens : list jsstring) :
  carried None (rev tokens) = nearest_meridiem tokens.
Proof.
  induction tokens as [|t r IH]; simpl; [reflexivity|].
  unfold carried in *. rewrite fold_left_app; simpl. rewrite IH.
  rewrite getTime_stated.
  destruct (stated (cleaned t)); simpl; [reflexivity|].
  destruct (nearest_meridiem r); reflexivity.
Qed.

Lemma map_getTime_rev (tokens : list jsstring) :
  rev (map_getTime None (rev tokens)) = back_inference tokens.
Proof.
  induction tokens as [|t r IH]; simpl; [reflexivity|].
  rewrite map_getTime_app, rev_app_distr, IH, carried_rev. simpl.
  f_equal. unfold resolved. rewrite getTime_stated.
  destruct (stated (cleaned t)); simpl;
    [|destruct (nearest_meridiem r)]; reflexivity.
Qed.

Lemma map_getTime_tickets_fst (items : list (jsstring * jsval)) :
  forall m o, fst (map_getTime_tickets m o items) = map_getTime m (map fst items).
Proof.
  induction items as [|[time url] items IH]; intros m o; simpl; [reflexivity|].
  destruct (getTime m time) as [t m'].
  specialize (IH m' (obj_set t url o)).
  destruct (map_getTime_tickets m' (obj_set t url o) items); simpl in *.
  now rewrite IH.
Qed.

Lemma ticket_items_texts (target : list Anchor) :
  forall items, map_outcome (ticket_item lib) target = Ok items ->
                map fst items = map a_text target.
Proof.
  induction target as [|el target IH]; intros items H; simpl in H.
  - now inversion H.
  - unfold ticket_item at 1 in H.
    destruct (url_parse_arg lib (a_href el)); simpl in H; [|discriminate].
    destruct (map_outcome (ticket_item lib) target) as [rest|]; simpl in H; [|discriminate].
    inversion H; subst; simpl. f_equal. now apply IH.
Qed.

Lemma ticket_items_total (target : list Anchor) :
  Forall (fun el => accepts lib (a_href el)) target ->
  exists items, map_outcome (ticket_item lib) target = Ok items.
Proof.
  induction 1 as [|el target Hel _ [items IH]]; simpl.
  - now exists [].
  - unfold ticket_item at 1, url_parse_arg, url_query.
    destruct (a_href el) as [h|]; [|contradiction].
    destruct Hel as [query Hquery]. rewrite Hquery. simpl.
    rewrite IH; simpl. eauto.
Qed.

Lemma _parseShowtimes_back_inference (thing : Times) (response : ShowtimesResponse) :
  _parseShowtimes lib thing = Ok response ->
  showtimes response = back_inference (time_tokens thing).
Proof.
  unfold _parseShowtimes, time_tokens.
  destruct (fl_links thing) as [|el target] eqn:E.
  - intros H; inversion H; simpl. apply map_getTime_rev.
  - destruct (map_outcome (ticket_item lib) (el :: target)) as [items|] eqn:Hi;
      simpl; [|discriminate].
    pose proof (map_getTime_tickets_fst (rev items) None []) as Hf.
    destruct (map_getTime_tickets None [] (rev items)) as [times tickets].
    intros H; inversion H; simpl in *. rewrite Hf.
    rewrite map_rev, (ticket_items_texts (el :: target) Hi). apply map_getTime_rev.
Qed.

Lemma back_inference_length (tokens : list jsstring) :
  length (back_inference tokens) = length tokens.
Proof. induction tokens; simpl; congruence. Qed.

Lemma back_inference_nth (tokens : list jsstring) :
  forall i token, nth_error tokens i = Some token ->
  nth_error (back_inference tokens) i = Some (resolved token (skipn (S i) tokens)).
Proof.
  induction tokens as [|t r IH]; intros [|i] token H; simpl in *; try discriminate.
  - now inversion H.
  - now apply IH.
Qed.

Lemma nearest_meridiem_found (later : list jsstring) :
  forall j u m,
    nth_error later j = Some u ->
    stated (cleaned u) = Some m ->
    (forall k v, (k < j)%nat -> nth_error later k = Some v ->
                 stated (cleaned v) = None) ->
    nearest_meridiem later = Some m.
Proof.
  induction later as [|t r IH]; intros [|j] u m Hu Hm Hbefore; simpl in *;
    try discriminate.
  - inversion Hu; subst. now rewrite Hm.
  - rewrite (Hbefore 0%nat t) by (simpl; auto; lia).
    apply (IH j u m Hu Hm). intros k v Hk Hv.
    apply (Hbefore (S k) v); [lia | exact Hv].
Qed.

Lemma nearest_meridiem_absent (later : list jsstring) :
  (forall j u, nth_error later j = Some u -> stated (cleaned u) = None) ->
  nearest_meridiem later = None.
Proof.
  induction later as [|t r IH]; intros H; simpl; [reflexivity|].
  rewrite (H 0%nat t eq_refl). apply IH. intros j u Hu. exact (H (S j) u Hu).
Qed.

End Meridiem.


(** C1. [_parseShowtimes] returns as many times as it read tokens, in the
    order of the tokens, each stripped of its units above U+007F and then
    trimmed.  A token that states "am" or "pm" is returned as it is; a
    token that states none gets the meridiem of the nearest later token
    that states one; when no later token states one, nothing is appended.
    "States" is read on the stripped and trimmed token, and the meridiem
    a token states is the one of "am" and "pm" that occurs first in it.
    The call returns whenever [url.parse] accepts the [href] of every
    ticket link, in particular when there is no ticket link.  The times
    10:00 11:20am 1:00 2:20 6:50pm come out as
    10:00am 11:20am 1:00pm 2:20pm 6:50pm. *)
Theorem C1_meridiem_back_inference :
  forall (lib : Library) (thing : Times),
    (Forall (fun el => accepts lib (a_href el)) (fl_links thing) ->
     exists response, _parseShowtimes lib thing = Ok response) /\
    (forall response,
        _parseShowtimes lib thing = Ok response ->
        let tokens := time_tokens thing in
        let out := showtimes response in
        length out = length tokens /\
        forall i token,
          nth_error tokens i = Some token ->
          (stated (cleaned token) <> None ->
           nth_error out i = Some (cleaned token)) /\
          (stated (cleaned token) = None ->
           (forall j u m,
               (i < j)%nat ->
               nth_error tokens j = Some u ->
               stated (cleaned u) = Some m ->
               (forall k v, (i < k < j)%nat -> nth_error tokens k = Some v ->
                            stated (cleaned v) = None) ->
               nth_error out i = Some (cleaned token ++ m)) /\
           ((forall j u, (i < j)%nat -> nth_error tokens j = Some u ->
                         stated (cleaned u) = None) ->
            nth_error out i = Some (cleaned token)))) /\
    rev (map_getTime None
           (rev (map lit ["10:00"; "11:20am"; "1:00"; "2:20"; "6:50pm"]%string)))
    = map lit ["10:00am"; "11:20am"; "1:00pm"; "2:20pm"; "6:50pm"]%string /\
    _parseShowtimes lib
      {| fl_links := []; times_text := lit "10:00 11:20am 1:00 2:20 6:50pm" |}
    = Ok {| showtimes :=
              map lit ["10:00am"; "11:20am"; "1:00pm"; "2:20pm"; "6:50pm"]%string;
            showtime_tickets := None |}.
Proof.
  intros lib thing. split; [|split; [|split; reflexivity]].
  - intros Hhref. unfold _parseShowtimes.
    destruct (fl_links thing) as [|el target] eqn:E; [eauto|].
    destruct (ticket_items_total lib Hhref) as [items Hi]. rewrite Hi; simpl.
    destruct (map_getTime_tickets None [] (rev items)); eauto.
  - intros response H tokens out. subst tokens out.
    rewrite (_parseShowtimes_back_inference lib thing H).
    split; [apply back_inference_length|].
    intros i token Hi. rewrite (back_inference_nth _ _ Hi). unfold resolved.
    split.
    + intros Hm. destruct (stated (cleaned token)); [reflexivity|congruence].
    + intros Hm. rewrite Hm. split.
      * intros j u m Hij Hu Hum Hbetween.
        assert (Hn : nearest_meridiem (skipn (S i) (time_tokens thing)) = Some m).
        { apply (@nearest_meridiem_found _ (j - S i)%nat u m).
          - rewrite nth_error_skipn. replace (S i + (j - S i))%nat with j by lia. exact Hu.
          - exact Hum.
          - intros k v Hk Hv. rewrite nth_error_skipn in Hv.
            apply (Hbetween (S i + k)%nat v); [lia | exact Hv]. }
        now rewrite Hn.
      * intros Hnone.
        assert (Hn : nearest_meridiem (skipn (S i) (time_tokens thing)) = None).
        { apply nearest_meridiem_absent. intros j u Hu. rewrite nth_error_skipn in Hu.
          apply (Hnone (S i + j)%nat u); [lia | exact Hu]. }
        now rewrite Hn.
Qed.

(** On the times "10:00 11:20am 9:00": the first gets "am" from the
    second, the last has no later time to take a meridiem from.  On two
    ticket links with an [href]: the call returns. *)
Lemma C1_witness :
  (exists response,
      _parseShowtimes blank_library
        {| fl_links := []; times_text := lit "10:00 11:20am 9:00" |} = Ok response /\
      nth_error (showtimes response) 0 = Some (lit "10:00am") /\
      nth_error (showtimes response) 2 = Some (lit "9:00")) /\
  exists response, _parseShowtimes (site []) twice_sold = Ok response.
Proof.
  split.
  - pose (thing := {| fl_links := []; times_text := lit "10:00 11:20am 9:00" |}).
    destruct (C1_meridiem_back_inference blank_library thing) as [Hreturns [Hinfer _]].
    destruct (Hreturns (Forall_nil _)) as [response Hresponse].
    exists response. split; [exact Hresponse|].
    destruct (Hinfer response Hresponse) as [_ Hat].
    split.
    + destruct (Hat 0%nat (lit "10:00") eq_refl) as [_ Hbare].
      destruct (Hbare eq_refl) as [Hlater _].
      apply (Hlater 1%nat (lit "11:20am") (lit "am")); try reflexivity; lia.
    + destruct (Hat 2%nat (lit "9:00") eq_refl) as [_ Hbare].
      destruct (Hbare eq_refl) as [_ Hlast].
      apply Hlast. intros [|[|[|j]]] u Hj Hu; try lia; simpl in Hu; try discriminate.
      destruct j; discriminate.
  - destruct (C1_meridiem_back_inference (site []) twice_sold) as [Hreturns _].
    apply Hreturns. repeat constructor; eexists; reflexivity.
Defined.
(* ================================================================== *)
(** ** Movies: runtime, rating and genre out of the info line *)
(* ================================================================== *)

(** The three fields in terms of the tokens, case by case. *)
Lemma parse_info_no_runtime (info : list jsstring) :
  has_duration (nth 0 info []) = false ->
  parse_info info =
  (JFalse, JFalse, JStr (_removeNonAsciiCharacters (trim (nth 0 info [])))).
Proof.
  unfold parse_info, has_duration. intros H. rewrite H. now rewrite genre_of_text.
Qed.

Lemma parse_info_rated (info : list jsstring) :
  has_duration (nth 0 info []) = true ->
  includes (lit "Rated") (nth 1 info []) = true ->
  parse_info info =
  (JStr (_removeNonAsciiCharacters (trim (nth 0 info []))),
   JStr (_removeNonAsciiCharacters (trim (remove_first (lit "Rated") (nth 1 info [])))),
   genre_candidate (nth_error info 2)).
Proof.
  unfold parse_info, has_duration, genre_candidate. intros H0 H1. rewrite H0, H1.
  destruct (nth_error info 2) as [info2|]; [|reflexivity].
  destruct (is_link_label info2); reflexivity.
Qed.

Lemma parse_info_unrated (info : list jsstring) :
  has_duration (nth 0 info []) = true ->
  includes (lit "Rated") (nth 1 info []) = false ->
  parse_info info =
  (JStr (_removeNonAsciiCharacters (trim (nth 0 info []))),
   JFalse,
   genre_candidate (Some (nth 1 info []))).
Proof.
  unfold parse_info, has_duration, genre_candidate. intros H0 H1. rewrite H0, H1.
  destruct (is_link_label (nth 1 info [])); reflexivity.
Qed.

Ltac case_pairs :=
  repeat match goal with
         | H : (_, _) = (_, _) |- _ => inversion H; clear H; subst
         | H : Ok _ = Ok _ |- _ => inversion H; clear H; subst
         | H : Some _ = Some _ |- _ => inversion H; clear H; subst
         | H : Throw _ = Ok _ |- _ => discriminate H
         | H : Ok None = Ok (Some _) |- _ => discriminate H
         end.

(** The record of [_parseMovie] carries what [parse_info] finds in the
    tokens of the info line. *)
Lemma _parseMovie_metadata (lib : Library) (doc : Page) (movie movie' : Movie)
    (alternate : bool) (movieId : option jsstring) (movieData : MovieData) :
  _parseMovie lib doc movie alternate movieId = (Ok (Some movieData), movie') ->
  (mv_runtime movieData, mv_rating movieData, mv_genre movieData)
  = parse_info (info_tokens movie alternate).
Proof.
  unfold _parseMovie, info_tokens.
  destruct (is_empty (if alternate then m_itemprop_name movie else m_name movie));
    [intros H; case_pairs|].
  match goal with |- context [match ?r with Ok _ => _ | Throw _ => _ end] =>
    destruct r as [id|]; [|intros H; case_pairs] end.
  destruct alternate; unfold read_info.
  - destruct (rev (m_infos movie)) eqn:E; [intros H; case_pairs|].
    cbn [m_infos set_infos andb].
    destruct (parse_info _) as [[runtime rating] genre].
    destruct (truthy id); [destruct (read_detail _ _)|];
      (destruct (_parseImdb lib _); [|intros H; case_pairs]);
      (destruct (_parseTrailer lib _); [|intros H; case_pairs]);
      intros H; case_pairs; reflexivity.
  - cbn [andb]. destruct (parse_info _) as [[runtime rating] genre].
    destruct (_parseShowtimes lib (m_times movie)); [|intros H; case_pairs].
    destruct (_parseImdb lib _); [|intros H; case_pairs].
    destruct (_parseTrailer lib _); [|intros H; case_pairs].
    intros H; case_pairs; reflexivity.
Qed.

Lemma trim_after_rated (token : jsstring) :
  starts_with (lit "Rated ") token = true ->
  trim (remove_first (lit "Rated") token) = trim (skipn 6 token).
Proof.
  intros H. apply starts_with_app in H. rewrite H. reflexivity.
Qed.


(** C2, as stated, fails on "1 hr 45 min - Not Rated - Drama": token 1
    does not carry the prefix "Rated ", yet the rating is "Not" and the
    genre comes from token 2. *)
Lemma C2_counterexample :
  starts_with (lit "Rated ") (nth 1 not_rated_info []) = false /\
  parse_info not_rated_info
  = (JStr (lit "1 hr 45 min"), JStr (lit "Not"), JArr [lit "Drama"]) /\
  claimed_parse_info not_rated_info
  = (JStr (lit "1 hr 45 min"), JFalse, JArr [lit "Not Rated"]) /\
  parse_info not_rated_info <> claimed_parse_info not_rated_info.
Proof.
  repeat split; try reflexivity. vm_compute. discriminate.
Qed.

(** C2, amended.  For every info line split on " - ": when token 0 has no
    duration ("hr " or "min"), runtime and rating are false and the genre
    is token 0 as one string; when it has one, it is the runtime, and
    token 1 is the rating as soon as it contains "Rated" anywhere (the
    first "Rated" is removed; for a token that starts with "Rated " this
    strips the prefix), the genre candidate then being token 2, and false
    when there is no token 2; a token 1 without "Rated" leaves the rating
    false and is the genre candidate itself (the empty string when it is
    missing).  A candidate that matches IMDB or Trailer, whatever the
    case of the letters, gives the genre false, another one is trimmed
    and split on "/".  Every string kept is trimmed and stripped of
    non-ASCII characters.  The three fixtures hold, and the record of
    [_parseMovie] carries these three values. *)
Theorem C2_info_classification :
  forall line : jsstring,
    let info := split (lit " - ") line in
    let token0 := nth 0 info [] in
    let token1 := nth 1 info [] in
    let runtime := JStr (ascii_only (trim token0)) in
    (has_duration token0 = false ->
     parse_info info = (JFalse, JFalse, JStr (ascii_only (trim token0)))) /\
    (has_duration token0 = true -> includes (lit "Rated") token1 = true ->
     parse_info info
     = (runtime,
        JStr (ascii_only (trim (remove_first (lit "Rated") token1))),
        genre_candidate (nth_error info 2))) /\
    (has_duration token0 = true -> starts_with (lit "Rated ") token1 = true ->
     parse_info info
     = (runtime,
        JStr (ascii_only (trim (skipn 6 token1))),
        genre_candidate (nth_error info 2))) /\
    (has_duration token0 = true -> includes (lit "Rated") token1 = false ->
     parse_info info = (runtime, JFalse, genre_candidate (Some token1))) /\
    parse_info (split (lit " - ") (lit "1 hr 45 min - Rated PG-13 - Action/Adventure"))
    = (JStr (lit "1 hr 45 min"), JStr (lit "PG-13"),
       JArr [lit "Action"; lit "Adventure"]) /\
    parse_info (split (lit " - ") (lit "1 hr 45 min - Trailer"))
    = (JStr (lit "1 hr 45 min"), JFalse, JFalse) /\
    parse_info (split (lit " - ") (lit "Documentary"))
    = (JFalse, JFalse, JStr (lit "Documentary")) /\
    (forall lib doc movie movie' alternate movieId movieData,
        _parseMovie lib doc movie alternate movieId = (Ok (Some movieData), movie') ->
        (mv_runtime movieData, mv_rating movieData, mv_genre movieData)
        = parse_info (info_tokens movie alternate)).
Proof.
  intros line info token0 token1 runtime.
  split; [apply parse_info_no_runtime|].
  split; [apply parse_info_rated|].
  split.
  { intros H0 H1. subst runtime token0 token1.
    rewrite <- (trim_after_rated _ H1). apply parse_info_rated; [exact H0|].
    apply includes_prefix.
    exact (starts_with_prefix_app (lit "Rated") (lit " ") _ H1). }
  split; [apply parse_info_unrated|].
  repeat split; try reflexivity.
  intros. eapply _parseMovie_metadata; eassumption.
Qed.

(** On "1 hr 45 min - Not Rated - Drama" the rating is "Not". *)
Lemma C2_witness :
  parse_info (split (lit " - ") (lit "1 hr 45 min - Not Rated - Drama"))
  = (JStr (lit "1 hr 45 min"), JStr (lit "Not"), JArr [lit "Drama"]).
Proof.
  destruct (C2_info_classification (lit "1 hr 45 min - Not Rated - Drama"))
    as [_ [Hrated _]].
  exact (Hrated eq_refl eq_refl).
Defined.

(* ================================================================== *)
(** ** Movies: the shape of the genre *)
(* ================================================================== *)

(** C6, as stated, fails twice.  Without a runtime the genre is token 0
    as one string, not a list: "Documentary".  With a runtime the token
    is trimmed before it is split and its pieces are not trimmed again:
    "Action / Adventure" gives "Action " and " Adventure". *)
Lemma C6_counterexample :
  (exists movieData,
      fst (_parseMovie blank_library blank_page (listed_movie "Up" "Documentary")
             false None) = Ok (Some movieData) /\
      mv_genre movieData = JStr (lit "Documentary") /\
      ~ claimed_genre (mv_genre movieData)) /\
  (exists movieData,
      fst (_parseMovie blank_library blank_page
             (listed_movie "Up" "1 hr 45 min - Rated R - Action / Adventure")
             false None) = Ok (Some movieData) /\
      mv_genre movieData = JArr [lit "Action "; lit " Adventure"] /\
      ~ claimed_genre (mv_genre movieData)).
Proof.
  split; eexists; (split; [vm_compute; reflexivity|]); (split; [reflexivity|]);
    simpl; intros [H | [l [H [_ Hall]]]]; try discriminate.
  inversion H; subst. inversion Hall as [|? ? Hhead _]. vm_compute in Hhead.
  discriminate.
Qed.

(** C6, amended.  The genre of a movie record is false; or, when a
    runtime was found, the non-empty list of the pieces of the genre
    token (token 1 or token 2) split on "/", the token being trimmed as a
    whole before the split and each piece stripped of non-ASCII
    characters; or, when no runtime was found, token 0 trimmed and
    stripped of non-ASCII characters, as one string that is not split. *)
Theorem C6_genre_shape :
  forall lib doc movie movie' alternate movieId movieData,
    _parseMovie lib doc movie alternate movieId = (Ok (Some movieData), movie') ->
    let info := info_tokens movie alternate in
    mv_genre movieData = JFalse \/
    (mv_runtime movieData <> JFalse /\
     exists i l,
       (i = 1 \/ i = 2)%nat /\
       l = map ascii_only (split (lit "/") (trim (nth i info []))) /\
       l <> [] /\
       mv_genre movieData = JArr l) \/
    (mv_runtime movieData = JFalse /\
     mv_genre movieData = JStr (ascii_only (trim (nth 0 info [])))).
Proof.
  intros lib doc movie movie' alternate movieId movieData H info.
  apply _parseMovie_metadata in H. fold info in H.
  assert (Hr : mv_runtime movieData = fst (fst (parse_info info)))
    by now rewrite <- H.
  assert (Hg : mv_genre movieData = snd (parse_info info))
    by now rewrite <- H.
  clear H. rewrite Hr, Hg. clear Hr Hg.
  assert (Hpieces : forall token,
             map ascii_only (split (lit "/") (trim token)) <> []).
  { intros token E. apply map_eq_nil in E. exact (split_not_nil _ _ E). }
  destruct (has_duration (nth 0 info [])) eqn:H0.
  - destruct (includes (lit "Rated") (nth 1 info [])) eqn:H1.
    + rewrite (parse_info_rated info H0 H1). cbn [fst snd].
      unfold genre_candidate.
      destruct (nth_error info 2) as [info2|] eqn:E2; [|now left].
      destruct (is_link_label info2); [now left|].
      right; left. split; [discriminate|].
      exists 2%nat, (map ascii_only (split (lit "/") (trim info2))).
      repeat split; auto.
      now rewrite (nth_error_nth _ _ _ E2).
    + rewrite (parse_info_unrated info H0 H1). cbn [fst snd].
      unfold genre_candidate.
      destruct (is_link_label (nth 1 info [])); [now left|].
      right; left. split; [discriminate|].
      exists 1%nat, (map ascii_only (split (lit "/") (trim (nth 1 info [])))).
      repeat split; auto.
  - rewrite (parse_info_no_runtime info H0). cbn [fst snd].
    right; right. split; reflexivity.
Qed.

(** On the movie "Up" with the info line "1 hr 45 min - Rated R - Drama". *)
Lemma C6_witness :
  let movie := listed_movie "Up" "1 hr 45 min - Rated R - Drama" in
  match _parseMovie blank_library blank_page movie false None with
  | (Ok (Some movieData), _) =>
      mv_genre movieData = JFalse \/
      (mv_runtime movieData <> JFalse /\
       exists i l,
         (i = 1 \/ i = 2)%nat /\
         l = map ascii_only
               (split (lit "/") (trim (nth i (info_tokens movie false) []))) /\
         l <> [] /\
         mv_genre movieData = JArr l) \/
      (mv_runtime movieData = JFalse /\
       mv_genre movieData
       = JStr (ascii_only (trim (nth 0 (info_tokens movie false) []))))
  | _ => False
  end.
Proof.
  intros movie.
  destruct (_parseMovie blank_library blank_page movie false None)
    as [[[movieData|]|e] movie'] eqn:E.
  - exact (C6_genre_shape blank_library blank_page movie false None E).
  - vm_compute in E. discriminate E.
  - vm_compute in E. discriminate E.
Defined.

(* ================================================================== *)
(** ** Theaters: the id *)
(* ================================================================== *)

Lemma resolve_theater_id_lost (lib : Library) (doc : Page) (theater : Theater)
    (alternate : bool) :
  match resolve_theater_id lib doc theater alternate with
  | Ok id => id = JFalse
  | Throw e => exists u, url_parse_query lib u = Throw e
  end.
Proof.
  unfold resolve_theater_id.
  assert (H : forall u,
             match (if is_empty u then Ok JFalse
                    else bind (url_parse_query lib u)
                           (fun _ => Ok (match qs_parse lib (QsUrl u) (lit "tid") with
                                         | JUndefined => JFalse
                                         | tid => tid
                                         end))) with
             | Ok id => id = JFalse
             | Throw e => exists u, url_parse_query lib u = Throw e
             end).
  { intros u. destruct (is_empty u); [reflexivity|].
    destruct (url_parse_query lib u) as [query|e] eqn:E; cbn; [reflexivity|].
    now exists u. }
  destruct (if alternate then attr_href (t_name_links theater)
            else attr_href (t_desc_name_links theater)) as [u|]; [apply H|].
  destruct (attr_href (p_left_nav_links doc)) as [u|]; [apply H | reflexivity].
Qed.

(** C4.  The id of a theater is meant to be the "tid" parameter of its
    link.  [_parseTheater] hands [qs.parse] the Url object instead of its
    query string, and [qs.parse] answers a non-string with an empty
    object: without a given id, whenever an id is resolved it is false,
    for every fragment (the resolution throws only when [url.parse]
    throws on the link), also for the link
    "/movies?near=paris&tid=ABC123", whose query string does hold
    tid=ABC123. *)
Theorem C4_theater_id_is_lost :
  (forall lib doc theater alternate,
      match resolve_theater_id lib doc theater alternate with
      | Ok id => id = JFalse
      | Throw e => exists u, url_parse_query lib u = Throw e
      end) /\
  (forall lib doc theater,
      match _parseTheater lib doc theater false None with
      | Ok (FullTheater t) => th_id t = JFalse
      | Ok (AltTheater t) => False
      | Throw _ => True
      end) /\
  (forall lib doc theater,
      match _parseTheater lib doc theater true None with
      | Ok (AltTheater t) => ta_id t = JFalse
      | Ok (FullTheater t) => False
      | Throw _ => True
      end) /\
  resolve_theater_id (site []) blank_page (listed_theater "Rex" []) false = Ok JFalse /\
  _parseTheater (site []) blank_page (listed_theater "Rex" []) false None
  = Ok (FullTheater {| th_id := JFalse;
                       th_name := lit "Rex";
                       th_address := lit "1 Main St";
                       th_phoneNumber := lit "(555) 010-0000";
                       th_movies := [] |}) /\
  url_query (site []) (lit "/movies?near=paris&tid=ABC123")
  = Ok (QsString (lit "near=paris&tid=ABC123")) /\
  qs_parse (site []) (QsString (lit "near=paris&tid=ABC123")) (lit "tid")
  = JStr (lit "ABC123").
Proof.
  split; [exact resolve_theater_id_lost|].
  split; [|split; [|repeat split; reflexivity]].
  - intros lib doc theater. unfold _parseTheater, given_or.
    pose proof (resolve_theater_id_lost lib doc theater false) as Hid.
    destruct (resolve_theater_id lib doc theater false) as [id|]; cbn; [|exact I].
    destruct (each_movie lib doc (t_movies theater)); cbn; [exact Hid | exact I].
  - intros lib doc theater. unfold _parseTheater, _parseTheater_alternate, given_or.
    pose proof (resolve_theater_id_lost lib doc theater true) as Hid.
    destruct (resolve_theater_id lib doc theater true) as [id|]; cbn; [|exact I].
    destruct (_parseShowtimes lib (t_times theater)); cbn; [exact Hid | exact I].
Qed.
(* ================================================================== *)
(** ** The public methods: encoding, start offset, nameless movies *)
(* ================================================================== *)

(** C9.  With the language "tr", [getTheaters] and [getMovies] decode
    the body from ISO-8859-9 before they load it; [getTheater] and
    [getMovie] load the body as it came.  On a body that holds the bytes
    of "Aydın", the two listings deliver the location "Aydın" and the two
    single lookups deliver these bytes unchanged. *)
Theorem C9_turkish_body_not_decoded :
  delivered_location (ended (getTheaters (echo aydin_bytes) 0 turkish_api None None))
  = Some aydin /\
  delivered_location (ended (getMovies (echo aydin_bytes) 0 turkish_api None None))
  = Some aydin /\
  delivered_location (ended (getTheater (echo aydin_bytes) turkish_api (lit "ABC123")))
  = Some aydin_bytes /\
  delivered_location (ended (getMovie (echo aydin_bytes) turkish_api (lit "M1")))
  = Some aydin_bytes /\
  iconv_decode_latin5 aydin_bytes = aydin /\
  aydin_bytes <> aydin.
Proof.
  repeat split; try (vm_compute; reflexivity). vm_compute. discriminate.
Qed.

Lemma _request_query (lib : Library) (api : Instance) (params : Params) :
  fst (_request lib api params) = build_query api params.
Proof.
  unfold _request.
  destruct (request lib _) as [|code body]; [|destruct (code =? 200)%Z]; reflexivity.
Qed.

Lemma getTheater_fetches_once (lib : Library) (api : Instance) (theaterId : jsstring) :
  fetched (getTheater lib api theaterId) = [build_query api (P_tid theaterId)]
  /\ after (getTheater lib api theaterId) = api.
Proof.
  unfold getTheater. rewrite <- (_request_query lib).
  destruct (_request lib api (P_tid theaterId)) as [q [e|response]]; [now split|].
  destruct (page_header _) as [[loc day]|]; [|now split].
  destruct (_parseTheater _ _ _ _ _); now split.
Qed.

Lemma getMovie_fetches_once (lib : Library) (api : Instance) (movieId : jsstring) :
  fetched (getMovie lib api movieId) = [build_query api (P_mid movieId)]
  /\ after (getMovie lib api movieId) = api.
Proof.
  unfold getMovie. rewrite <- (_request_query lib).
  destruct (_request lib api (P_mid movieId)) as [q [e|response]]; [now split|].
  destruct (_parseMovie _ _ _ _ _) as [[[movieData|]|] movie]; try now split.
  destruct (nested_theaters _ _ _); [|now split].
  destruct (page_header _) as [[loc day]|]; now split.
Qed.

(** C10.  [getTheater] and [getMovie] never assign [this.page]: the start
    offset of their fetch is computed from the page counter that the last
    listing left on the instance.  After a listing of two pages the
    lookup of a theater is sent with start 10 and answers with the second
    page; on a fresh instance it is sent with start NaN and answers with
    the first. *)
Theorem C10_start_offset_leaks :
  (forall lib api theaterId,
      map q_start (fetched (getTheater lib api theaterId)) = [start_of api]) /\
  (forall lib api movieId,
      map q_start (fetched (getMovie lib api movieId)) = [start_of api]) /\
  page (after (getTheaters (site two_pages) 5 paris_api None None)) = Some 2%Z /\
  map q_start
      (fetched (getTheater (site two_pages)
                  (after (getTheaters (site two_pages) 5 paris_api None None))
                  (lit "ABC123")))
  = [Some 10%Z] /\
  map q_start (fetched (getTheater (site two_pages) paris_api (lit "ABC123")))
  = [None] /\
  ended (getTheater (site two_pages)
           (after (getTheaters (site two_pages) 5 paris_api None None)) (lit "ABC123"))
  <> ended (getTheater (site two_pages) paris_api (lit "ABC123")).
Proof.
  split; [|split].
  - intros lib api theaterId.
    destruct (getTheater_fetches_once lib api theaterId) as [H _].
    rewrite H. reflexivity.
  - intros lib api movieId.
    destruct (getMovie_fetches_once lib api movieId) as [H _].
    rewrite H. reflexivity.
  - repeat split; try (vm_compute; reflexivity). vm_compute. discriminate.
Qed.

(** The three paths that do skip a fragment without a name. *)
Lemma each_movie_skips_nameless (lib : Library) (doc : Page) (movie : Movie)
    (rest : list Movie) :
  m_name movie = [] ->
  each_movie lib doc (movie :: rest) = each_movie lib doc rest.
Proof.
  intros H. simpl. unfold _parseMovie. rewrite H. simpl.
  destruct (each_movie lib doc rest); reflexivity.
Qed.

Lemma each_page_movie_skips_nameless (lib : Library) (doc : Page) (api : Instance)
    (movie : Movie) (rest : list Movie) :
  m_itemprop_name movie = [] ->
  each_page_movie lib doc api (movie :: rest) = each_page_movie lib doc api rest.
Proof.
  intros H. simpl. unfold _parseMovie. rewrite H. reflexivity.
Qed.

Lemma each_theater_skips_nameless (lib : Library) (doc : Page) (api : Instance)
    (theater : Theater) (rest : list Theater) (theaterData : TheaterData) :
  _parseTheater lib doc theater false None = Ok theaterData ->
  theater_name theaterData = [] ->
  each_theater lib doc api (theater :: rest) = each_theater lib doc api rest.
Proof.
  intros H Hname. cbn [each_theater]. rewrite H, Hname. reflexivity.
Qed.

(** C7.  [getMovie] has no test for the false that [_parseMovie] returns
    for a movie without a name: it goes on to [movieData.theaters = []],
    which throws in strict mode.  The call ends with an exception that
    nothing catches, and the callback is never called. *)
Theorem C7_getMovie_nameless_throws :
  forall lib api movieId body,
    request lib (build_query api (P_mid movieId)) = Replied 200 body ->
    m_itemprop_name (all_movies (p_movies (cheerio_load lib body))) = [] ->
    ended (getMovie lib api movieId) = Uncaught set_property_of_false.
Proof.
  intros lib api movieId body Hbody Hname. unfold getMovie.
  unfold _request. rewrite Hbody. simpl.
  unfold _parseMovie. rewrite Hname. reflexivity.
Qed.

(** On a page whose only movie has no name. *)
Lemma C7_witness :
  ended (getMovie (site [nameless_page]) paris_api (lit "M1"))
  = Uncaught set_property_of_false.
Proof.
  apply (C7_getMovie_nameless_throws (site [nameless_page]) paris_api (lit "M1")
           (body := [0%N])); reflexivity.
Defined.
(* ================================================================== *)
(** ** Errors and empty pages *)
(* ================================================================== *)

Lemma _request_error (lib : Library) (api : Instance) (params : Params) (error : Error) :
  request lib (build_query api params) = NetworkError error ->
  _request lib api params = (build_query api params, inl (Callback (AError error) None)).
Proof. unfold _request. now intros ->. Qed.

Lemma _request_status (lib : Library) (api : Instance) (params : Params)
    (statusCode : Z) (body : jsstring) :
  request lib (build_query api params) = Replied statusCode body ->
  statusCode <> 200%Z ->
  _request lib api params
  = (build_query api params, inl (Callback (AString unknown_error) None)).
Proof.
  unfold _request. intros -> H.
  destruct (Z.eqb_spec statusCode 200); [contradiction | reflexivity].
Qed.

Lemma _request_body (lib : Library) (api : Instance) (params : Params) (body : jsstring) :
  request lib (build_query api params) = Replied 200 body ->
  _request lib api params = (build_query api params, inr body).
Proof. unfold _request. now intros ->. Qed.

Lemma _request_failure (lib : Library) (api : Instance) (params : Params) (first : Arg1) :
  fetch_failure (request lib (build_query api params)) = Some first ->
  _request lib api params = (build_query api params, inl (Callback first None)).
Proof.
  unfold fetch_failure, _request.
  destruct (request lib (build_query api params)) as [error|statusCode body].
  - now intros [= <-].
  - destruct (statusCode =? 200)%Z; [discriminate | now intros [= <-]].
Qed.

Lemma getTheaters_done (lib : Library) (api api' : Instance) (query : option jsstring)
    (hidden : option (Z * list TheaterData)) (q : Query) (e : Event) :
  getTheaters_page lib (enter_getTheaters api hidden) query = (q, Done e api') ->
  forall fuel, getTheaters lib fuel api query hidden = stop q e api'.
Proof. intros H fuel. destruct fuel; cbn [getTheaters]; now rewrite H. Qed.

Lemma getMovies_done (lib : Library) (api api' : Instance) (query : option jsstring)
    (hidden : option (Z * list MovieData)) (q : Query) (e : Event) :
  getMovies_page lib (enter_getMovies api hidden) query = (q, Done e api') ->
  forall fuel, getMovies lib fuel api query hidden = stop q e api'.
Proof. intros H fuel. destruct fuel; cbn [getMovies]; now rewrite H. Qed.

(** What [_request] itself tells the callback ends the call. *)
Lemma getTheaters_request_failed (lib : Library) (fuel : nat) (api : Instance)
    (query : option jsstring) (first : Arg1) :
  fetch_failure (request lib (page_query api (P_q query) 1)) = Some first ->
  ended (getTheaters lib fuel api query None) = Callback first None.
Proof.
  intros H.
  apply (_request_failure lib (enter_getTheaters api None) (P_q query)) in H.
  erewrite getTheaters_done; [reflexivity|].
  unfold getTheaters_page. now rewrite H.
Qed.

Lemma getMovies_request_failed (lib : Library) (fuel : nat) (api : Instance)
    (query : option jsstring) (first : Arg1) :
  fetch_failure (request lib (page_query api (P_sort_q query) 1)) = Some first ->
  ended (getMovies lib fuel api query None) = Callback first None.
Proof.
  intros H.
  apply (_request_failure lib (enter_getMovies api None) (P_sort_q query)) in H.
  erewrite getMovies_done; [reflexivity|].
  unfold getMovies_page. now rewrite H.
Qed.

Lemma getTheaters_empty_page (lib : Library) (fuel : nat) (api : Instance)
    (query : option jsstring) (body : jsstring) :
  request lib (page_query api (P_q query) 1) = Replied 200 body ->
  p_theaters (cheerio_load lib (decoded api body)) = [] ->
  ended (getTheaters lib fuel api query None)
  = Callback (AString (p_results (cheerio_load lib (decoded api body)))) None.
Proof.
  intros Hbody Hempty.
  apply (_request_body lib (enter_getTheaters api None) (P_q query)) in Hbody.
  erewrite getTheaters_done; [reflexivity|].
  unfold getTheaters_page. rewrite Hbody.
  change (if str_eqb (lang (enter_getTheaters api None)) (lit "tr")
          then iconv_decode_latin5 body else body) with (decoded api body).
  cbv zeta. now rewrite Hempty.
Qed.

Lemma getMovies_empty_page (lib : Library) (fuel : nat) (api : Instance)
    (query : option jsstring) (body : jsstring) :
  request lib (page_query api (P_sort_q query) 1) = Replied 200 body ->
  p_movies (cheerio_load lib (decoded api body)) = [] ->
  ended (getMovies lib fuel api query None)
  = Callback (AString (p_results (cheerio_load lib (decoded api body)))) None.
Proof.
  intros Hbody Hempty.
  apply (_request_body lib (enter_getMovies api None) (P_sort_q query)) in Hbody.
  erewrite getMovies_done; [reflexivity|].
  unfold getMovies_page. rewrite Hbody.
  change (if str_eqb (lang (enter_getMovies api None)) (lit "tr")
          then iconv_decode_latin5 body else body) with (decoded api body).
  cbv zeta. now rewrite Hempty.
Qed.

(** C8, as stated, fails on a page without theaters: [getTheaters] calls
    [cb(text)], the text being the first argument, as for an error, and
    not [cb(null, ...)]; the unknown-error string is delivered by a call
    of the same shape. *)
Lemma C8_counterexample :
  ended (getTheaters (site [empty_page]) 0 paris_api None None)
  = Callback (AString (lit "No showtimes were found.")) None /\
  ~ called_as_success (ended (getTheaters (site [empty_page]) 0 paris_api None None)).
Proof.
  split; [reflexivity|]. intros [second H]. vm_compute in H. discriminate H.
Qed.

(** C8, amended.  In each of the four methods a fetch that fails calls
    the callback once, with the transport error itself as first
    argument, and a status other than 200 without an error calls it with
    the unknown-error string as first argument.  In [getTheaters] and
    [getMovies] a 200 page without any theater, respectively movie, calls
    the callback with the text of the results element as first argument
    and no second argument: the call has the shape of the error calls,
    not of [cb(null, result)]. *)
Theorem C8_errors_and_empty_pages :
  forall (lib : Library) (api : Instance),
    (forall fuel query first,
        fetch_failure (request lib (page_query api (P_q query) 1)) = Some first ->
        ended (getTheaters lib fuel api query None) = Callback first None) /\
    (forall fuel query first,
        fetch_failure (request lib (page_query api (P_sort_q query) 1)) = Some first ->
        ended (getMovies lib fuel api query None) = Callback first None) /\
    (forall theaterId first,
        fetch_failure (request lib (build_query api (P_tid theaterId))) = Some first ->
        ended (getTheater lib api theaterId) = Callback first None) /\
    (forall movieId first,
        fetch_failure (request lib (build_query api (P_mid movieId))) = Some first ->
        ended (getMovie lib api movieId) = Callback first None) /\
    (forall fuel query body,
        request lib (page_query api (P_q query) 1) = Replied 200 body ->
        p_theaters (cheerio_load lib (decoded api body)) = [] ->
        ended (getTheaters lib fuel api query None)
        = Callback (AString (p_results (cheerio_load lib (decoded api body)))) None) /\
    (forall fuel query body,
        request lib (page_query api (P_sort_q query) 1) = Replied 200 body ->
        p_movies (cheerio_load lib (decoded api body)) = [] ->
        ended (getMovies lib fuel api query None)
        = Callback (AString (p_results (cheerio_load lib (decoded api body)))) None).
Proof.
  intros lib api. repeat split.
  - intros fuel query first H. now apply getTheaters_request_failed.
  - intros fuel query first H. now apply getMovies_request_failed.
  - intros theaterId first H. unfold getTheater.
    now rewrite (_request_failure lib api (P_tid theaterId) H).
  - intros movieId first H. unfold getMovie.
    now rewrite (_request_failure lib api (P_mid movieId) H).
  - intros. now apply getTheaters_empty_page.
  - intros. now apply getMovies_empty_page.
Qed.

(** Without a network the error reaches the callback as it is; on a page
    without theaters the callback gets the text of the page. *)
Lemma C8_witness :
  ended (getTheater offline paris_api (lit "ABC123")) = Callback (AError refused) None /\
  ended (getTheaters (site [empty_page]) 0 paris_api None None)
  = Callback (AString (lit "No showtimes were found.")) None.
Proof.
  split.
  - destruct (C8_errors_and_empty_pages offline paris_api) as [_ [_ [H _]]].
    apply H. reflexivity.
  - destruct (C8_errors_and_empty_pages (site [empty_page]) paris_api)
      as [_ [_ [_ [_ [H _]]]]].
    apply (H 0%nat None [0%N]); reflexivity.
Defined.
(* ================================================================== *)
(** ** Pagination *)
(* ================================================================== *)

Lemma _parseTheater_name (lib : Library) (doc : Page) (theater : Theater)
    (theaterData : TheaterData) :
  _parseTheater lib doc theater false None = Ok theaterData ->
  theater_name theaterData = t_desc_name theater.
Proof.
  unfold _parseTheater.
  destruct (given_or None _ theater); simpl; [|discriminate].
  destruct (each_movie lib doc (t_movies theater)); simpl; [|discriminate].
  now intros [= <-].
Qed.

Lemma length_zero_is_empty (s : jsstring) : (length s =? 0)%nat = is_empty s.
Proof. destruct s; reflexivity. Qed.

(** The loop over the theaters of a page appends the named ones. *)
Lemma each_theater_appends (lib : Library) (doc : Page) (ts : list Theater) :
  forall api parsed,
    map_outcome (fun t => _parseTheater lib doc t false None) ts = Ok parsed ->
    exists l,
      each_theater lib doc api ts = (Ok tt, set_theaters api (theaters api ++ l)) /\
      length l = length (filter (fun t => negb (is_empty (t_desc_name t))) ts).
Proof.
  induction ts as [|t ts IH]; intros api parsed H.
  - exists []. split; [|reflexivity]. simpl. rewrite app_nil_r. now destruct api.
  - cbn [map_outcome] in H. cbn [each_theater].
    destruct (_parseTheater lib doc t false None) as [td|] eqn:Ht; [|discriminate].
    cbn [bind] in H.
    destruct (map_outcome _ ts) as [parsed'|] eqn:Hts; [|discriminate].
    rewrite length_zero_is_empty, (_parseTheater_name _ _ _ Ht). cbn [filter].
    destruct (is_empty (t_desc_name t)); cbn [negb].
    + exact (IH api parsed' eq_refl).
    + destruct (IH (set_theaters api (theaters api ++ [td])) parsed' eq_refl)
        as [l [Hl Hlen]].
      exists (td :: l). split; [|simpl; now rewrite Hlen].
      rewrite Hl. cbn [theaters set_theaters]. rewrite <- app_assoc. reflexivity.
Qed.

Lemma getTheaters_hidden (lib : Library) (fuel : nat) (api : Instance)
    (query : option jsstring) (x : option Z) (y : list TheaterData)
    (hidden : Z * list TheaterData) :
  getTheaters lib fuel (set_theaters (set_page api x) y) query (Some hidden)
  = getTheaters lib fuel api query (Some hidden).
Proof. destruct fuel, hidden; reflexivity. Qed.

Lemma getTheaters_first_page (lib : Library) (fuel : nat) (api : Instance)
    (query : option jsstring) :
  getTheaters lib fuel api query None = getTheaters lib fuel api query (Some (1%Z, [])).
Proof. destruct fuel; reflexivity. Qed.

(** One page of theaters, read to its end. *)
Lemma getTheaters_page_read (lib : Library) (api : Instance) (query : option jsstring)
    (p : Z) (acc : list TheaterData) (pg : Page) :
  serves lib api (P_q query) p pg ->
  theater_page lib pg ->
  exists loc day l,
    length l = named_theaters pg /\
    getTheaters_page lib (enter_getTheaters api (Some (p, acc))) query
    = (page_query api (P_q query) p,
       if negb (shows_next pg) || (p =? pageLimit api)%Z
       then Done (Callback ANull
                    (Some {| r_location := loc; r_date := day;
                             r_data := DTheaters (acc ++ l) |}))
                 (set_theaters (set_page api (Some p)) (acc ++ l))
       else Again (set_theaters (set_page api (Some (Z.succ p))) (acc ++ l))).
Proof.
  intros [body [Hbody Hload]] [Hsome [[[loc day] Hheader] [parsed Hparsed]]].
  destruct (each_theater_appends lib pg (p_theaters pg)
              (enter_getTheaters api (Some (p, acc))) Hparsed) as [l [Hl Hlen]].
  exists loc, day, l. split; [exact Hlen|].
  apply (_request_body lib (enter_getTheaters api (Some (p, acc))) (P_q query)) in Hbody.
  unfold getTheaters_page. rewrite Hbody.
  change (if str_eqb (lang (enter_getTheaters api (Some (p, acc)))) (lit "tr")
          then iconv_decode_latin5 body else body) with (decoded api body).
  cbv zeta. rewrite Hload.
  destruct (p_theaters pg) as [|t ts] eqn:Hts; [contradiction|].
  rewrite <- Hts in *. rewrite Hts at 1. cbn [length Nat.eqb].
  rewrite Hheader, Hl. unfold shows_next. rewrite negb_involutive.
  destruct ((length (next_links pg) =? 0)%nat || (p =? pageLimit api)%Z) eqn:Hstop.
  - change (at_limit _) with (p =? pageLimit api)%Z. rewrite Hstop. reflexivity.
  - change (at_limit _) with (p =? pageLimit api)%Z. rewrite Hstop. reflexivity.
Qed.

Lemma last_cons_cons {A} (a b : A) (l : list A) (d : A) :
  last (a :: b :: l) d = last (b :: l) d.
Proof. reflexivity. Qed.








(** [_parseMovie] returns false exactly for a movie without a name. *)
Lemma _parseMovie_refusal (lib : Library) (doc : Page) (movie movie' : Movie)
    (alternate : bool) (movieId : option jsstring) (r : option MovieData) :
  _parseMovie lib doc movie alternate movieId = (Ok r, movie') ->
  (r = None <-> is_empty (if alternate then m_itemprop_name movie else m_name movie) = true).
Proof.
  unfold _parseMovie.
  destruct (is_empty (if alternate then m_itemprop_name movie else m_name movie));
    [intros H; case_pairs; tauto|].
  match goal with |- context [match ?x with Ok _ => _ | Throw _ => _ end] =>
    destruct x as [id|]; [|intros H; inversion H] end.
  destruct alternate; unfold read_info.
  - destruct (rev (m_infos movie)) eqn:E; [intros H; inversion H|].
    cbn [m_infos set_infos andb].
    destruct (parse_info _) as [[runtime rating] genre].
    destruct (truthy id); [destruct (read_detail _ _)|];
      (destruct (_parseImdb lib _); [|intros H; inversion H]);
      (destruct (_parseTrailer lib _); [|intros H; inversion H]);
      intros H; inversion H; split; discriminate.
  - cbn [andb]. destruct (parse_info _) as [[runtime rating] genre].
    destruct (_parseShowtimes lib (m_times movie)); [|intros H; inversion H].
    destruct (_parseImdb lib _); [|intros H; inversion H].
    destruct (_parseTrailer lib _); [|intros H; inversion H].
    intros H; inversion H; split; discriminate.
Qed.


Lemma getMovies_hidden (lib : Library) (fuel : nat) (api : Instance)
    (query : option jsstring) (x : option Z) (y : list MovieData)
    (hidden : Z * list MovieData) :
  getMovies lib fuel (set_movies (set_page api x) y) query (Some hidden)
  = getMovies lib fuel api query (Some hidden).
Proof. destruct fuel, hidden; reflexivity. Qed.

Lemma getMovies_first_page (lib : Library) (fuel : nat) (api : Instance)
    (query : option jsstring) :
  getMovies lib fuel api query None = getMovies lib fuel api query (Some (1%Z, [])).
Proof. destruct fuel; reflexivity. Qed.




(** A site serves its pages in order. *)
Lemma site_serves (pages : list Page) (api : Instance) (params : Params) :
  lang api <> lit "tr" ->
  served_in_order (site pages) api params pages.
Proof.
  intros Hlang i pg Hi. exists [N.of_nat i]. split.
  - cbn. do 2 f_equal.
    replace (Z.of_nat i + 1 - 1)%Z with (Z.of_nat i) by lia.
    rewrite Z.div_mul by lia. rewrite <- nat_N_Z. apply N2Z.id.
  - unfold decoded, str_eqb. destruct (str_eq_dec (lang api) (lit "tr")); [contradiction|].
    cbn. rewrite Nnat.Nat2N.id. now apply nth_error_nth.
Qed.

Lemma paris_theater_page (pages : list Page) (name : string) (next : bool) :
  theater_page (site pages) (paris [listed_theater name []] [] next).
Proof.
  split; [discriminate|]. split; [eexists; reflexivity|].
  eexists. reflexivity.
Qed.





Lemma paris_not_turkish : lang paris_api <> lit "tr".
Proof. discriminate. Qed.




(* ================================================================== *)
(** ** Extracting the same fragment twice *)
(* ================================================================== *)

Lemma replace_first_br_none (el : list Inline) :
  line_breaks el = 0 -> comments_clean el = true -> replace_first_br el = el.
Proof.
  unfold line_breaks, comments_clean. induction el as [|i el IH]; [reflexivity|].
  cbn [filter forallb replace_first_br].
  destruct i; cbn [is_br length andb]; intros H Hc; try discriminate;
    try (now rewrite IH).
  apply andb_true_iff in Hc as [Hdata Hc]. apply negb_true_iff in Hdata.
  rewrite Hdata. now rewrite IH.
Qed.

Lemma replace_first_br_last (el : list Inline) :
  line_breaks el <= 1 -> comments_clean el = true ->
  line_breaks (replace_first_br el) = 0 /\ comments_clean (replace_first_br el) = true.
Proof.
  unfold line_breaks, comments_clean. induction el as [|i el IH]; [split; reflexivity|].
  cbn [filter forallb replace_first_br].
  destruct i; cbn [is_br length andb]; intros H Hc.
  - cbn [filter forallb is_br andb]. now apply IH.
  - cbn [filter forallb is_br andb].
    assert (H0 : length (filter is_br el) = 0) by lia.
    split; [exact H0 | exact Hc].
  - cbn [filter forallb is_br andb]. now apply IH.
  - apply andb_true_iff in Hc as [Hdata Hc]. pose proof Hdata as Hdata'.
    apply negb_true_iff in Hdata'. rewrite Hdata'.
    cbn [filter forallb is_br andb]. rewrite Hdata. now apply IH.
  - cbn [filter forallb is_br andb]. now apply IH.
Qed.

Lemma replace_first_br_twice (el : list Inline) :
  line_breaks el <= 1 -> comments_clean el = true ->
  replace_first_br (replace_first_br el) = replace_first_br el.
Proof.
  intros H Hc. destruct (replace_first_br_last el H Hc) as [H0 Hc0].
  now apply replace_first_br_none.
Qed.









Lemma update_last_twice {A} (f : A -> A) (l : list A) (d : A) :
  f (f (last l d)) = f (last l d) ->
  update_last f (update_last f l) = update_last f l.
Proof.
  induction l as [|x l IH]; [reflexivity|].
  destruct l as [|y l]; cbn [update_last last]; intros H.
  - now rewrite H.
  - specialize (IH H). cbn [update_last] in IH.
    destruct l as [|z l]; cbn [update_last] in *; now rewrite IH.
Qed.












(* ================================================================== *)
(** ** Further properties: strings *)
(* ================================================================== *)

Unset Implicit Arguments.

Lemma starts_with_length (p s : jsstring) :
  starts_with p s = true -> length p <= length s.
Proof.
  revert s. induction p as [|a p IH]; intros s H; simpl in *; [lia|].
  destruct s as [|b s]; [discriminate|].
  apply andb_true_iff in H as [_ H]. apply IH in H. simpl. lia.
Qed.

Lemma join_cons (sep token : jsstring) (rest : list jsstring) :
  rest <> [] -> join sep (token :: rest) = token ++ sep ++ join sep rest.
Proof. destruct rest; [contradiction | reflexivity]. Qed.

Lemma split_go_join (sep : jsstring) (s : jsstring) :
  sep <> [] ->
  forall skip cur,
    skip <= length s ->
    join sep (split_go sep skip cur s) = rev cur ++ skipn skip s.
Proof.
  intros Hsep. induction s as [|c s IH]; intros skip cur Hskip.
  - simpl in Hskip. replace skip with 0 by lia. simpl. now rewrite app_nil_r.
  - destruct skip as [|k].
    + cbn [split_go skipn].
      destruct (starts_with sep (c :: s)) eqn:Hm.
      * pose proof (starts_with_length _ _ Hm) as Hlen.
        assert (Hpos : 1 <= length sep) by (destruct sep; [contradiction | simpl; lia]).
        rewrite join_cons by apply split_go_not_nil.
        rewrite IH by (simpl in Hlen; lia). cbn [rev app].
        f_equal.
        transitivity (sep ++ skipn (length sep) (c :: s));
          [|symmetry; exact (starts_with_app _ _ Hm)].
        replace (length sep) with (S (length sep - 1)) at 2 by lia.
        reflexivity.
      * rewrite IH by lia. cbn [rev skipn]. now rewrite <- app_assoc.
    + cbn [split_go skipn]. apply IH. simpl in Hskip. lia.
Qed.

(** X1.  Splitting loses nothing: the tokens of a text, joined again
    with the separator, are the text; and there is always a first
    token. *)
Theorem X1_split_join :
  forall sep s : jsstring,
    sep <> [] ->
    join sep (split sep s) = s /\ split sep s <> [].
Proof.
  intros sep s Hsep. split; [|apply split_not_nil].
  unfold split. rewrite (split_go_join sep s Hsep 0 []) by lia. reflexivity.
Qed.

(** On an info line of three tokens. *)
Lemma X1_witness :
  join (lit " - ") (split (lit " - ") (lit "1 hr 45 min - Rated R - Drama"))
  = lit "1 hr 45 min - Rated R - Drama".
Proof.
  apply (X1_split_join (lit " - ") (lit "1 hr 45 min - Rated R - Drama")).
  discriminate.
Defined.

Lemma strip_ascii (s : jsstring) : ascii_string (_removeNonAsciiCharacters s).
Proof.
  apply Forall_forall. intros c Hc. now apply filter_In in Hc.
Qed.

Lemma trim_start_keeps (P : code_unit -> Prop) (s : jsstring) :
  Forall P s -> Forall P (trim_start s).
Proof.
  induction 1 as [|c s Hc Hs IH]; simpl; [constructor|].
  destruct (is_white c); [exact IH | now constructor].
Qed.

Lemma trim_keeps (P : code_unit -> Prop) (s : jsstring) :
  Forall P s -> Forall P (trim s).
Proof.
  intros H. unfold trim, trim_end.
  apply Forall_rev, trim_start_keeps, Forall_rev, trim_start_keeps, H.
Qed.

Lemma match_meridiem_value (s m : jsstring) :
  match_meridiem s = Some m -> m = lit "am" \/ m = lit "pm".
Proof.
  induction s as [|c s IH]; [discriminate|].
  cbn [match_meridiem].
  destruct (starts_with (lit "am") (c :: s)); [intros [= <-]; now left|].
  destruct (starts_with (lit "pm") (c :: s)); [intros [= <-]; now right | exact IH].
Qed.

Lemma nearest_meridiem_value (later : list jsstring) (m : jsstring) :
  nearest_meridiem later = Some m -> m = lit "am" \/ m = lit "pm".
Proof.
  induction later as [|t later IH]; [discriminate|]. cbn [nearest_meridiem].
  destruct (stated (cleaned t)) eqn:E; [|exact IH].
  intros [= <-]. rewrite <- match_meridiem_stated in E.
  exact (match_meridiem_value _ _ E).
Qed.

Lemma resolved_ascii (token : jsstring) (later : list jsstring) :
  ascii_string (resolved token later).
Proof.
  assert (Hc : ascii_string (cleaned token)) by apply trim_keeps, strip_ascii.
  unfold resolved.
  destruct (stated (cleaned token)); [exact Hc|].
  destruct (nearest_meridiem later) as [m|] eqn:E; [|exact Hc].
  apply Forall_app. split; [exact Hc|].
  destruct (nearest_meridiem_value _ _ E) as [-> | ->]; repeat constructor.
Qed.

Lemma back_inference_ascii (tokens : list jsstring) :
  Forall ascii_string (back_inference tokens).
Proof.
  induction tokens; simpl; constructor; [apply resolved_ascii | assumption].
Qed.

Lemma strip_each_ascii (l : list jsstring) :
  Forall ascii_string (_removeNonAsciiCharacters_each l).
Proof.
  apply Forall_forall. intros s Hs. apply in_map_iff in Hs as [x [<- _]].
  apply strip_ascii.
Qed.

Lemma genre_candidate_ascii (token : option jsstring) :
  ascii_value (genre_candidate token).
Proof.
  destruct token as [token|]; simpl; [|exact I].
  destruct (is_link_label token); simpl; [exact I | apply strip_each_ascii].
Qed.

Lemma parse_info_ascii (info : list jsstring) :
  ascii_value (fst (fst (parse_info info))) /\
  ascii_value (snd (fst (parse_info info))) /\
  ascii_value (snd (parse_info info)).
Proof.
  destruct (has_duration (nth 0 info [])) eqn:H0.
  - destruct (includes (lit "Rated") (nth 1 info [])) eqn:H1.
    + rewrite (parse_info_rated info H0 H1). cbn [fst snd].
      repeat split; try apply strip_ascii. apply genre_candidate_ascii.
    + rewrite (parse_info_unrated info H0 H1). cbn [fst snd].
      repeat split; try apply strip_ascii; try exact I. apply genre_candidate_ascii.
  - rewrite (parse_info_no_runtime info H0). cbn [fst snd].
    repeat split; try exact I. apply strip_ascii.
Qed.
(* ================================================================== *)
(** ** Further properties: the records of movies and showtimes *)
(* ================================================================== *)

Lemma links_replace_first_br (el : list Inline) :
  flat_map (fun i => match i with IAnchor a => [a] | _ => [] end) (replace_first_br el)
  = flat_map (fun i => match i with IAnchor a => [a] | _ => [] end) el.
Proof.
  induction el as [|i el IH]; [reflexivity|].
  destruct i; cbn [replace_first_br flat_map app]; try (now rewrite IH);
    try reflexivity.
  destruct (includes (lit "<br>") data); cbn [flat_map app]; [reflexivity | exact IH].
Qed.

Lemma flat_map_update_last {A B} (g : A -> list B) (f : A -> A) (l : list A) :
  (forall x, g (f x) = g x) ->
  flat_map g (update_last f l) = flat_map g l.
Proof.
  intros H. induction l as [|x l IH]; [reflexivity|].
  destruct l as [|y l]; cbn [update_last flat_map] in *.
  - now rewrite H.
  - now rewrite IH.
Qed.

Lemma info_links_rewritten (movie : Movie) (blocks : list Block) :
  info_links (set_description
                (set_infos movie (update_last replace_first_br (m_infos movie)))
                blocks)
  = info_links movie.
Proof.
  unfold info_links. cbn [m_infos set_description set_infos].
  apply flat_map_update_last, links_replace_first_br.
Qed.

Lemma info_links_rewritten_info (movie : Movie) :
  info_links (set_infos movie (update_last replace_first_br (m_infos movie)))
  = info_links movie.
Proof.
  unfold info_links. cbn [m_infos set_infos].
  apply flat_map_update_last, links_replace_first_br.
Qed.

Lemma _parseImdb_links (lib : Library) (a b : Movie) :
  info_links a = info_links b -> _parseImdb lib a = _parseImdb lib b.
Proof. unfold _parseImdb. now intros ->. Qed.

Lemma _parseTrailer_links (lib : Library) (a b : Movie) :
  info_links a = info_links b -> _parseTrailer lib a = _parseTrailer lib b.
Proof. unfold _parseTrailer. now intros ->. Qed.

(** The fields of the record of [_parseMovie], in terms of the fragment
    it was given. *)
Lemma _parseMovie_record (lib : Library) (doc : Page) (movie movie' : Movie)
    (alternate : bool) (movieId : option jsstring) (movieData : MovieData) :
  _parseMovie lib doc movie alternate movieId = (Ok (Some movieData), movie') ->
  mv_name movieData = (if alternate then m_itemprop_name movie else m_name movie) /\
  is_empty (mv_name movieData) = false /\
  match movieId with
  | Some given => mv_id movieData = JStr given
  | None => resolve_movie_id lib doc movie alternate = Ok (mv_id movieData)
  end /\
  _parseImdb lib movie = Ok (mv_imdb movieData) /\
  _parseTrailer lib movie = Ok (mv_trailer movieData) /\
  mv_theaters movieData = None /\
  mv_more_theaters movieData = false /\
  (if alternate then
     mv_showtimes movieData = Some [] /\
     mv_showtime_tickets movieData = None /\
     (mv_detail movieData = None <-> truthy (mv_id movieData) = false)
   else
     mv_detail movieData = None /\
     exists response,
       _parseShowtimes lib (m_times movie) = Ok response /\
       mv_showtimes movieData = Some (showtimes response) /\
       mv_showtime_tickets movieData = showtime_tickets response).
Proof.
  unfold _parseMovie.
  destruct (is_empty (if alternate then m_itemprop_name movie else m_name movie)) eqn:Hname;
    [intros H; case_pairs|].
  assert (Hid : forall id,
             match movieId with
             | Some given => Ok (JStr given)
             | None => resolve_movie_id lib doc movie alternate
             end = Ok id ->
             match movieId with
             | Some given => id = JStr given
             | None => resolve_movie_id lib doc movie alternate = Ok id
             end).
  { intros id. destruct movieId; [now intros [= <-] | trivial]. }
  match goal with |- context [match ?r with Ok _ => _ | Throw _ => _ end] =>
    destruct r as [id|] eqn:Eid; [|intros H; case_pairs] end.
  specialize (Hid id eq_refl).
  destruct alternate; unfold read_info.
  - destruct (rev (m_infos movie)) eqn:E; [intros H; case_pairs|].
    cbn [m_infos set_infos andb].
    destruct (parse_info _) as [[runtime rating] genre].
    destruct (truthy id) eqn:Ht.
    + unfold read_detail. destruct (scan_detail _ None None) as [dir cst].
      rewrite (_parseImdb_links lib _ movie (info_links_rewritten movie _)).
      rewrite (_parseTrailer_links lib _ movie (info_links_rewritten movie _)).
      destruct (_parseImdb lib movie) as [imdb|]; [|intros H; case_pairs].
      destruct (_parseTrailer lib movie) as [trailer|]; [|intros H; case_pairs].
      intros H; case_pairs; cbn.
      repeat split; auto; try discriminate; try congruence.
    + rewrite (_parseImdb_links lib _ movie (info_links_rewritten_info movie)).
      rewrite (_parseTrailer_links lib _ movie (info_links_rewritten_info movie)).
      destruct (_parseImdb lib movie) as [imdb|]; [|intros H; case_pairs].
      destruct (_parseTrailer lib movie) as [trailer|]; [|intros H; case_pairs].
      intros H; case_pairs; cbn.
      repeat split; auto.
  - cbn [andb]. destruct (parse_info _) as [[runtime rating] genre].
    destruct (_parseShowtimes lib (m_times movie)) as [response|] eqn:Es;
      [|intros H; case_pairs].
    destruct (_parseImdb lib movie) as [imdb|]; [|intros H; case_pairs].
    destruct (_parseTrailer lib movie) as [trailer|]; [|intros H; case_pairs].
    intros H; case_pairs; cbn.
    repeat split; auto. exists response. repeat split; auto.
Qed.

Lemma _parseShowtimes_ascii (lib : Library) (thing : Times)
    (response : ShowtimesResponse) :
  _parseShowtimes lib thing = Ok response ->
  Forall ascii_string (showtimes response).
Proof.
  intros H. rewrite (_parseShowtimes_back_inference lib thing H).
  apply back_inference_ascii.
Qed.

(** X2.  Whatever the page holds, the runtime, the rating, the pieces of
    the genre and the showtimes of a movie record, and the showtimes
    returned by [_parseShowtimes], are made of ASCII characters only. *)
Theorem X2_extracted_text_is_ascii :
  forall (lib : Library),
    (forall thing response,
        _parseShowtimes lib thing = Ok response ->
        Forall ascii_string (showtimes response)) /\
    (forall doc movie movie' alternate movieId movieData,
        _parseMovie lib doc movie alternate movieId = (Ok (Some movieData), movie') ->
        ascii_value (mv_runtime movieData) /\
        ascii_value (mv_rating movieData) /\
        ascii_value (mv_genre movieData) /\
        forall times, mv_showtimes movieData = Some times -> Forall ascii_string times).
Proof.
  intros lib. split; [apply _parseShowtimes_ascii|].
  intros doc movie movie' alternate movieId movieData H.
  pose proof (_parseMovie_metadata _ _ _ _ _ H) as Hmeta.
  pose proof (parse_info_ascii (info_tokens movie alternate)) as [Hr [Hra Hg]].
  rewrite <- Hmeta in Hr, Hra, Hg. cbn [fst snd] in Hr, Hra, Hg.
  repeat split; try assumption.
  intros times Htimes.
  destruct (_parseMovie_record _ _ _ _ _ _ _ H) as [_ [_ [_ [_ [_ [_ [_ Hshape]]]]]]].
  destruct alternate.
  - destruct Hshape as [Hs _]. rewrite Hs in Htimes. inversion Htimes. constructor.
  - destruct Hshape as [_ [response [Hresp [Hs _]]]]. rewrite Hs in Htimes.
    inversion Htimes; subst. exact (_parseShowtimes_ascii lib _ _ Hresp).
Qed.

(** On a movie whose info line and times carry a left-to-right mark. *)
Lemma X2_witness :
  match _parseMovie blank_library blank_page marked_movie false None with
  | (Ok (Some movieData), _) =>
      ascii_value (mv_runtime movieData) /\
      mv_runtime movieData = JStr (lit "1 hr 45 min") /\
      mv_showtimes movieData = Some [lit "7:00pm"]
  | _ => False
  end.
Proof.
  destruct (_parseMovie blank_library blank_page marked_movie false None)
    as [[[movieData|]|e] movie'] eqn:E.
  - destruct (proj2 (X2_extracted_text_is_ascii blank_library) _ _ _ _ _ _ E)
      as [Hruntime _].
    split; [exact Hruntime|]. vm_compute in E. inversion E. split; reflexivity.
  - vm_compute in E. discriminate E.
  - vm_compute in E. discriminate E.
Defined.
(* ================================================================== *)
(** ** Further properties: showtimes and ticket links *)
(* ================================================================== *)

Lemma match_meridiem_app (s m : jsstring) :
  match_meridiem m <> None -> match_meridiem (s ++ m) <> None.
Proof.
  intros Hm. induction s as [|c s IH]; [exact Hm|].
  cbn [app match_meridiem].
  destruct (starts_with (lit "am") (c :: s ++ m)); [discriminate|].
  destruct (starts_with (lit "pm") (c :: s ++ m)); [discriminate | exact IH].
Qed.

Lemma resolved_states (token : jsstring) (later : list jsstring) :
  nearest_meridiem later <> None -> states_meridiem (resolved token later) = true.
Proof.
  unfold states_meridiem, resolved. intros Hn.
  destruct (stated (cleaned token)) eqn:E;
    [rewrite <- match_meridiem_stated in E; now rewrite E|].
  destruct (nearest_meridiem later) as [m|] eqn:En; [|contradiction].
  assert (Hm : match_meridiem m <> None)
    by (destruct (nearest_meridiem_value _ _ En) as [-> | ->]; discriminate).
  pose proof (match_meridiem_app (cleaned token) m Hm) as H.
  destruct (match_meridiem (cleaned token ++ m)); [reflexivity | contradiction].
Qed.

Lemma stated_later (tokens : list jsstring) :
  forall j time,
    nth_error (back_inference tokens) j = Some time ->
    states_meridiem time = true ->
    nearest_meridiem tokens <> None.
Proof.
  induction tokens as [|t later IH]; intros [|j] time Hj Hs; simpl in Hj;
    try discriminate.
  - inversion Hj; subst time. cbn [nearest_meridiem].
    unfold states_meridiem, resolved in Hs.
    destruct (stated (cleaned t)) eqn:E; [discriminate|].
    destruct (nearest_meridiem later); [discriminate|].
    rewrite <- match_meridiem_stated in E. rewrite E in Hs. discriminate.
  - cbn [nearest_meridiem].
    destruct (stated (cleaned t)); [discriminate|].
    exact (IH j time Hj Hs).
Qed.

Lemma back_inference_closed (tokens : list jsstring) :
  forall i j earlier later,
    (i < j)%nat ->
    nth_error (back_inference tokens) i = Some earlier ->
    nth_error (back_inference tokens) j = Some later ->
    states_meridiem later = true ->
    states_meridiem earlier = true.
Proof.
  induction tokens as [|t rest IH]; intros i j earlier later Hij Hi Hj Hs.
  - destruct i; discriminate.
  - destruct j as [|j]; [lia|]. destruct i as [|i]; simpl in Hi, Hj.
    + inversion Hi; subst earlier. apply resolved_states.
      exact (stated_later _ _ _ Hj Hs).
    + apply (IH i j earlier later); [lia | assumption..].
Qed.

(** X3.  In the times returned by [_parseShowtimes], the times that
    state a meridiem come first: once a time states "am" or "pm", every
    time before it states one too. *)
Theorem X3_meridiems_come_first :
  forall (lib : Library) (thing : Times) (response : ShowtimesResponse)
         (i j : nat) (earlier later : jsstring),
    _parseShowtimes lib thing = Ok response ->
    (i < j)%nat ->
    nth_error (showtimes response) i = Some earlier ->
    nth_error (showtimes response) j = Some later ->
    states_meridiem later = true ->
    states_meridiem earlier = true.
Proof.
  intros lib thing response i j earlier later H.
  rewrite (_parseShowtimes_back_inference lib thing H).
  apply back_inference_closed.
Qed.

(** On the times "9:00 10:00am 11:00": the first states "am" as the
    second does. *)
Lemma X3_witness :
  states_meridiem (lit "9:00am") = true.
Proof.
  apply (X3_meridiems_come_first blank_library
           {| fl_links := []; times_text := lit "9:00 10:00am 11:00" |}
           {| showtimes := [lit "9:00am"; lit "10:00am"; lit "11:00"];
              showtime_tickets := None |}
           0 1 (lit "9:00am") (lit "10:00am"));
    try reflexivity. lia.
Defined.

(** *** Ticket links *)

Lemma accepts_or_refuses (lib : Library) (x : option jsstring) :
  accepts lib x \/ refuses lib x.
Proof.
  destruct x as [u|]; [|now right]. cbn.
  destruct (url_parse_query lib u) as [query|e]; [left | right]; eauto.
Qed.

Lemma accepts_not_refuses (lib : Library) (x : option jsstring) :
  accepts lib x -> refuses lib x -> False.
Proof.
  destruct x as [u|]; cbn; [|trivial]. intros [query Hq] [e He]. congruence.
Qed.

Lemma url_parse_arg_refused (lib : Library) (x : option jsstring) :
  refuses lib x <-> exists e, url_parse_arg lib x = Throw e.
Proof.
  unfold url_parse_arg, url_query. destruct x as [u|]; cbn.
  - destruct (url_parse_query lib u) as [query|e]; cbn.
    + split; intros [e He]; discriminate.
    + split; eauto.
  - split; eauto.
Qed.

Lemma ticket_items_thrown (lib : Library) (target : list Anchor) :
  (exists el, In el target /\ refuses lib (a_href el)) ->
  exists e, map_outcome (ticket_item lib) target = Throw e.
Proof.
  induction target as [|el target IH]; intros [x [Hin Hx]]; [contradiction|].
  cbn [map_outcome]. unfold ticket_item at 1.
  destruct (url_parse_arg lib (a_href el)) as [query|e] eqn:Eq; simpl; [|eauto].
  destruct Hin as [-> | Hin].
  - apply url_parse_arg_refused in Hx as [e He]. congruence.
  - destruct (IH (ex_intro _ x (conj Hin Hx))) as [e He]. rewrite He. simpl. eauto.
Qed.

Lemma Forall_or_exists_href (lib : Library) (target : list Anchor) :
  Forall (fun el => accepts lib (a_href el)) target \/
  exists el, In el target /\ refuses lib (a_href el).
Proof.
  induction target as [|el target [IH | [x [Hin Hx]]]].
  - left. constructor.
  - destruct (accepts_or_refuses lib (a_href el)) as [Ha | Hr].
    + left. now constructor.
    + right. exists el. split; [now left | exact Hr].
  - right. exists x. split; [now right | exact Hx].
Qed.

Lemma _parseShowtimes_total (lib : Library) (thing : Times) :
  Forall (fun el => accepts lib (a_href el)) (fl_links thing) ->
  exists response, _parseShowtimes lib thing = Ok response.
Proof.
  intros Hhref. unfold _parseShowtimes.
  destruct (fl_links thing) as [|el target] eqn:E; [eauto|].
  destruct (ticket_items_total lib Hhref) as [items Hi]. rewrite Hi; simpl.
  destruct (map_getTime_tickets None [] (rev items)); eauto.
Qed.

Lemma _parseShowtimes_throws (lib : Library) (thing : Times) :
  (exists e, _parseShowtimes lib thing = Throw e) <->
  (exists el, In el (fl_links thing) /\ refuses lib (a_href el)).
Proof.
  split.
  - intros [e He].
    destruct (Forall_or_exists_href lib (fl_links thing)) as [Hall | Hex]; [|exact Hex].
    destruct (_parseShowtimes_total lib thing Hall) as [response Hr]. congruence.
  - intros Hex. unfold _parseShowtimes.
    destruct (fl_links thing) as [|el target] eqn:E.
    + destruct Hex as [x [[] _]].
    + destruct (ticket_items_thrown lib _ Hex) as [e He]. rewrite He. simpl. eauto.
Qed.

(** X4.  [_parseShowtimes] throws exactly when [url.parse] throws on the
    [href] of one of the ticket links: the link has no [href], or an
    [href] that the library cannot parse.  In particular it never throws
    on a fragment without ticket links.  When it returns, the map of
    ticket URLs exists exactly when the fragment has ticket links. *)
Theorem X4_showtimes_throw_on_refused_href :
  forall (lib : Library) (thing : Times),
    ((exists e, _parseShowtimes lib thing = Throw e) <->
     (exists el, In el (fl_links thing) /\
                 (a_href el = None \/
                  exists h e, a_href el = Some h /\ url_parse_query lib h = Throw e))) /\
    (forall response,
        _parseShowtimes lib thing = Ok response ->
        (showtime_tickets response = None <-> fl_links thing = [])).
Proof.
  intros lib thing. split.
  - rewrite _parseShowtimes_throws. split; intros [el [Hin H]]; exists el;
      (split; [exact Hin|]).
    + destruct (a_href el) as [h|]; [right | now left].
      destruct H as [e He]. now exists h, e.
    + destruct H as [-> | [h [e [-> He]]]]; cbn; eauto.
  - intros response. unfold _parseShowtimes.
    destruct (fl_links thing) as [|el target] eqn:E.
    + intros [= <-]. simpl. tauto.
    + destruct (map_outcome (ticket_item lib) (el :: target)) as [items|]; simpl;
        [|discriminate].
      destruct (map_getTime_tickets None [] (rev items)).
      intros [= <-]. simpl. split; discriminate.
Qed.

(** With a ticket link that has no [href], and with one whose [href] the
    library refuses. *)
Lemma X4_witness :
  (exists e,
      _parseShowtimes blank_library
        {| fl_links := [{| a_text := lit "7:00pm"; a_href := None |}];
           times_text := lit "7:00pm" |} = Throw e) /\
  (exists e,
      _parseShowtimes strict_library
        {| fl_links := [{| a_text := lit "7:00pm"; a_href := Some (lit "http://[") |}];
           times_text := lit "7:00pm" |} = Throw e).
Proof.
  split.
  - apply (proj1 (X4_showtimes_throw_on_refused_href blank_library _)).
    eexists. split; [left; reflexivity | now left].
  - apply (proj1 (X4_showtimes_throw_on_refused_href strict_library _)).
    eexists. split; [left; reflexivity | right].
    eexists. eexists. split; reflexivity.
Defined.

Lemma str_eqb_refl (k : jsstring) : str_eqb k k = true.
Proof. unfold str_eqb. destruct (str_eq_dec k k); [reflexivity | contradiction]. Qed.

Lemma str_eqb_neq (k k' : jsstring) : k <> k' -> str_eqb k k' = false.
Proof. unfold str_eqb. destruct (str_eq_dec k k'); [contradiction | reflexivity]. Qed.

Lemma str_eqb_eq (k k' : jsstring) : str_eqb k k' = true -> k = k'.
Proof. unfold str_eqb. destruct (str_eq_dec k k'); [trivial | discriminate]. Qed.

Lemma obj_get_put_same (k : jsstring) (v : jsval) (o : object) :
  obj_get k (obj_put k v o) = Some v.
Proof.
  unfold obj_get. induction o as [|[k' v'] o IH]; simpl.
  - now rewrite str_eqb_refl.
  - destruct (str_eqb k k') eqn:E; simpl; rewrite E; [reflexivity | exact IH].
Qed.

Lemma obj_get_put_other (k k' : jsstring) (v : jsval) (o : object) :
  k <> k' -> obj_get k (obj_put k' v o) = obj_get k o.
Proof.
  intros Hk. unfold obj_get. induction o as [|[k2 v2] o IH]; simpl.
  - now rewrite (str_eqb_neq _ _ Hk).
  - destruct (str_eqb k' k2) eqn:E2; simpl.
    + apply str_eqb_eq in E2. subst k2. now rewrite (str_eqb_neq _ _ Hk).
    + destruct (str_eqb k k2); [reflexivity | exact IH].
Qed.

Lemma obj_put_keys (k k' : jsstring) (v : jsval) (o : object) :
  In k (map fst (obj_put k' v o)) <-> k = k' \/ In k (map fst o).
Proof.
  induction o as [|[k2 v2] o IH]; cbn [obj_put map fst In].
  - intuition.
  - destruct (str_eqb k' k2) eqn:E2; cbn [map fst In].
    + apply str_eqb_eq in E2. subst k2. intuition.
    + rewrite IH. intuition.
Qed.

Lemma obj_put_nodup (k : jsstring) (v : jsval) (o : object) :
  NoDup (map fst o) -> NoDup (map fst (obj_put k v o)).
Proof.
  induction o as [|[k2 v2] o IH]; cbn [obj_put map fst]; intros H.
  - constructor; [intros [] | constructor].
  - inversion H as [|? ? Hnot Hrest]; subst.
    destruct (str_eqb k k2) eqn:E2; cbn [map fst].
    + now constructor.
    + constructor; [|now apply IH].
      intros Hin. apply obj_put_keys in Hin as [Heq | Hin]; [|contradiction].
      subst k2. rewrite str_eqb_refl in E2. discriminate.
Qed.

(** The same for an assignment, which does nothing for "__proto__". *)
Lemma obj_get_set_same (k : jsstring) (v : jsval) (o : object) :
  k <> lit "__proto__" -> obj_get k (obj_set k v o) = Some v.
Proof.
  intros Hk. unfold obj_set. rewrite (str_eqb_neq _ _ Hk). apply obj_get_put_same.
Qed.

Lemma obj_get_set_other (k k' : jsstring) (v : jsval) (o : object) :
  k <> k' -> obj_get k (obj_set k' v o) = obj_get k o.
Proof.
  intros Hk. unfold obj_set. destruct (str_eqb k' (lit "__proto__")); [reflexivity|].
  now apply obj_get_put_other.
Qed.

Lemma obj_set_keys (k k' : jsstring) (v : jsval) (o : object) :
  In k (map fst (obj_set k' v o))
  <-> (k = k' /\ k <> lit "__proto__") \/ In k (map fst o).
Proof.
  unfold obj_set. destruct (str_eqb k' (lit "__proto__")) eqn:E.
  - apply str_eqb_eq in E. subst k'. intuition.
  - rewrite obj_put_keys. split; [|intuition].
    intros [-> | H]; [left | now right]. split; [reflexivity|].
    intros Heq. rewrite Heq, str_eqb_refl in E. discriminate.
Qed.

Lemma obj_set_nodup (k : jsstring) (v : jsval) (o : object) :
  NoDup (map fst o) -> NoDup (map fst (obj_set k v o)).
Proof.
  unfold obj_set. destruct (str_eqb k (lit "__proto__")); [trivial|].
  apply obj_put_nodup.
Qed.

Lemma set_all_keys (pairs : list (jsstring * jsval)) :
  forall o k,
    In k (map fst (set_all pairs o))
    <-> (In k (map fst pairs) /\ k <> lit "__proto__") \/ In k (map fst o).
Proof.
  unfold set_all. induction pairs as [|[k' v] pairs IH]; intros o k; cbn [fold_left map fst snd In].
  - intuition.
  - rewrite IH, obj_set_keys. intuition.
Qed.

Lemma set_all_nodup (pairs : list (jsstring * jsval)) :
  forall o, NoDup (map fst o) -> NoDup (map fst (set_all pairs o)).
Proof.
  unfold set_all. induction pairs as [|[k v] pairs IH]; intros o H; cbn [fold_left fst snd].
  - exact H.
  - apply IH, obj_set_nodup, H.
Qed.

Lemma set_all_other (pairs : list (jsstring * jsval)) :
  forall o k, ~ In k (map fst pairs) -> obj_get k (set_all pairs o) = obj_get k o.
Proof.
  unfold set_all. induction pairs as [|[k' v] pairs IH]; intros o k Hk;
    cbn [fold_left map fst snd In] in *; [reflexivity|].
  rewrite IH by tauto. apply obj_get_set_other. intros ->. tauto.
Qed.

Lemma set_all_last (a b : list (jsstring * jsval)) (k : jsstring) (v : jsval)
    (o : object) :
  k <> lit "__proto__" ->
  ~ In k (map fst b) -> obj_get k (set_all (a ++ (k, v) :: b) o) = Some v.
Proof.
  intros Hk Hb. unfold set_all. rewrite fold_left_app. cbn [fold_left fst snd].
  fold (set_all b (obj_set k v (fold_left (fun o p => obj_set (fst p) (snd p) o) a o))).
  rewrite set_all_other by exact Hb. now apply obj_get_set_same.
Qed.

Lemma map_getTime_length (raw : list jsstring) :
  forall m, length (map_getTime m raw) = length raw.
Proof.
  induction raw as [|r raw IH]; intros m; [reflexivity|]. cbn [map_getTime].
  destruct (getTime m r). cbn [length]. now rewrite IH.
Qed.

Lemma map_getTime_tickets_fold (items : list (jsstring * jsval)) :
  forall m o,
    map_getTime_tickets m o items
    = (map_getTime m (map fst items),
       set_all (combine (map_getTime m (map fst items)) (map snd items)) o).
Proof.
  induction items as [|[time url] items IH]; intros m o; [reflexivity|].
  cbn [map_getTime_tickets map fst snd map_getTime].
  destruct (getTime m time) as [t m']. rewrite IH. reflexivity.
Qed.

Lemma combine_app_same {A B} (a a' : list A) (b b' : list B) :
  length a = length b ->
  combine (a ++ a') (b ++ b') = combine a b ++ combine a' b'.
Proof.
  revert b. induction a as [|x a IH]; intros [|y b] H; simpl in *; try discriminate;
    [reflexivity|]. f_equal. apply IH. lia.
Qed.

Lemma combine_keys {A B} (a : list A) (b : list B) (k : A) :
  In k (map fst (combine a b)) -> In k a.
Proof.
  intros H. apply in_map_iff in H as [[x y] [<- Hin]].
  exact (in_combine_l _ _ _ _ Hin).
Qed.

Lemma combine_fst {A B} (a : list A) (b : list B) :
  length a = length b -> map fst (combine a b) = a.
Proof.
  revert b. induction a as [|x a IH]; intros [|y b] H; simpl in *; try discriminate;
    [reflexivity|]. f_equal. apply IH. lia.
Qed.

(** The item of each ticket link: its text and the "q" parameter of its
    [href]. *)
Lemma ticket_items_nth (lib : Library) (target : list Anchor) :
  forall items n el,
    map_outcome (ticket_item lib) target = Ok items ->
    nth_error target n = Some el ->
    exists h query,
      a_href el = Some h /\
      url_query lib h = Ok query /\
      nth_error items n = Some (a_text el, qs_parse lib query (lit "q")).
Proof.
  induction target as [|x target IH]; intros items n el H Hn.
  - destruct n; discriminate.
  - cbn [map_outcome] in H. unfold ticket_item at 1, url_parse_arg in H.
    destruct (a_href x) as [h|] eqn:Eh; simpl in H; [|discriminate].
    destruct (url_query lib h) as [query|] eqn:Eq; simpl in H; [|discriminate].
    destruct (map_outcome (ticket_item lib) target) as [rest|] eqn:Er; simpl in H;
      [|discriminate].
    inversion H; subst items. destruct n as [|n]; simpl in Hn |- *.
    + inversion Hn; subst x. eauto.
    + exact (IH rest n el eq_refl Hn).
Qed.

Lemma ticket_items_length (lib : Library) (target : list Anchor) :
  forall items,
    map_outcome (ticket_item lib) target = Ok items -> length items = length target.
Proof.
  intros items H. rewrite <- (length_map fst), (ticket_items_texts lib target H).
  apply length_map.
Qed.

(** X5.  The map of ticket URLs has one key for each distinct time of
    the list of showtimes other than "__proto__", and no other key: an
    assignment to "__proto__" creates no property.  When several ticket
    links come out as the same time, the map keeps the URL of the first
    of them in the order of the page. *)
Theorem X5_ticket_map :
  forall (lib : Library) (thing : Times) (response : ShowtimesResponse)
         (tickets : object),
    _parseShowtimes lib thing = Ok response ->
    showtime_tickets response = Some tickets ->
    NoDup (map fst tickets) /\
    (forall k, In k (map fst tickets)
               <-> In k (showtimes response) /\ k <> lit "__proto__") /\
    (forall pre time post el,
        showtimes response = pre ++ time :: post ->
        ~ In time pre ->
        time <> lit "__proto__" ->
        nth_error (fl_links thing) (length pre) = Some el ->
        exists h query,
          a_href el = Some h /\
          url_query lib h = Ok query /\
          obj_get time tickets = Some (qs_parse lib query (lit "q"))).
Proof.
  intros lib thing response tickets H Ht. unfold _parseShowtimes in H.
  destruct (fl_links thing) as [|l0 target0] eqn:E.
  { inversion H; subst response. discriminate Ht. }
  rewrite <- E in *. clear E l0 target0.
  destruct (map_outcome (ticket_item lib) (fl_links thing)) as [items|] eqn:Hi;
    simpl in H; [|discriminate].
  rewrite map_getTime_tickets_fold in H. inversion H; subst response. clear H.
  cbn [showtime_tickets showtimes] in *. inversion Ht; subst tickets. clear Ht.
  set (T := map_getTime None (map fst (rev items))).
  assert (HlenT : length T = length items).
  { unfold T. now rewrite map_getTime_length, length_map, length_rev. }
  assert (Hlen : length T = length (map snd (rev items))).
  { now rewrite length_map, length_rev. }
  split; [apply set_all_nodup; constructor|].
  split.
  - intros k. rewrite set_all_keys, (combine_fst _ _ Hlen), <- in_rev.
    cbn [map In]. tauto.
  - intros pre time post el Hsplit Hfirst Hproto Hel.
    destruct (ticket_items_nth lib _ _ _ _ Hi Hel) as [h [query [Hh [Hq Hitem]]]].
    exists h, query. split; [exact Hh|]. split; [exact Hq|].
    assert (HT : T = rev post ++ time :: rev pre).
    { rewrite <- (rev_involutive T), Hsplit, rev_app_distr. cbn [rev].
      now rewrite <- app_assoc. }
    destruct (nth_error_split _ _ Hitem) as [ipre [ipost [Hitems Hipre]]].
    assert (Hposts : length (rev post) = length (map snd (rev ipost))).
    { rewrite length_map, !length_rev.
      rewrite HT, Hitems, !length_app in HlenT. cbn [length] in HlenT.
      rewrite !length_rev in HlenT. lia. }
    rewrite HT, Hitems, rev_app_distr. cbn [rev]. rewrite <- app_assoc. cbn [app].
    rewrite map_app. cbn [map snd].
    rewrite (combine_app_same _ _ _ _ Hposts). cbn [combine].
    apply set_all_last; [exact Hproto|]. intros Hin. apply combine_keys in Hin.
    apply in_rev in Hin. contradiction.
Qed.

(** Two ticket links for "7:00pm": the map keeps the URL of the first.
    A ticket link whose text is "__proto__": the time is listed, the map
    has no key for it. *)
Lemma X5_witness :
  obj_get (lit "7:00pm") [(lit "7:00pm", JStr (lit "first"))]
  = Some (JStr (lit "first")) /\
  (_parseShowtimes (site []) proto_sold
   = Ok {| showtimes := [lit "__proto__"]; showtime_tickets := Some [] |} /\
   ~ In (lit "__proto__") (map fst (@nil (jsstring * jsval)))).
Proof.
  split.
  - destruct (X5_ticket_map (site []) twice_sold
                {| showtimes := [lit "7:00pm"; lit "7:00pm"];
                   showtime_tickets := Some [(lit "7:00pm", JStr (lit "first"))] |}
                [(lit "7:00pm", JStr (lit "first"))] eq_refl eq_refl)
      as [_ [_ Hfirst]].
    destruct (Hfirst [] (lit "7:00pm") [lit "7:00pm"]
                {| a_text := lit "7:00"; a_href := Some (lit "/url?q=first") |}
                eq_refl (fun H => H)) as [h [query [Hh [Hq Hget]]]];
      [discriminate | reflexivity|].
    inversion Hh; subst h. inversion Hq; subst query. exact Hget.
  - split; [reflexivity|].
    destruct (X5_ticket_map (site []) proto_sold
                {| showtimes := [lit "__proto__"]; showtime_tickets := Some [] |}
                [] eq_refl eq_refl) as [_ [Hkeys _]].
    intros Hin. apply Hkeys in Hin as [_ Hne]. now apply Hne.
Defined.
(* ================================================================== *)
(** ** Further properties: what the extractors throw and keep *)
(* ================================================================== *)

Lemma is_empty_nil (s : jsstring) : is_empty s = true <-> s = [].
Proof. destruct s; simpl; split; congruence. Qed.

Lemma is_empty_not_nil (s : jsstring) : is_empty s = false <-> s <> [].
Proof. destruct s; simpl; split; congruence. Qed.










Lemma split_go_no_separator (sep : jsstring) (s : jsstring) :
  forall cur, includes sep s = false -> split_go sep 0 cur s = [rev cur ++ s].
Proof.
  induction s as [|c s IH]; intros cur H.
  - simpl. now rewrite app_nil_r.
  - cbn [includes] in H. apply orb_false_iff in H as [Hm Hs].
    cbn [split_go]. rewrite Hm, IH by exact Hs. cbn [rev].
    now rewrite <- app_assoc.
Qed.

Lemma split_no_separator (sep s : jsstring) :
  includes sep s = false -> split sep s = [s].
Proof. intros H. unfold split. now rewrite split_go_no_separator. Qed.

Lemma each_movie_names (lib : Library) (doc : Page) (l : list Movie) :
  forall movies,
    each_movie lib doc l = Ok movies ->
    map mv_name movies = filter (fun n => negb (is_empty n)) (map m_name l).
Proof.
  induction l as [|m l IH]; intros movies H.
  - inversion H. reflexivity.
  - cbn [each_movie map filter] in *.
    destruct (_parseMovie lib doc m false None) as [[r|e] m'] eqn:E; cbn in H;
      [|discriminate].
    destruct (each_movie lib doc l) as [rest|] eqn:Er; cbn in H; [|discriminate].
    specialize (IH rest eq_refl).
    pose proof (_parseMovie_refusal _ _ _ _ _ E) as Href. cbv beta iota in Href.
    destruct r as [movieData|].
    + destruct (_parseMovie_record _ _ _ _ _ _ _ E) as [Hname [Hne _]].
      cbv beta iota in Hname. rewrite <- Hname, Hne. cbn [negb].
      inversion H; subst movies. cbn [map]. now rewrite IH.
    + rewrite (proj1 Href eq_refl). cbn [negb]. inversion H; subst movies. exact IH.
Qed.

Lemma each_movie_thrown (lib : Library) (doc : Page) (l : list Movie) (e : exn) :
  each_movie lib doc l = Throw e ->
  exists m, In m l /\ fst (_parseMovie lib doc m false None) = Throw e.
Proof.
  induction l as [|m l IH]; [discriminate|]. cbn [each_movie].
  destruct (fst (_parseMovie lib doc m false None)) as [r|e0] eqn:E; cbn.
  - destruct (each_movie lib doc l) as [rest|e1]; cbn; [discriminate|].
    intros [= <-]. destruct (IH eq_refl) as [x [Hin Hx]].
    exists x. split; [now right | exact Hx].
  - intros [= <-]. exists m. split; [now left | exact E].
Qed.

Lemma resolve_theater_id_thrown (lib : Library) (doc : Page) (theater : Theater)
    (alternate : bool) (e : exn) :
  resolve_theater_id lib doc theater alternate = Throw e <->
  exists u, theater_link doc theater alternate = Some u /\ u <> [] /\
            url_parse_query lib u = Throw e.
Proof.
  unfold resolve_theater_id, theater_link.
  replace (if alternate then attr_href (t_name_links theater)
           else attr_href (t_desc_name_links theater))
    with (attr_href (if alternate then t_name_links theater
                     else t_desc_name_links theater))
    by (destruct alternate; reflexivity).
  set (own := attr_href (if alternate then t_name_links theater
                         else t_desc_name_links theater)).
  set (x := match own with Some _ => own | None => attr_href (p_left_nav_links doc) end).
  replace (match own with Some u => Some u | None => attr_href (p_left_nav_links doc) end)
    with x by (unfold x; now destruct own).
  destruct x as [u|].
  - destruct (is_empty u) eqn:Eu.
    + apply is_empty_nil in Eu. split; [discriminate|].
      intros [u' [[= <-] [Hne _]]]. contradiction.
    + apply is_empty_not_nil in Eu.
      destruct (url_parse_query lib u) as [query|e0] eqn:Eq; cbn.
      * split; [discriminate|]. intros [u' [[= <-] [_ H]]]. congruence.
      * split.
        -- intros [= <-]. now exists u.
        -- intros [u' [[= <-] [_ H]]]. congruence.
  - split; [discriminate | intros [u [H _]]; discriminate].
Qed.

(** X8.  The theater of a theater-first page: its name is the text of
    its heading; its movies are the nested movies that have a name, in
    the order of the page, the others being left out; a given id is
    stored as it is.  It throws in two cases only: no id is given and
    [url.parse] throws on the link of the theater (its own or, when it
    has none, the first of the sidebar), which is not the empty string;
    or the extraction of one of the nested movies throws.  When the info
    line holds no " - ", the whole line, trimmed, is the address and the
    phone number is empty. *)
Theorem X8_theater_record :
  forall (lib : Library) (doc : Page) (theater : Theater) (theaterId : option jsstring),
    match _parseTheater lib doc theater false theaterId with
    | Ok (FullTheater t) =>
        th_name t = t_desc_name theater /\
        map mv_name (th_movies t)
        = filter (fun n => negb (is_empty n)) (map m_name (t_movies theater)) /\
        (forall given, theaterId = Some given -> th_id t = JStr given) /\
        (includes (lit " - ") (t_desc_info theater) = false ->
         th_address t = trim (t_desc_info theater) /\ th_phoneNumber t = [])
    | Ok (AltTheater _) => False
    | Throw e =>
        (theaterId = None /\
         exists u, theater_link doc theater false = Some u /\ u <> [] /\
                   url_parse_query lib u = Throw e) \/
        (exists m, In m (t_movies theater) /\
                   fst (_parseMovie lib doc m false None) = Throw e)
    end.
Proof.
  intros lib doc theater theaterId. unfold _parseTheater, given_or.
  destruct theaterId as [given|].
  - cbn [bind].
    destruct (each_movie lib doc (t_movies theater)) as [movies|e] eqn:E; cbn.
    + split; [reflexivity|]. split; [exact (each_movie_names lib doc _ _ E)|].
      split; [intros given' [= <-]; reflexivity|].
      intros Hsep. rewrite (split_no_separator _ _ Hsep). unfold trim_token. cbn.
      split; [|reflexivity].
      destruct (is_empty (t_desc_info theater)) eqn:Ee; [|reflexivity].
      apply is_empty_nil in Ee. now rewrite Ee.
    + right. exact (each_movie_thrown lib doc _ e E).
  - destruct (resolve_theater_id lib doc theater false) as [id|e] eqn:Eid; cbn [bind].
    + destruct (each_movie lib doc (t_movies theater)) as [movies|e] eqn:E; cbn.
      * split; [reflexivity|]. split; [exact (each_movie_names lib doc _ _ E)|].
        split; [intros given' H; discriminate H|].
        intros Hsep. rewrite (split_no_separator _ _ Hsep). unfold trim_token. cbn.
        split; [|reflexivity].
        destruct (is_empty (t_desc_info theater)) eqn:Ee; [|reflexivity].
        apply is_empty_nil in Ee. now rewrite Ee.
      * right. exact (each_movie_thrown lib doc _ e E).
    + left. split; [reflexivity|]. now apply resolve_theater_id_thrown.
Qed.

(** On a theater whose info line is its address only; and on a theater
    whose link the library cannot parse. *)
Lemma X8_witness :
  match _parseTheater blank_library blank_page corner_theater false None with
  | Ok (FullTheater t) => th_address t = lit "1 Main St" /\ th_phoneNumber t = []
  | _ => False
  end /\
  match _parseTheater strict_library blank_page barred_theater false None with
  | Throw e => url_parse_query strict_library (lit "http://[") = Throw e
  | _ => False
  end.
Proof.
  split.
  - pose proof (X8_theater_record blank_library blank_page corner_theater None) as H.
    destruct (_parseTheater blank_library blank_page corner_theater false None)
      as [[t|t]|e] eqn:E.
    + vm_compute in E. discriminate E.
    + destruct H as [_ [_ [_ H]]]. exact (H eq_refl).
    + vm_compute in E. discriminate E.
  - pose proof (X8_theater_record strict_library blank_page barred_theater None) as H.
    destruct (_parseTheater strict_library blank_page barred_theater false None)
      as [[t|t]|e] eqn:E.
    + vm_compute in E. discriminate E.
    + vm_compute in E. discriminate E.
    + destruct H as [[_ [u [Hu [_ He]]]] | [m [[] _]]].
      vm_compute in Hu. inversion Hu; subst u. exact He.
Defined.
(* ================================================================== *)
(** ** Further properties: the listings, whatever the site answers *)
(* ================================================================== *)

Lemma set_theaters_same (api : Instance) : set_theaters api (theaters api) = api.
Proof. now destruct api. Qed.

Lemma set_movies_same (api : Instance) : set_movies api (movies api) = api.
Proof. now destruct api. Qed.

(** The loops of the handlers change the accumulator only. *)
Lemma each_theater_frame (lib : Library) (doc : Page) (l : list Theater) :
  forall api,
    snd (each_theater lib doc api l)
    = set_theaters api (theaters (snd (each_theater lib doc api l))).
Proof.
  induction l as [|t l IH]; intros api; cbn [each_theater].
  - cbn. now rewrite set_theaters_same.
  - destruct (_parseTheater lib doc t false None) as [td|e].
    + destruct (length (theater_name td) =? 0)%nat; [apply IH|].
      rewrite IH at 1. reflexivity.
    + cbn. now rewrite set_theaters_same.
Qed.

Lemma each_page_movie_frame (lib : Library) (doc : Page) (l : list Movie) :
  forall api,
    snd (each_page_movie lib doc api l)
    = set_movies api (movies (snd (each_page_movie lib doc api l))).
Proof.
  induction l as [|m l IH]; intros api; cbn [each_page_movie].
  - cbn. now rewrite set_movies_same.
  - destruct (_parseMovie lib doc m true None) as [[[movieData|]|e] m'].
    + destruct (nested_theaters lib doc m') as [ts|e].
      * rewrite IH at 1. reflexivity.
      * cbn. now rewrite set_movies_same.
    + apply IH.
    + cbn. now rewrite set_movies_same.
Qed.

(** What one page of [getTheaters] can end with: the query is the one
    of the page; the handler never leaves the call pending; it goes on
    only below or above the limit, with the next page number. *)
Lemma getTheaters_page_shape (lib : Library) (api : Instance) (query : option jsstring)
    (p : Z) (acc : list TheaterData) :
  fst (getTheaters_page lib (enter_getTheaters api (Some (p, acc))) query)
  = page_query api (P_q query) p /\
  match snd (getTheaters_page lib (enter_getTheaters api (Some (p, acc))) query) with
  | Done e _ => e <> Pending
  | Again api' =>
      api' = set_theaters (set_page api (Some (Z.succ p))) (theaters api') /\
      p <> pageLimit api
  end.
Proof.
  unfold getTheaters_page.
  set (a0 := enter_getTheaters api (Some (p, acc))).
  pose proof (_request_query lib a0 (P_q query)) as Hq.
  change (build_query a0 (P_q query)) with (page_query api (P_q query) p) in Hq.
  destruct (_request lib a0 (P_q query)) as [q [e|response]] eqn:Er; cbn [fst] in Hq;
    subst q.
  - split; [reflexivity|]. cbn [snd].
    unfold _request in Er. destruct (request lib _); [|destruct (_ =? _)%Z];
      inversion Er; discriminate.
  - cbv zeta.
    destruct (length (p_theaters _) =? 0)%nat; [split; [reflexivity | discriminate]|].
    destruct (page_header _) as [[loc day]|e]; [|split; [reflexivity | discriminate]].
    match goal with |- context [each_theater lib ?d a0 ?l] =>
      pose proof (each_theater_frame lib d l a0) as Hframe;
      destruct (each_theater lib d a0 l) as [[u|e] api1] end;
      [|split; [reflexivity | discriminate]].
    cbn [snd] in Hframe.
    destruct (length (next_links _) =? 0)%nat; cbn [orb];
      [split; [reflexivity | discriminate]|].
    destruct (at_limit api1) eqn:Hl; [split; [reflexivity | discriminate]|].
    split; [reflexivity|]. cbn [snd]. rewrite Hframe in Hl |- *. split.
    + reflexivity.
    + cbn in Hl. intros Heq. rewrite Heq, Z.eqb_refl in Hl. discriminate.
Qed.

Lemma getMovies_page_shape (lib : Library) (api : Instance) (query : option jsstring)
    (p : Z) (acc : list MovieData) :
  fst (getMovies_page lib (enter_getMovies api (Some (p, acc))) query)
  = page_query api (P_sort_q query) p /\
  match snd (getMovies_page lib (enter_getMovies api (Some (p, acc))) query) with
  | Done e _ => e <> Pending
  | Again api' =>
      api' = set_movies (set_page api (Some (Z.succ p))) (movies api') /\
      p <> pageLimit api
  end.
Proof.
  unfold getMovies_page.
  set (a0 := enter_getMovies api (Some (p, acc))).
  pose proof (_request_query lib a0 (P_sort_q query)) as Hq.
  change (build_query a0 (P_sort_q query)) with (page_query api (P_sort_q query) p) in Hq.
  destruct (_request lib a0 (P_sort_q query)) as [q [e|response]] eqn:Er; cbn [fst] in Hq;
    subst q.
  - split; [reflexivity|]. cbn [snd].
    unfold _request in Er. destruct (request lib _); [|destruct (_ =? _)%Z];
      inversion Er; discriminate.
  - cbv zeta.
    destruct (length (p_movies _) =? 0)%nat; [split; [reflexivity | discriminate]|].
    destruct (page_header _) as [[loc day]|e]; [|split; [reflexivity | discriminate]].
    match goal with |- context [each_page_movie lib ?d a0 ?l] =>
      pose proof (each_page_movie_frame lib d l a0) as Hframe;
      destruct (each_page_movie lib d a0 l) as [[u|e] api1] end;
      [|split; [reflexivity | discriminate]].
    cbn [snd] in Hframe.
    destruct (length (next_links _) =? 0)%nat; cbn [orb];
      [split; [reflexivity | discriminate]|].
    destruct (at_limit api1) eqn:Hl; [split; [reflexivity | discriminate]|].
    split; [reflexivity|]. cbn [snd]. rewrite Hframe in Hl |- *. split.
    + reflexivity.
    + cbn in Hl. intros Heq. rewrite Heq, Z.eqb_refl in Hl. discriminate.
Qed.

Lemma getTheaters_offsets (lib : Library) (query : option jsstring) :
  forall fuel api p acc,
    let run := getTheaters lib fuel api query (Some (p, acc)) in
    let n := length (fetched run) in
    fetched run = map (fun i => page_query api (P_q query) (p + Z.of_nat i)) (seq 0 n) /\
    1 <= n <= S fuel /\
    ((p <= pageLimit api)%Z -> (Z.of_nat n <= pageLimit api - p + 1)%Z) /\
    (ended run = Pending -> n = S fuel).
Proof.
  induction fuel as [|fuel IH]; intros api p acc; cbn zeta; cbn [getTheaters];
    destruct (getTheaters_page_shape lib api query p acc) as [Hq Hs];
    destruct (getTheaters_page lib (enter_getTheaters api (Some (p, acc))) query)
      as [q [e a'|a']]; cbn [fst snd] in Hq, Hs; subst q.
  - cbn. rewrite Z.add_0_r. repeat split; try lia; try (intros; contradiction).
  - destruct (page a'); cbn; rewrite Z.add_0_r; repeat split; lia.
  - cbn. rewrite Z.add_0_r. repeat split; try lia; try (intros; contradiction).
  - destruct Hs as [Ha Hp]. rewrite Ha. cbn [page set_theaters set_page theaters].
    rewrite getTheaters_hidden.
    destruct (IH api (Z.succ p) (theaters a')) as [Hf [Hn [Hl Hpend]]].
    cbn [then_run fetched ended length]. split; [|split; [lia|split]].
    + rewrite Hf at 1. cbn [seq map]. rewrite Z.add_0_r. f_equal.
      rewrite <- seq_shift, map_map. apply map_ext. intros i. f_equal. lia.
    + intros Hle. assert (Hlt : (Z.succ p <= pageLimit api)%Z) by lia.
      specialize (Hl Hlt). lia.
    + intros Hpe. now rewrite (Hpend Hpe).
Qed.

Lemma getMovies_offsets (lib : Library) (query : option jsstring) :
  forall fuel api p acc,
    let run := getMovies lib fuel api query (Some (p, acc)) in
    let n := length (fetched run) in
    fetched run
    = map (fun i => page_query api (P_sort_q query) (p + Z.of_nat i)) (seq 0 n) /\
    1 <= n <= S fuel /\
    ((p <= pageLimit api)%Z -> (Z.of_nat n <= pageLimit api - p + 1)%Z) /\
    (ended run = Pending -> n = S fuel).
Proof.
  induction fuel as [|fuel IH]; intros api p acc; cbn zeta; cbn [getMovies];
    destruct (getMovies_page_shape lib api query p acc) as [Hq Hs];
    destruct (getMovies_page lib (enter_getMovies api (Some (p, acc))) query)
      as [q [e a'|a']]; cbn [fst snd] in Hq, Hs; subst q.
  - cbn. rewrite Z.add_0_r. repeat split; try lia; try (intros; contradiction).
  - destruct (page a'); cbn; rewrite Z.add_0_r; repeat split; lia.
  - cbn. rewrite Z.add_0_r. repeat split; try lia; try (intros; contradiction).
  - destruct Hs as [Ha Hp]. rewrite Ha. cbn [page set_movies set_page movies].
    rewrite getMovies_hidden.
    destruct (IH api (Z.succ p) (movies a')) as [Hf [Hn [Hl Hpend]]].
    cbn [then_run fetched ended length]. split; [|split; [lia|split]].
    + rewrite Hf at 1. cbn [seq map]. rewrite Z.add_0_r. f_equal.
      rewrite <- seq_shift, map_map. apply map_ext. intros i. f_equal. lia.
    + intros Hle. assert (Hlt : (Z.succ p <= pageLimit api)%Z) by lia.
      specialize (Hl Hlt). lia.
    + intros Hpe. now rewrite (Hpend Hpe).
Qed.

(** X9.  Whatever the site answers, a listing fetches the pages
    1, 2, 3, ... in this order and each once: its k-th fetch asks for the
    start offset 10 (k - 1), with the language, the location and the date
    of the instance and the query of the caller.  There is at least one
    fetch. *)
Theorem X9_listing_fetches_in_order :
  forall (lib : Library) (fuel : nat) (api : Instance) (query : option jsstring),
    (fetched (getTheaters lib fuel api query None)
     = map (page_query api (P_q query))
           (page_numbers (length (fetched (getTheaters lib fuel api query None)))) /\
     1 <= length (fetched (getTheaters lib fuel api query None))) /\
    (fetched (getMovies lib fuel api query None)
     = map (page_query api (P_sort_q query))
           (page_numbers (length (fetched (getMovies lib fuel api query None)))) /\
     1 <= length (fetched (getMovies lib fuel api query None))).
Proof.
  intros lib fuel api query. split.
  - rewrite getTheaters_first_page.
    destruct (getTheaters_offsets lib query fuel api 1%Z []) as [Hf [Hn _]].
    split; [|lia]. rewrite Hf at 1. unfold page_numbers. rewrite map_map.
    apply map_ext. intros i. f_equal. lia.
  - rewrite getMovies_first_page.
    destruct (getMovies_offsets lib query fuel api 1%Z []) as [Hf [Hn _]].
    split; [|lia]. rewrite Hf at 1. unfold page_numbers. rewrite map_map.
    apply map_ext. intros i. f_equal. lia.
Qed.

(** X10.  With a page limit of at least 1 a listing never fetches more
    pages than the limit, whatever the site answers, also when every
    page shows "Next"; and it comes to an end: with as much fuel as the
    limit, the call is not left pending. *)
Theorem X10_page_limit_is_kept :
  forall (lib : Library) (fuel : nat) (api : Instance) (query : option jsstring),
    (1 <= pageLimit api)%Z ->
    ((Z.of_nat (length (fetched (getTheaters lib fuel api query None)))
      <= pageLimit api)%Z /\
     ((pageLimit api <= Z.of_nat fuel)%Z ->
      ended (getTheaters lib fuel api query None) <> Pending)) /\
    ((Z.of_nat (length (fetched (getMovies lib fuel api query None)))
      <= pageLimit api)%Z /\
     ((pageLimit api <= Z.of_nat fuel)%Z ->
      ended (getMovies lib fuel api query None) <> Pending)).
Proof.
  intros lib fuel api query Hlimit. split.
  - rewrite getTheaters_first_page.
    destruct (getTheaters_offsets lib query fuel api 1%Z []) as [_ [_ [Hl Hp]]].
    specialize (Hl Hlimit). split; [lia|]. intros Hfuel Hpending.
    specialize (Hp Hpending). lia.
  - rewrite getMovies_first_page.
    destruct (getMovies_offsets lib query fuel api 1%Z []) as [_ [_ [Hl Hp]]].
    specialize (Hl Hlimit). split; [lia|]. intros Hfuel Hpending.
    specialize (Hp Hpending). lia.
Qed.

(** On a site whose every page shows "Next", with the limit 3. *)
Lemma X10_witness :
  (Z.of_nat (length (fetched (getTheaters endless 5 (limited_api 3) None None))) <= 3)%Z /\
  ended (getTheaters endless 5 (limited_api 3) None None) <> Pending.
Proof.
  destruct (X10_page_limit_is_kept endless 5 (limited_api 3) None) as [[Hcount Hend] _].
  - cbn. lia.
  - split; [exact Hcount|]. apply Hend. cbn. lia.
Defined.

(** *** A listing does not depend on what earlier calls left behind *)

Lemma each_theater_movies (lib : Library) (doc : Page) (ms : list MovieData)
    (l : list Theater) :
  forall api,
    each_theater lib doc (set_movies api ms) l
    = (fst (each_theater lib doc api l), set_movies (snd (each_theater lib doc api l)) ms).
Proof.
  induction l as [|t l IH]; intros api; cbn [each_theater]; [reflexivity|].
  destruct (_parseTheater lib doc t false None) as [td|e]; [|reflexivity].
  destruct (length (theater_name td) =? 0)%nat; [apply IH|].
  change (set_theaters (set_movies api ms) (theaters (set_movies api ms) ++ [td]))
    with (set_movies (set_theaters api (theaters api ++ [td])) ms).
  apply IH.
Qed.

Lemma each_page_movie_theaters (lib : Library) (doc : Page) (ts : list TheaterData)
    (l : list Movie) :
  forall api,
    each_page_movie lib doc (set_theaters api ts) l
    = (fst (each_page_movie lib doc api l),
       set_theaters (snd (each_page_movie lib doc api l)) ts).
Proof.
  induction l as [|m l IH]; intros api; cbn [each_page_movie]; [reflexivity|].
  destruct (_parseMovie lib doc m true None) as [[[movieData|]|e] m'];
    [|apply IH|reflexivity].
  destruct (nested_theaters lib doc m') as [nested|e]; [|reflexivity].
  match goal with |- each_page_movie lib doc ?a l = _ =>
    change a with (set_theaters
                     (set_movies api
                        (movies api
                         ++ [with_theaters movieData nested
                               (negb (m_show_more m' =? 0)%nat)])) ts) end.
  apply IH.
Qed.

Lemma getTheaters_page_movies (lib : Library) (api : Instance)
    (query : option jsstring) (ms : list MovieData) :
  getTheaters_page lib (set_movies api ms) query
  = (fst (getTheaters_page lib api query),
     carry_movies ms (snd (getTheaters_page lib api query))).
Proof.
  unfold getTheaters_page.
  change (_request lib (set_movies api ms) (P_q query))
    with (_request lib api (P_q query)).
  destruct (_request lib api (P_q query)) as [q [e|response]]; [reflexivity|].
  change (lang (set_movies api ms)) with (lang api). cbv zeta.
  destruct (length (p_theaters _) =? 0)%nat; [reflexivity|].
  destruct (page_header _) as [[loc day]|e]; [|reflexivity].
  rewrite each_theater_movies.
  match goal with |- context [each_theater lib ?d api ?l] =>
    destruct (each_theater lib d api l) as [[u|e] api1] end; cbn [fst snd];
    [|reflexivity].
  change (at_limit (set_movies api1 ms)) with (at_limit api1).
  destruct ((length (next_links _) =? 0)%nat || at_limit api1); reflexivity.
Qed.

Lemma getMovies_page_theaters (lib : Library) (api : Instance)
    (query : option jsstring) (ts : list TheaterData) :
  getMovies_page lib (set_theaters api ts) query
  = (fst (getMovies_page lib api query),
     carry_theaters ts (snd (getMovies_page lib api query))).
Proof.
  unfold getMovies_page.
  change (_request lib (set_theaters api ts) (P_sort_q query))
    with (_request lib api (P_sort_q query)).
  destruct (_request lib api (P_sort_q query)) as [q [e|response]]; [reflexivity|].
  change (lang (set_theaters api ts)) with (lang api). cbv zeta.
  destruct (length (p_movies _) =? 0)%nat; [reflexivity|].
  destruct (page_header _) as [[loc day]|e]; [|reflexivity].
  rewrite each_page_movie_theaters.
  match goal with |- context [each_page_movie lib ?d api ?l] =>
    destruct (each_page_movie lib d api l) as [[u|e] api1] end; cbn [fst snd];
    [|reflexivity].
  change (at_limit (set_theaters api1 ts)) with (at_limit api1).
  destruct ((length (next_links _) =? 0)%nat || at_limit api1); reflexivity.
Qed.

Lemma getTheaters_movies (lib : Library) (query : option jsstring)
    (ms : list MovieData) :
  forall fuel api hidden,
    fetched (getTheaters lib fuel (set_movies api ms) query hidden)
    = fetched (getTheaters lib fuel api query hidden) /\
    ended (getTheaters lib fuel (set_movies api ms) query hidden)
    = ended (getTheaters lib fuel api query hidden).
Proof.
  induction fuel as [|fuel IH]; intros api hidden; cbn [getTheaters];
    (replace (enter_getTheaters (set_movies api ms) hidden)
      with (set_movies (enter_getTheaters api hidden) ms)
      by (destruct hidden as [[p ts]|]; reflexivity));
    rewrite getTheaters_page_movies;
    destruct (getTheaters_page lib (enter_getTheaters api hidden) query)
      as [q [e a'|a']]; cbn [fst snd carry_movies]; try (split; reflexivity).
  - change (page (set_movies a' ms)) with (page a').
    change (theaters (set_movies a' ms)) with (theaters a').
    destruct (page a') as [p|]; [|split; reflexivity].
    destruct (IH a' (Some (p, theaters a'))) as [Hf He].
    cbn [then_run fetched ended]. now rewrite Hf, He.
Qed.

Lemma getMovies_theaters (lib : Library) (query : option jsstring)
    (ts : list TheaterData) :
  forall fuel api hidden,
    fetched (getMovies lib fuel (set_theaters api ts) query hidden)
    = fetched (getMovies lib fuel api query hidden) /\
    ended (getMovies lib fuel (set_theaters api ts) query hidden)
    = ended (getMovies lib fuel api query hidden).
Proof.
  induction fuel as [|fuel IH]; intros api hidden; cbn [getMovies];
    (replace (enter_getMovies (set_theaters api ts) hidden)
      with (set_theaters (enter_getMovies api hidden) ts)
      by (destruct hidden as [[p ms]|]; reflexivity));
    rewrite getMovies_page_theaters;
    destruct (getMovies_page lib (enter_getMovies api hidden) query)
      as [q [e a'|a']]; cbn [fst snd carry_theaters]; try (split; reflexivity).
  - change (page (set_theaters a' ts)) with (page a').
    change (movies (set_theaters a' ts)) with (movies a').
    destruct (page a') as [p|]; [|split; reflexivity].
    destruct (IH a' (Some (p, movies a'))) as [Hf He].
    cbn [then_run fetched ended]. now rewrite Hf, He.
Qed.

Lemma getTheaters_reset (lib : Library) (fuel : nat) (api : Instance)
    (query : option jsstring) (x : option Z) (y : list TheaterData) :
  getTheaters lib fuel (set_theaters (set_page api x) y) query None
  = getTheaters lib fuel api query None.
Proof. destruct fuel; reflexivity. Qed.

Lemma getMovies_reset (lib : Library) (fuel : nat) (api : Instance)
    (query : option jsstring) (x : option Z) (y : list MovieData) :
  getMovies lib fuel (set_movies (set_page api x) y) query None
  = getMovies lib fuel api query None.
Proof. destruct fuel; reflexivity. Qed.

(** X11.  A listing does not depend on what earlier calls left on the
    instance: whatever the page counter and the two accumulators hold
    when [getTheaters] or [getMovies] is called, it issues the same
    fetches and ends in the same way. *)
Theorem X11_listing_ignores_earlier_calls :
  forall (lib : Library) (fuel : nat) (api : Instance) (query : option jsstring)
         (p : option Z) (ts : list TheaterData) (ms : list MovieData),
    let used := set_movies (set_theaters (set_page api p) ts) ms in
    fetched (getTheaters lib fuel used query None)
    = fetched (getTheaters lib fuel api query None) /\
    ended (getTheaters lib fuel used query None)
    = ended (getTheaters lib fuel api query None) /\
    fetched (getMovies lib fuel used query None)
    = fetched (getMovies lib fuel api query None) /\
    ended (getMovies lib fuel used query None)
    = ended (getMovies lib fuel api query None).
Proof.
  intros lib fuel api query p ts ms used. subst used.
  destruct (getTheaters_movies lib query ms fuel
              (set_theaters (set_page api p) ts) None) as [Hf He].
  rewrite Hf, He, getTheaters_reset. split; [reflexivity|]. split; [reflexivity|].
  change (set_movies (set_theaters (set_page api p) ts) ms)
    with (set_theaters (set_movies (set_page api p) ms) ts).
  destruct (getMovies_theaters lib query ts fuel
              (set_movies (set_page api p) ms) None) as [Hf' He'].
  rewrite Hf', He', getMovies_reset. split; reflexivity.
Qed.

(** *** A failure on a later page *)

(** The run of [getTheaters] over pages that all show "Next", below the
    limit: the pages are fetched and the call goes on with the page that
    follows them. *)
Lemma getTheaters_prefix (lib : Library) (api : Instance) (query : option jsstring)
    (pages : list Page) :
  forall fuel p acc,
    Forall (theater_page lib) pages ->
    Forall (fun pg => shows_next pg = true) pages ->
    (forall i pg, nth_error pages i = Some pg ->
                  serves lib api (P_q query) (p + Z.of_nat i) pg /\
                  (p + Z.of_nat i)%Z <> pageLimit api) ->
    length pages <= fuel ->
    exists acc',
      let rest := getTheaters lib (fuel - length pages) api query
                    (Some ((p + Z.of_nat (length pages))%Z, acc')) in
      length acc' = length acc + list_sum (map named_theaters pages) /\
      fetched (getTheaters lib fuel api query (Some (p, acc)))
      = map (fun i => page_query api (P_q query) (p + Z.of_nat i)) (seq 0 (length pages))
        ++ fetched rest /\
      ended (getTheaters lib fuel api query (Some (p, acc))) = ended rest.
Proof.
  induction pages as [|pg rest IH]; intros fuel p acc Hpages Hnext Hserved Hfuel.
  - exists acc. cbn. rewrite Z.add_0_r, Nat.sub_0_r. repeat split. lia.
  - inversion Hpages as [|? ? Hpg Hrest]; subst.
    inversion Hnext as [|? ? Hn Hnrest]; subst.
    destruct (Hserved 0%nat pg eq_refl) as [Hp Hlimit]. rewrite Z.add_0_r in Hp, Hlimit.
    destruct (getTheaters_page_read acc Hp Hpg) as [loc [day [l [Hlen Hstep]]]].
    rewrite Hn in Hstep. cbn [negb orb] in Hstep.
    destruct (Z.eqb_spec p (pageLimit api)) as [Heq | _]; [contradiction|].
    destruct fuel as [|fuel]; [cbn in Hfuel; lia|].
    cbn [getTheaters]. rewrite Hstep. cbn [page set_theaters set_page theaters].
    rewrite getTheaters_hidden.
    destruct (IH fuel (Z.succ p) (acc ++ l) Hrest Hnrest) as [acc' [Hacc [Hf He]]].
    + intros i pg' Hi. specialize (Hserved (S i) pg' Hi).
      now replace (Z.succ p + Z.of_nat i)%Z with (p + Z.of_nat (S i))%Z by lia.
    + cbn in Hfuel. lia.
    + exists acc'. cbn zeta in *.
      replace (p + Z.of_nat (length (pg :: rest)))%Z
        with (Z.succ p + Z.of_nat (length rest))%Z by (cbn [length]; lia).
      cbn [length Nat.sub then_run fetched ended]. split; [|split].
      * rewrite Hacc, length_app, Hlen. cbn [map]. 
        change (list_sum (named_theaters pg :: map named_theaters rest))
          with (named_theaters pg + list_sum (map named_theaters rest)). lia.
      * rewrite Hf. cbn [seq map app]. rewrite Z.add_0_r. f_equal. f_equal.
        rewrite <- seq_shift, map_map. apply map_ext. intros i. f_equal. lia.
      * exact He.
Qed.

Lemma getTheaters_failure_at (lib : Library) (fuel : nat) (api : Instance)
    (query : option jsstring) (p : Z) (acc : list TheaterData) (first : Arg1) :
  fetch_failure (request lib (page_query api (P_q query) p)) = Some first ->
  fetched (getTheaters lib fuel api query (Some (p, acc))) = [page_query api (P_q query) p]
  /\ ended (getTheaters lib fuel api query (Some (p, acc))) = Callback first None.
Proof.
  intros H.
  apply (_request_failure lib (enter_getTheaters api (Some (p, acc))) (P_q query)) in H.
  erewrite getTheaters_done; [split; reflexivity|].
  unfold getTheaters_page. now rewrite H.
Qed.

Lemma getTheaters_empty_at (lib : Library) (fuel : nat) (api : Instance)
    (query : option jsstring) (p : Z) (acc : list TheaterData) (pg : Page) :
  serves lib api (P_q query) p pg ->
  p_theaters pg = [] ->
  fetched (getTheaters lib fuel api query (Some (p, acc))) = [page_query api (P_q query) p]
  /\ ended (getTheaters lib fuel api query (Some (p, acc)))
     = Callback (AString (p_results pg)) None.
Proof.
  intros [body [Hbody Hload]] Hempty.
  apply (_request_body lib (enter_getTheaters api (Some (p, acc))) (P_q query)) in Hbody.
  erewrite getTheaters_done; [split; reflexivity|].
  unfold getTheaters_page. rewrite Hbody.
  change (if str_eqb (lang (enter_getTheaters api (Some (p, acc)))) (lit "tr")
          then iconv_decode_latin5 body else body) with (decoded api body).
  cbv zeta. rewrite Hload, Hempty. reflexivity.
Qed.

(** X12.  The theaters gathered from the pages already read are never
    delivered when a later page fails.  After n pages of theaters that
    show "Next", below the page limit: if the next fetch fails, the call
    ends with the error as first argument of the callback and nothing
    else; if the next page holds no theater, it ends with the text of
    that page as first argument.  In both cases n + 1 fetches were
    made. *)
Theorem X12_later_failure_drops_records :
  forall (lib : Library) (api : Instance) (query : option jsstring)
         (pages : list Page) (fuel : nat),
    Forall (theater_page lib) pages ->
    Forall (fun pg => shows_next pg = true) pages ->
    (forall i pg, nth_error pages i = Some pg ->
                  serves lib api (P_q query) (Z.of_nat i + 1) pg /\
                  (Z.of_nat i + 1)%Z <> pageLimit api) ->
    length pages <= fuel ->
    let run := getTheaters lib fuel api query None in
    let next := (Z.of_nat (length pages) + 1)%Z in
    (forall first,
        fetch_failure (request lib (page_query api (P_q query) next)) = Some first ->
        ended run = Callback first None /\ length (fetched run) = S (length pages)) /\
    (forall pg,
        serves lib api (P_q query) next pg ->
        p_theaters pg = [] ->
        ended run = Callback (AString (p_results pg)) None /\
        length (fetched run) = S (length pages)).
Proof.
  intros lib api query pages fuel Hpages Hnext Hserved Hfuel run next. subst run.
  rewrite getTheaters_first_page.
  destruct (getTheaters_prefix lib api query pages fuel 1%Z [] Hpages Hnext)
    as [acc' [_ [Hf He]]]; [|exact Hfuel|].
  { intros i pg Hi. replace (1 + Z.of_nat i)%Z with (Z.of_nat i + 1)%Z by lia.
    exact (Hserved i pg Hi). }
  cbn zeta in Hf, He.
  replace (1 + Z.of_nat (length pages))%Z with next in Hf, He by (subst next; lia).
  split.
  - intros first Hfail.
    destruct (getTheaters_failure_at lib (fuel - length pages) api query next acc' first
                Hfail) as [Hf' He'].
    rewrite He, He', Hf, Hf', length_app, length_map, length_seq. cbn. split; [reflexivity | lia].
  - intros pg Hpg Hempty.
    destruct (getTheaters_empty_at lib (fuel - length pages) api query next acc' pg
                Hpg Hempty) as [Hf' He'].
    rewrite He, He', Hf, Hf', length_app, length_map, length_seq. cbn. split; [reflexivity | lia].
Qed.

(** A first page of theaters that shows "Next": when the second fetch is
    answered 500 the call ends with the unknown error, when the second
    page is blank it ends with the (empty) text of that page.  The theater
    of the first page is delivered in neither case. *)
Lemma X12_witness :
  ended (getTheaters (closing [first_page]) 2 paris_api None None)
  = Callback (AString unknown_error) None /\
  ended (getTheaters (site [first_page]) 2 paris_api None None)
  = Callback (AString []) None.
Proof.
  split.
  - refine (proj1 (proj1 (X12_later_failure_drops_records (closing [first_page]) paris_api
                     None [first_page] 2 _ _ _ _) (AString unknown_error) _)).
    + constructor; [|constructor].
      split; [discriminate|]. split; eexists; reflexivity.
    + repeat constructor.
    + intros [|[|i]] pg Hi; try discriminate. injection Hi as <-.
      split; [|cbn; lia]. exists [0%N]. split; reflexivity.
    + cbn. lia.
    + reflexivity.
  - refine (proj1 (proj2 (X12_later_failure_drops_records (site [first_page]) paris_api
                     None [first_page] 2 _ _ _ _) blank_page _ _)).
    + constructor; [apply paris_theater_page | constructor].
    + repeat constructor.
    + intros i pg Hi. split.
      * exact (@site_serves [first_page] paris_api (P_q None) paris_not_turkish i pg Hi).
      * destruct i as [|[|i]]; discriminate.
    + cbn. lia.
    + exists [1%N]. split; reflexivity.
    + reflexivity.
Defined.
(* ================================================================== *)
(** ** Further properties: what the listings deliver *)
(* ================================================================== *)

Lemma each_movie_named (lib : Library) (doc : Page) (l : list Movie)
    (movies : list MovieData) :
  each_movie lib doc l = Ok movies ->
  Forall (fun m => mv_name m <> []) movies.
Proof.
  intros H. apply each_movie_names in H. apply Forall_forall. intros m Hm.
  apply (in_map mv_name) in Hm. rewrite H in Hm. apply filter_In in Hm.
  destruct Hm as [_ Hm]. apply Bool.negb_true_iff in Hm.
  now apply is_empty_not_nil.
Qed.

Lemma _parseTheater_entry (lib : Library) (doc : Page) (theater : Theater)
    (theaterData : TheaterData) :
  _parseTheater lib doc theater false None = Ok theaterData ->
  (length (theater_name theaterData) =? 0)%nat = false ->
  theater_entry theaterData.
Proof.
  unfold _parseTheater.
  destruct (given_or None _ theater) as [id|e]; cbn; [|discriminate].
  destruct (each_movie lib doc (t_movies theater)) as [movies|e] eqn:E; cbn;
    [|discriminate].
  intros [= <-]. cbn. intros Hname. split.
  - intros Heq. now rewrite Heq in Hname.
  - exact (each_movie_named lib doc _ _ E).
Qed.

Lemma each_theater_entries (lib : Library) (doc : Page) (l : list Theater) :
  forall api,
    Forall theater_entry (theaters api) ->
    Forall theater_entry (theaters (snd (each_theater lib doc api l))).
Proof.
  induction l as [|t l IH]; intros api Hacc; cbn [each_theater]; [exact Hacc|].
  destruct (_parseTheater lib doc t false None) as [td|e] eqn:E; [|exact Hacc].
  destruct (length (theater_name td) =? 0)%nat eqn:Hname; [now apply IH|].
  apply IH. cbn. apply Forall_app. split; [exact Hacc|].
  constructor; [|constructor]. exact (_parseTheater_entry lib doc t td E Hname).
Qed.

Lemma each_page_movie_entries (lib : Library) (doc : Page) (l : list Movie) :
  forall api,
    Forall movie_entry (movies api) ->
    Forall movie_entry (movies (snd (each_page_movie lib doc api l))).
Proof.
  induction l as [|m l IH]; intros api Hacc; cbn [each_page_movie]; [exact Hacc|].
  destruct (_parseMovie lib doc m true None) as [[[movieData|]|e] m'] eqn:E;
    [|now apply IH|exact Hacc].
  destruct (nested_theaters lib doc m') as [ts|e]; [|exact Hacc].
  apply IH. cbn [movies set_movies]. apply Forall_app. split; [exact Hacc|].
  constructor; [|constructor].
  destruct (_parseMovie_record lib doc m m' true None movieData E)
    as [_ [Hname [_ [_ [_ [_ [_ [_ [Htickets _]]]]]]]]].
  split; [|split; [|split]]; cbn.
  - now apply is_empty_not_nil.
  - reflexivity.
  - exact Htickets.
  - now exists ts.
Qed.

Lemma _request_calls_back (lib : Library) (api : Instance) (params : Params)
    (q : Query) (e : Event) :
  _request lib api params = (q, inl e) ->
  exists first, e = Callback first None /\ first <> ANull.
Proof.
  unfold _request.
  destruct (request lib _) as [error|statusCode body]; [|destruct (_ =? _)%Z];
    intros [= <- <-] || intros [=]; eexists; (split; [reflexivity | discriminate]).
Qed.

Lemma getTheaters_page_entries (lib : Library) (api : Instance) (query : option jsstring) :
  Forall theater_entry (theaters api) ->
  match snd (getTheaters_page lib api query) with
  | Done e _ => delivers_theaters e
  | Again api' => Forall theater_entry (theaters api')
  end.
Proof.
  intros Hacc. unfold getTheaters_page.
  destruct (_request lib api (P_q query)) as [q [e|response]] eqn:Er.
  - destruct (_request_calls_back lib api _ q e Er) as [first [-> Hfirst]].
    cbn. now destruct first.
  - cbv zeta.
    destruct (length (p_theaters _) =? 0)%nat; [exact I|].
    destruct (page_header _) as [[loc day]|e]; [|exact I].
    match goal with |- context [each_theater lib ?d api ?l] =>
      pose proof (each_theater_entries lib d l api Hacc) as Hall;
      destruct (each_theater lib d api l) as [[u|e] api1] end; [|exact I].
    cbn [snd] in Hall.
    destruct (_ || _)%bool.
    + cbn. eexists. eexists. split; [reflexivity|]. split; [reflexivity | exact Hall].
    + exact Hall.
Qed.

Lemma getMovies_page_entries (lib : Library) (api : Instance) (query : option jsstring) :
  Forall movie_entry (movies api) ->
  match snd (getMovies_page lib api query) with
  | Done e _ => delivers_movies e
  | Again api' => Forall movie_entry (movies api')
  end.
Proof.
  intros Hacc. unfold getMovies_page.
  destruct (_request lib api (P_sort_q query)) as [q [e|response]] eqn:Er.
  - destruct (_request_calls_back lib api _ q e Er) as [first [-> Hfirst]].
    cbn. now destruct first.
  - cbv zeta.
    destruct (length (p_movies _) =? 0)%nat; [exact I|].
    destruct (page_header _) as [[loc day]|e]; [|exact I].
    match goal with |- context [each_page_movie lib ?d api ?l] =>
      pose proof (each_page_movie_entries lib d l api Hacc) as Hall;
      destruct (each_page_movie lib d api l) as [[u|e] api1] end; [|exact I].
    cbn [snd] in Hall.
    destruct (_ || _)%bool.
    + cbn. eexists. eexists. split; [reflexivity|]. split; [reflexivity | exact Hall].
    + exact Hall.
Qed.

Lemma getTheaters_entries (lib : Library) (query : option jsstring) :
  forall fuel api hidden,
    match hidden with
    | Some (_, acc) => Forall theater_entry acc
    | None => True
    end ->
    delivers_theaters (ended (getTheaters lib fuel api query hidden)).
Proof.
  induction fuel as [|fuel IH]; intros api hidden Hacc; cbn [getTheaters];
    (assert (H0 : Forall theater_entry (theaters (enter_getTheaters api hidden)))
       by (destruct hidden as [[p acc]|]; [exact Hacc | constructor]));
    pose proof (getTheaters_page_entries lib _ query H0) as Hpage;
    destruct (getTheaters_page lib (enter_getTheaters api hidden) query)
      as [q [e a|a]]; cbn [snd] in Hpage; try exact Hpage; try exact I.
  destruct (page a) as [p|]; [|exact I].
  cbn [then_run ended]. apply IH. exact Hpage.
Qed.

Lemma getMovies_entries (lib : Library) (query : option jsstring) :
  forall fuel api hidden,
    match hidden with
    | Some (_, acc) => Forall movie_entry acc
    | None => True
    end ->
    delivers_movies (ended (getMovies lib fuel api query hidden)).
Proof.
  induction fuel as [|fuel IH]; intros api hidden Hacc; cbn [getMovies];
    (assert (H0 : Forall movie_entry (movies (enter_getMovies api hidden)))
       by (destruct hidden as [[p acc]|]; [exact Hacc | constructor]));
    pose proof (getMovies_page_entries lib _ query H0) as Hpage;
    destruct (getMovies_page lib (enter_getMovies api hidden) query)
      as [q [e a|a]]; cbn [snd] in Hpage; try exact Hpage; try exact I.
  destruct (page a) as [p|]; [|exact I].
  cbn [then_run ended]. apply IH. exact Hpage.
Qed.

(** X13.  Whatever the site answers and however many pages are read,
    when [getTheaters] calls back with [null] as first argument, the
    second is a result whose data is a list of theaters of the
    theater-first layout, each with a non-empty name and with movies that
    all have a non-empty name; when [getMovies] does, the data is a list
    of movies, each with a non-empty name, without [showtimes] and
    [showtime_tickets] and with a list of theaters. *)
Theorem X13_delivered_entries :
  forall (lib : Library) (fuel : nat) (api : Instance) (query : option jsstring),
    delivers_theaters (ended (getTheaters lib fuel api query None)) /\
    delivers_movies (ended (getMovies lib fuel api query None)).
Proof.
  intros lib fuel api query. split.
  - now apply getTheaters_entries.
  - now apply getMovies_entries.
Qed.
(* ================================================================== *)
(** ** Further properties: one theater, one movie *)
(* ================================================================== *)

(** X14.  How [getTheater] and [getMovie] end, whatever the site
    answers.  They never leave the call pending.  They call back with a
    first argument other than [null] exactly when the fetch failed, with
    the error of the network or the unknown error and no second argument:
    the text of the page is never handed to the callback.  When they call
    back with [null], the fetch was answered 200, location and date are
    those of the header of the page, and the record carries the id that
    was given; the movie has a non-empty name, no [showtimes], a list of
    theaters, and [more_theaters] is false. *)
Theorem X14_single_record :
  forall (lib : Library) (api : Instance) (id : jsstring),
    match ended (getTheater lib api id) with
    | Callback ANull second =>
        exists body r t,
          request lib (build_query api (P_tid id)) = Replied 200%Z body /\
          second = Some r /\
          page_header (cheerio_load lib body) = Ok (r_location r, r_date r) /\
          r_data r = DTheater (FullTheater t) /\
          th_id t = JStr id
    | Callback first second =>
        second = None /\
        fetch_failure (request lib (build_query api (P_tid id))) = Some first
    | Uncaught _ => exists body, request lib (build_query api (P_tid id)) = Replied 200%Z body
    | Pending => False
    end /\
    match ended (getMovie lib api id) with
    | Callback ANull second =>
        exists body r m,
          request lib (build_query api (P_mid id)) = Replied 200%Z body /\
          second = Some r /\
          page_header (cheerio_load lib body) = Ok (r_location r, r_date r) /\
          r_data r = DMovie m /\
          mv_id m = JStr id /\
          mv_name m <> [] /\
          mv_showtimes m = None /\
          (exists ts, mv_theaters m = Some ts) /\
          mv_more_theaters m = false
    | Callback first second =>
        second = None /\
        fetch_failure (request lib (build_query api (P_mid id))) = Some first
    | Uncaught _ => exists body, request lib (build_query api (P_mid id)) = Replied 200%Z body
    | Pending => False
    end.
Proof.
  intros lib api id. split.
  - unfold getTheater, _request.
    destruct (request lib (build_query api (P_tid id))) as [error|statusCode body];
      [cbn; split; reflexivity|].
    cbn [fetch_failure].
    destruct (Z.eqb_spec statusCode 200) as [->|Hcode]; [|cbn; split; reflexivity].
    cbv zeta.
    destruct (page_header (cheerio_load lib body)) as [[loc day]|e] eqn:Hh;
      [|cbn; now exists body].
    unfold _parseTheater.
    destruct (each_movie lib _ _) as [movies|e]; cbn; [|now exists body].
    eexists body, _, _. repeat split. exact Hh.
  - unfold getMovie, _request.
    destruct (request lib (build_query api (P_mid id))) as [error|statusCode body];
      [cbn; split; reflexivity|].
    cbn [fetch_failure].
    destruct (Z.eqb_spec statusCode 200) as [->|Hcode]; [|cbn; split; reflexivity].
    cbv zeta.
    destruct (_parseMovie lib (cheerio_load lib body) _ true (Some id))
      as [[[movieData|]|e] m'] eqn:E; [|cbn; now exists body|cbn; now exists body].
    destruct (nested_theaters lib _ m') as [ts|e]; [|cbn; now exists body].
    destruct (page_header (cheerio_load lib body)) as [[loc day]|e] eqn:Hh;
      [|cbn; now exists body].
    destruct (_parseMovie_record lib _ _ m' true (Some id) movieData E)
      as [_ [Hname [Hid _]]].
    cbn. eexists body, _, _. repeat split; try exact Hh; try exact Hid.
    + now apply is_empty_not_nil.
    + now exists ts.
Qed.

(** X15.  A page without any theater.  [getTheater] tests
    [!$('.showtimes')], which is never true of a selection: when the
    page that was fetched holds no theater and has a well-formed header,
    it calls back with [null] and an empty theater (the given id, no name,
    no address, no phone number, no movie), where [getTheaters] calls
    back with the text of the page as first argument. *)
Theorem X15_getTheater_without_theater :
  forall (lib : Library) (api : Instance) (id body loc day : jsstring),
    request lib (build_query api (P_tid id)) = Replied 200%Z body ->
    p_theaters (cheerio_load lib body) = [] ->
    page_header (cheerio_load lib body) = Ok (loc, day) ->
    ended (getTheater lib api id)
    = Callback ANull
        (Some {| r_location := loc; r_date := day;
                 r_data := DTheater (FullTheater {| th_id := JStr id;
                                                    th_name := [];
                                                    th_address := [];
                                                    th_phoneNumber := [];
                                                    th_movies := [] |}) |}).
Proof.
  intros lib api id body loc day Hbody Hnone Hheader.
  unfold getTheater. rewrite (@_request_body lib api (P_tid id) body Hbody).
  cbv zeta. rewrite Hheader, Hnone. reflexivity.
Qed.

(** On a site whose only page is for Paris and lists nothing. *)
Lemma X15_witness :
  ended (getTheater (site [empty_page]) paris_api (lit "ABC"))
  = Callback ANull
      (Some {| r_location := lit "Paris"; r_date := lit "Today";
               r_data := DTheater (FullTheater {| th_id := JStr (lit "ABC");
                                                  th_name := [];
                                                  th_address := [];
                                                  th_phoneNumber := [];
                                                  th_movies := [] |}) |}).
Proof.
  apply (X15_getTheater_without_theater (site [empty_page]) paris_api (lit "ABC") [0%N]
           (lit "Paris") (lit "Today")); reflexivity.
Defined.
(* ================================================================== *)
(** ** Further properties: the header of a page *)
(* ================================================================== *)

Lemma starts_with_own_prefix (p s : jsstring) : starts_with p (p ++ s) = true.
Proof.
  induction p as [|c p IH]; [reflexivity|]. cbn. now rewrite N.eqb_refl.
Qed.

Lemma skipn_app_length (p s : jsstring) : skipn (length p) (p ++ s) = s.
Proof. induction p; [reflexivity | assumption]. Qed.

Lemma trim_start_white (s : jsstring) :
  exists ws, s = ws ++ trim_start s /\ forallb is_white ws = true.
Proof.
  induction s as [|c s [ws [Hs Hws]]]; [now exists []|].
  cbn [trim_start]. destruct (is_white c) eqn:Hc.
  - exists (c :: ws). cbn. rewrite Hc, Hws. split; [now f_equal | reflexivity].
  - now exists [].
Qed.

Lemma trim_start_app_white (ws s : jsstring) :
  forallb is_white ws = true -> trim_start (ws ++ s) = trim_start s.
Proof.
  induction ws as [|c ws IH]; [reflexivity|]. cbn. intros H.
  apply Bool.andb_true_iff in H. destruct H as [-> H]. now apply IH.
Qed.

Lemma trim_start_head (s : jsstring) :
  match trim_start s with
  | [] => True
  | c :: _ => is_white c = false
  end.
Proof.
  induction s as [|c s IH]; [exact I|]. cbn. destruct (is_white c) eqn:Hc; [exact IH | exact Hc].
Qed.

(** X16.  The two patterns of the header.  [/^Showtimes for (.+)$/]
    matches a text exactly when it is "Showtimes for " followed by a
    non-empty text without line terminator, which is the location.
    [/^›\s*(.+)$/] matches exactly when the text is the arrow, white
    space, and a non-empty text without line terminator, the day, that
    either does not start with white space or is the single last unit of
    a text that is white space only. *)
Theorem X16_header_patterns :
  forall (text : jsstring),
    (forall loc,
        match_title text = Some loc <->
        text = lit "Showtimes for " ++ loc /\ loc <> [] /\ one_line loc) /\
    (forall day,
        match_day text = Some day <->
        exists ws c rest,
          text = rsaquo :: ws ++ day /\ forallb is_white ws = true /\
          day = c :: rest /\ one_line day /\
          (is_white c = false \/ rest = [])).
Proof.
  intros text. split.
  - intros loc. unfold match_title, one_line. split.
    + destruct (starts_with (lit "Showtimes for ") text) eqn:Hp; [|discriminate].
      destruct (is_empty _) eqn:He; [discriminate|]. cbn [orb].
      destruct (existsb _ _) eqn:Hl; [discriminate|]. intros [= <-].
      split; [now apply starts_with_app|]. split; [now apply is_empty_not_nil | exact Hl].
    + intros [-> [Hne Hl]]. rewrite starts_with_own_prefix, skipn_app_length.
      apply is_empty_not_nil in Hne. now rewrite Hne, Hl.
  - intros day. unfold match_day, one_line. split.
    + destruct text as [|a rest]; [discriminate|].
      destruct (N.eqb_spec a rsaquo) as [->|]; [|discriminate].
      destruct (trim_start_white rest) as [ws [Hrest Hws]].
      pose proof (trim_start_head rest) as Hhead.
      destruct (trim_start rest) as [|c body] eqn:Ht.
      * rewrite app_nil_r in Hrest. subst ws.
        destruct (rev rest) as [|l front] eqn:Hrev; [discriminate|].
        destruct (is_line_terminator l) eqn:Hl; [discriminate|]. intros [= <-].
        apply (f_equal (@rev code_unit)) in Hrev. rewrite rev_involutive in Hrev.
        cbn in Hrev. exists (rev front), l, []. subst rest.
        rewrite forallb_app in Hws. apply Bool.andb_true_iff in Hws.
        destruct Hws as [Hws _]. repeat split; try assumption.
        -- cbn. now rewrite Hl.
        -- now right.
      * destruct (existsb is_line_terminator (c :: body)) eqn:Hl; [discriminate|].
        intros [= <-]. exists ws, c, body. subst rest. repeat split; try assumption.
        now left.
    + intros [ws [c [rest [-> [Hws [-> [Hl Hc]]]]]]].
      rewrite N.eqb_refl, (trim_start_app_white _ _ Hws).
      destruct Hc as [Hc | ->].
      * cbn [trim_start]. rewrite Hc. now rewrite Hl.
      * cbn [trim_start]. destruct (is_white c) eqn:Hc.
        -- rewrite rev_app_distr. cbn. cbn in Hl.
           rewrite Bool.orb_false_r in Hl. now rewrite Hl.
        -- now rewrite Hl.
Qed.

(** On the header of a page for Paris, today. *)
Lemma X16_witness :
  match_title (lit "Showtimes for Paris") = Some (lit "Paris") /\
  match_day (rsaquo :: lit " Today") = Some (lit "Today").
Proof.
  split.
  - apply (proj1 (X16_header_patterns (lit "Showtimes for Paris"))).
    split; [reflexivity|]. split; [discriminate | reflexivity].
  - apply (proj2 (X16_header_patterns (rsaquo :: lit " Today"))).
    exists (lit " "), 84%N, (lit "oday"). repeat split. now left.
Defined.
